(** * EdgeAnalysis: the scoring and analytics engine

    A shallow embedding of the pure scoring functions of the profile page
    ([calculateMatchImpact], [rankPlayersInMatch], the recent / season
    aggregation, the best-champion rule and [getStability]) and the
    properties the design document states about them.

    Numbers.  The program computes on JavaScript numbers.  They are
    idealised here as exact rationals ([Q]): no rounding, no overflow, no
    NaN.  Every division of the embedded code has a divisor that the code
    itself keeps non-zero (a guard, or a [Math.max (_, 1)] floor), so the
    total division of [Q] is never consulted at 0 on a path the theorems
    speak about.  [Math.sqrt] appears once, in [getStability]; it is
    embedded over the real numbers.

    The stability label sits on thresholds that the rounding of the
    program's numbers can cross.  [getStability] is therefore embedded a
    second time, over IEEE 754 double-precision numbers ([Module Double]),
    and what is stated of the label is stated of that embedding. *)

From Stdlib Require Import QArith Qminmax Qround Qreals Lqa.
From Stdlib Require Import ZArith Lia List String Bool SpecFloat.
From Stdlib Require Import Permutation Sorted.
From Stdlib Require Import Reals Lra.
Import ListNotations.

Local Open Scope string_scope.
Local Open Scope list_scope.
Local Open Scope Q_scope.

(** ** JavaScript idioms on numbers *)

Module Js.

(** [a <= b] and [a < b] as the booleans a conditional tests. *)
Definition leb (a b : Q) : bool := Qle_bool a b.
Definition ltb (a b : Q) : bool := negb (Qle_bool b a).

(** [a === 0] on numbers. *)
Definition is_zero (a : Q) : bool := Qeq_bool a 0.

(** [a || b] on numbers: [a] unless it is falsy (zero). *)
Definition or (a b : Q) : Q := if is_zero a then b else a.

(** [x || d] where [x] is a table entry that may be absent. *)
Definition or_undef (x : option Q) (d : Q) : Q :=
  match x with
  | Some a => or a d
  | None => d
  end.

(** [Math.min], [Math.max] and [Math.round] (half up). *)
Definition min (a b : Q) : Q := Qmin a b.
Definition max (a b : Q) : Q := Qmax a b.
Definition round (a : Q) : Q := inject_Z (Qfloor (a + (1 # 2))).

(** [l.length] as a number, and the sum [l.reduce((a, b) => a + b, 0)]. *)
Definition len {A : Type} (l : list A) : Q := inject_Z (Z.of_nat (List.length l)).
Definition sum (l : list Q) : Q := fold_left Qplus l 0.

(** [l.slice(i, j)]. *)
Definition slice {A : Type} (i j : nat) (l : list A) : list A :=
  firstn (j - i) (skipn i l).

(** [c ? 1 : 0] and friends. *)
Definition cond (c : bool) (a b : Q) : Q := if c then a else b.

End Js.

(** ** Data model *)

(** [MatchParticipant]: the fields the scoring functions read.  Every
    numeric field is declared a (non-optional) [number] in the source, so
    the defensive [p.x || 0] of the source is [p.x] itself. *)
Record MatchParticipant : Type := mkParticipant {
  puuid : string;
  championName : string;
  champLevel : Q;
  kills : Q;
  deaths : Q;
  assists : Q;
  win : bool;
  totalMinionsKilled : Q;
  neutralMinionsKilled : Q;
  visionScore : Q;
  visionWardsBoughtInGame : Q;
  wardsPlaced : Q;
  wardsKilled : Q;
  goldEarned : Q;
  totalDamageDealtToChampions : Q;
  totalDamageTaken : Q;
  teamPosition : string;
  teamId : Z;
  doubleKills : Q;
  tripleKills : Q;
  quadraKills : Q;
  pentaKills : Q;
  turretKills : Q;
  inhibitorKills : Q;
  dragonKills : Q;
  baronKills : Q;
  firstBloodKill : bool;
  firstBloodAssist : bool;
  firstTowerKill : bool;
  firstTowerAssist : bool;
  objectivesStolen : Q;
  objectivesStolenAssists : Q;
  damageDealtToObjectives : Q;
  damageDealtToTurrets : Q;
  damageDealtToBuildings : Q;
  timeCCingOthers : Q;
  totalHealsOnTeammates : Q;
  totalDamageShieldedOnTeammates : Q;
  longestTimeSpentLiving : Q;
  soloKills : Q;
  largestKillingSpree : Q
}.

(** ** ImpactScorer *)

(** [calculateMatchImpact(p, gameDuration)]: the 0-10 impact score of one
    participant in one match. *)
Definition calculateMatchImpact (p : MatchParticipant) (gameDuration : Q) : Q :=
  let minutes := gameDuration / 60 in
  if Js.leb minutes 0 then 0 else
  let kda := if Js.is_zero (deaths p)
             then kills p + assists p
             else (kills p + assists p) / deaths p in
  let kdaScore := Js.min (kda / 3) 2.5 in
  let csPerMin := (totalMinionsKilled p + neutralMinionsKilled p) / minutes in
  let csScore := Js.min (csPerMin / 7) 1.5 in
  let visionPerMin := visionScore p / minutes in
  let visionScore := Js.min (visionPerMin / 1.5) 1 in
  let dmgPerMin := totalDamageDealtToChampions p / minutes in
  let dmgScore := Js.min (dmgPerMin / 800) 1.5 in
  let goldPerMin := goldEarned p / minutes in
  let goldScore := Js.min (goldPerMin / 450) 1 in
  let objKills := turretKills p * 0.3 + inhibitorKills p * 0.5
                  + dragonKills p * 0.6 + baronKills p * 1.0 in
  let objScore := Js.min objKills 1.5 in
  let objDmgPerMin := damageDealtToObjectives p / minutes in
  let objDmgScore := Js.min (objDmgPerMin / 600) 1 in
  let winBonus := Js.cond (win p) 1 0 in
  let deathPenalty := Js.min ((deaths p / minutes) * 0.8) 2 in
  let total := kdaScore + csScore + visionScore + dmgScore + goldScore
               + objScore + objDmgScore + winBonus - deathPenalty in
  Js.min (Js.max total 0) 10.

(** ** Tables *)

(** A JavaScript object used as a table with number keys
    ([Record<number, number>]): only read and written by key. *)
Module NumTable.

Definition t : Type := list (Z * Q).

Fixpoint get (k : Z) (m : t) : option Q :=
  match m with
  | [] => None
  | (k', v) :: m' => if Z.eqb k k' then Some v else get k m'
  end.

Fixpoint set (k : Z) (v : Q) (m : t) : t :=
  match m with
  | [] => [(k, v)]
  | (k', v') :: m' =>
      if Z.eqb k k' then (k, v) :: m' else (k', v') :: set k v m'
  end.

End NumTable.

(** A string-keyed table that remembers insertion order: a [Map<string, V>]
    or an object whose keys are names ([Record<string, V>]; lane and
    champion names are not array indices, so [Object.values] lists them in
    insertion order).  Writing an existing key replaces its value in
    place. *)
Module StrMap.

Definition t (V : Type) : Type := list (string * V).

Definition empty {V : Type} : t V := [].

Fixpoint get {V : Type} (k : string) (m : t V) : option V :=
  match m with
  | [] => None
  | (k', v) :: m' => if String.eqb k k' then Some v else get k m'
  end.

Fixpoint set {V : Type} (k : string) (v : V) (m : t V) : t V :=
  match m with
  | [] => [(k, v)]
  | (k', v') :: m' =>
      if String.eqb k k' then (k, v) :: m' else (k', v') :: set k v m'
  end.

Definition keys {V : Type} (m : t V) : list string := map fst m.
Definition values {V : Type} (m : t V) : list V := map snd m.

End StrMap.

(** ** [Array.prototype.sort] *)

(** [l.sort(cmp)] is a stable sort: with a comparator that orders by a
    numeric key, as both comparators of the program do, the result is the
    one stable arrangement, whatever algorithm the engine runs.  It is
    embedded as the stable insertion sort. *)
Section Sort.

Context {A : Type} (cmp : A -> A -> Q).

(** [x] comes from before [l] in the array: it goes in front of the first
    element it does not have to follow. *)
Fixpoint insert (x : A) (l : list A) : list A :=
  match l with
  | [] => [x]
  | y :: l' => if Js.leb (cmp x y) 0 then x :: y :: l' else y :: insert x l'
  end.

Definition sort (l : list A) : list A := fold_right insert [] l.

End Sort.

(** ** MatchRanker (EdgeScore) *)

(** The nine categories, in the key order of [categoryMax]. *)
Inductive Category : Type :=
| Combat | Damage | Objectives | Economy | Vision | Utility | Clutch
| Impact | WinContribution.

(** One row of [roleWeights]: a weight for each category. *)
Definition Weights : Type := Category -> Q.

Definition mkWeights (c d o e v u cl i w : Q) : Weights :=
  fun k =>
    match k with
    | Combat => c | Damage => d | Objectives => o | Economy => e
    | Vision => v | Utility => u | Clutch => cl | Impact => i
    | WinContribution => w
    end.

Definition weights_DEFAULT : Weights :=
  mkWeights 1.00 1.00 1.00 1.00 1.00 1.00 1.00 1.00 1.00.

(** [roleWeights[pos]]: the row of a role label, if the table has one
    (an own property; role labels are not names inherited from
    [Object.prototype]). *)
Definition roleWeights (pos : string) : option Weights :=
  if String.eqb pos "TOP" then
    Some (mkWeights 1.15 1.00 1.10 1.00 0.85 1.15 0.95 1.00 1.00)
  else if String.eqb pos "JUNGLE" then
    Some (mkWeights 1.00 0.90 1.20 0.85 1.10 0.95 1.15 1.00 1.00)
  else if String.eqb pos "MIDDLE" then
    Some (mkWeights 1.10 1.15 0.95 1.00 0.85 0.85 1.10 1.00 1.00)
  else if String.eqb pos "BOTTOM" then
    Some (mkWeights 1.00 1.10 0.95 1.05 0.85 0.85 0.95 1.00 1.00)
  else if String.eqb pos "UTILITY" then
    Some (mkWeights 0.95 0.80 0.90 0.85 1.15 1.15 1.05 1.00 1.00)
  else if String.eqb pos "DEFAULT" then Some weights_DEFAULT
  else None.

(** [roleWeights[p.teamPosition] || roleWeights.DEFAULT]. *)
Definition weightsOf (pos : string) : Weights :=
  match roleWeights pos with
  | Some w => w
  | None => weights_DEFAULT
  end.

(** [categoryMax], as the list of its entries in key order. *)
Definition categoryMax : list (Category * Q) :=
  [ (Combat, 25); (Damage, 18); (Objectives, 20); (Economy, 10);
    (Vision, 8); (Utility, 12); (Clutch, 12); (Impact, 10);
    (WinContribution, 10) ].

(** [Object.keys(categoryMax).reduce((s, k) => s + categoryMax[k] * w[k], 0)]. *)
Definition roleMax (w : Weights) : Q :=
  fold_left (fun s kc => s + snd kc * w (fst kc)) categoryMax 0.

Record Breakdown : Type := mkBreakdown {
  combat : Q;
  damage : Q;
  objectives : Q;
  economy : Q;
  vision : Q;
  utility : Q;
  clutch : Q;
  impact : Q;
  winContribution : Q
}.

(** An element of the intermediate array [scored]. *)
Record Scored : Type := mkScored {
  s_puuid : string;
  s_score : Q;
  s_breakdown : Breakdown
}.

Record PlayerScore : Type := mkPlayerScore {
  rank : nat;
  score : Q;
  breakdown : Breakdown
}.

(** The match-wide denominators and the per-team tables that the scoring
    closure captures. *)
Record MatchTotals : Type := mkTotals {
  totalKills : Q;
  totalDmg : Q;
  totalGold : Q;
  totalVision : Q;
  totalDmgTaken : Q;
  totalObjDmg : Q;
  totalCC : Q;
  totalHealing : Q;
  teamKills : NumTable.t;
  teamGold : NumTable.t;
  teamDmg : NumTable.t
}.

(** [Math.max(participants.reduce((s, p) => s + f(p), 0), 1)]. *)
Definition totalOf (f : MatchParticipant -> Q)
    (participants : list MatchParticipant) : Q :=
  Js.max (fold_left (fun s p => s + f p) participants 0) 1.

(** One of the three team tables after the [forEach]:
    [t[p.teamId] = (t[p.teamId] || 0) + f(p)]. *)
Definition teamTable (f : MatchParticipant -> Q)
    (participants : list MatchParticipant) : NumTable.t :=
  fold_left
    (fun t p =>
       NumTable.set (teamId p)
         (Js.or_undef (NumTable.get (teamId p) t) 0 + f p) t)
    participants [].

Definition matchTotals (participants : list MatchParticipant) : MatchTotals :=
  {| totalKills := totalOf kills participants;
     totalDmg := totalOf totalDamageDealtToChampions participants;
     totalGold := totalOf goldEarned participants;
     totalVision := totalOf visionScore participants;
     totalDmgTaken := totalOf totalDamageTaken participants;
     totalObjDmg := totalOf damageDealtToObjectives participants;
     totalCC := totalOf timeCCingOthers participants;
     totalHealing :=
       Js.max
         (fold_left
            (fun s p => s + totalHealsOnTeammates p
                        + totalDamageShieldedOnTeammates p)
            participants 0) 1;
     teamKills := teamTable kills participants;
     teamGold := teamTable goldEarned participants;
     teamDmg := teamTable totalDamageDealtToChampions participants |}.

(** The body of [participants.map(p => ...)], first half: the nine
    category scores of [p] (sections 1 to 9 of the closure). *)
Definition categoryScores (T : MatchTotals) (gameDuration : Q)
    (p : MatchParticipant) : Breakdown :=
  let minutes := gameDuration / 60 in
  let kda := if Js.is_zero (deaths p)
             then (kills p + assists p) * 1.5
             else (kills p + assists p) / deaths p in
  let cs := totalMinionsKilled p + neutralMinionsKilled p in
  let myTeamKills :=
    Js.max (Js.or_undef (NumTable.get (teamId p) (teamKills T)) 1) 1 in
  let myTeamGold :=
    Js.max (Js.or_undef (NumTable.get (teamId p) (teamGold T)) 1) 1 in
  let myTeamDmg :=
    Js.max (Js.or_undef (NumTable.get (teamId p) (teamDmg T)) 1) 1 in
  let killParticipation := (kills p + assists p) / myTeamKills in
  (* 1) combat *)
  let kdaPts := Js.min (kda / 5) 1 * 12 in
  let kpPts := Js.min killParticipation 1 * 6 in
  let multiKillPts :=
    Js.min (doubleKills p * 0.5 + tripleKills p * 1.5
            + quadraKills p * 3 + pentaKills p * 7) 7 in
  let soloPts := Js.min (soloKills p * 1.2) 4 in
  let spreePts := Js.min (largestKillingSpree p * 0.3) 3 in
  let deathPenalty := Js.min ((deaths p / minutes) * 2.5) 7 in
  let combat :=
    Js.max (kdaPts + kpPts + multiKillPts + soloPts + spreePts
            - deathPenalty) 0 in
  (* 2) damage *)
  let dmgSharePts :=
    Js.min (totalDamageDealtToChampions p / totalDmg T / 0.15) 1 * 10 in
  let dpmPts :=
    Js.min (totalDamageDealtToChampions p / minutes / 700) 1 * 5 in
  let teamDmgSharePts :=
    Js.min (totalDamageDealtToChampions p / myTeamDmg / 0.25) 1 * 3 in
  let damage := dmgSharePts + dpmPts + teamDmgSharePts in
  (* 3) objectives *)
  let turretPts := Js.min (turretKills p * 1.5) 4 in
  let inhibPts := Js.min (inhibitorKills p * 2) 3 in
  let dragonPts := Js.min (dragonKills p * 1.5) 3 in
  let baronPts := Js.min (baronKills p * 2.5) 3 in
  let objDmgShare := damageDealtToObjectives p / totalObjDmg T in
  let objDmgPts := Js.min (objDmgShare / 0.15) 1 * 4 in
  let stealPts :=
    (objectivesStolen p + objectivesStolenAssists p * 0.5) * 3 in
  let stealCapped := Js.min stealPts 5 in
  let objectives :=
    turretPts + inhibPts + dragonPts + baronPts + objDmgPts + stealCapped in
  (* 4) economy *)
  let goldSharePts := Js.min (goldEarned p / totalGold T / 0.12) 1 * 5 in
  let csPerMin := cs / minutes in
  let csPts := Js.min (csPerMin / 8) 1 * 3 in
  let goldEfficiency :=
    if Js.ltb 0 myTeamGold then goldEarned p / myTeamGold else 0 in
  let goldEffPts := Js.min (goldEfficiency / 0.25) 1 * 2 in
  let economy := goldSharePts + csPts + goldEffPts in
  (* 5) vision *)
  let visionSharePts := Js.min (visionScore p / totalVision T / 0.13) 1 * 4 in
  let wardsPerMinPts :=
    Js.min ((wardsPlaced p + wardsKilled p) / minutes / 1.5) 1 * 2 in
  let controlWardPts := Js.min (visionWardsBoughtInGame p * 0.5) 2 in
  let vision := visionSharePts + wardsPerMinPts + controlWardPts in
  (* 6) utility *)
  let ccShare := timeCCingOthers p / totalCC T in
  let ccPts := Js.min (ccShare / 0.15) 1 * 4 in
  let healShieldShare :=
    (totalHealsOnTeammates p + totalDamageShieldedOnTeammates p)
    / totalHealing T in
  let healShieldPts := Js.min (healShieldShare / 0.15) 1 * 4 in
  let tankShare := totalDamageTaken p / totalDmgTaken T in
  let tankPts := Js.min (tankShare / 0.15) 1 * 4 in
  let utility := ccPts + healShieldPts + tankPts in
  (* 7) clutch *)
  let firstBloodPts :=
    Js.cond (firstBloodKill p) 2 0 + Js.cond (firstBloodAssist p) 1 0 in
  let firstTowerPts :=
    Js.cond (firstTowerKill p) 2 0 + Js.cond (firstTowerAssist p) 1 0 in
  let towerDmgPts :=
    Js.min (Js.or (Js.or (damageDealtToTurrets p)
                         (damageDealtToBuildings p)) 0
            / minutes / 200) 1 * 3 in
  let survivalPts :=
    Js.min (longestTimeSpentLiving p / (gameDuration * 0.4)) 1 * 2 in
  let levelAdvPts := Js.min (champLevel p / 18) 1 * 2 in
  let clutch :=
    Js.min (firstBloodPts + firstTowerPts + towerDmgPts + survivalPts
            + levelAdvPts) 12 in
  (* 8) win contribution *)
  let teamKillShare := (kills p + assists p) / (myTeamKills + 1) in
  let teamGoldShare := goldEarned p / myTeamGold in
  let teamDmgPct := totalDamageDealtToChampions p / myTeamDmg in
  let carryIndex :=
    teamKillShare * 0.35 + teamDmgPct * 0.35 + teamGoldShare * 0.3 in
  let winMultiplier := Js.cond (win p) 1.5 0.7 in
  let winContribution := Js.min (carryIndex * winMultiplier * 15) 10 in
  (* 9) impact *)
  let impactRaw := calculateMatchImpact p gameDuration in
  let impact := impactRaw in
  {| combat := combat; damage := damage; objectives := objectives;
     economy := economy; vision := vision; utility := utility;
     clutch := clutch; impact := impact;
     winContribution := winContribution |}.

(** Second half (section TOTAL): the role weights applied to the nine
    category scores, the normalisation by the role maximum, and the
    element of [scored] that is returned. *)
Definition scoreParticipant (T : MatchTotals) (gameDuration : Q)
    (p : MatchParticipant) : Scored :=
  let b := categoryScores T gameDuration p in
  let w := weightsOf (teamPosition p) in
  let rawWeighted :=
    combat b * w Combat + damage b * w Damage
    + objectives b * w Objectives + economy b * w Economy
    + vision b * w Vision + utility b * w Utility + clutch b * w Clutch
    + impact b * w Impact + winContribution b * w WinContribution in
  let roleMax := roleMax w in
  let normalized := Js.min (rawWeighted / roleMax * 100) 100 in
  {| s_puuid := puuid p; s_score := normalized; s_breakdown := b |}.

(** [scored.forEach((s, i) => result.set(s.puuid, {rank: i + 1, ...}))],
    from index [i] on. *)
Fixpoint assignRanks (i : nat) (scored : list Scored)
    (result : StrMap.t PlayerScore) : StrMap.t PlayerScore :=
  match scored with
  | [] => result
  | s :: rest =>
      assignRanks (S i) rest
        (StrMap.set (s_puuid s)
           {| rank := (i + 1)%nat; score := s_score s;
              breakdown := s_breakdown s |} result)
  end.

(** The team objective totals handed to the ranker.  The table it builds
    from them ([teamObjectives]) is never read afterwards. *)
Record TeamObjectives : Type := mkTeamObjectives {
  t_teamId : Z;
  barons : Q;
  dragons : Q;
  towers : Q
}.

(** [rankPlayersInMatch(participants, gameDuration, teams)]. *)
Definition rankPlayersInMatch (participants : list MatchParticipant)
    (gameDuration : Q) (teams : option (list TeamObjectives))
    : StrMap.t PlayerScore :=
  let minutes := gameDuration / 60 in
  if Js.leb minutes 0 then StrMap.empty else
  let T := matchTotals participants in
  let scored := map (scoreParticipant T gameDuration) participants in
  let scored := sort (fun a b => s_score b - s_score a) scored in
  assignRanks 0 scored StrMap.empty.

(** ** AggregationEngine *)

(** [match.info]: the fields the aggregation reads. *)
Record MatchData : Type := mkMatch {
  gameDuration : Q;
  participants : list MatchParticipant
}.

(** [normalizePosition(pos)]. *)
Definition normalizePosition (pos : string) : string :=
  if String.eqb pos "TOP" then "Top"
  else if String.eqb pos "JUNGLE" then "Jng"
  else if String.eqb pos "MIDDLE" then "Mid"
  else if String.eqb pos "BOTTOM" then "Adc"
  else if String.eqb pos "UTILITY" then "Sup"
  else "Unknown".

Module LaneStats.
Record t : Type := mk { games : Q; wins : Q }.
End LaneStats.

Module ChampionStats.
Record t : Type := mk {
  name : string;
  games : Q;
  wins : Q;
  kills : Q;
  deaths : Q;
  assists : Q;
  totalImpact : Q
}.
End ChampionStats.

Module AvgKDA.
Record t : Type := mk { kills : Q; deaths : Q; assists : Q }.
End AvgKDA.

(** [participants.find(p => p.puuid === target)]. *)
Definition findParticipant (target : string) (m : MatchData)
    : option MatchParticipant :=
  find (fun p => String.eqb (puuid p) target) (participants m).

(** The lane bookkeeping shared by both windows:
    [if (lane !== 'Unknown') { if (!lanes[lane]) lanes[lane] = {games: 0,
    wins: 0}; lanes[lane].games++; if (participant.win) lanes[lane].wins++ }]. *)
Definition countLane (participant : MatchParticipant)
    (lanes : StrMap.t LaneStats.t) : StrMap.t LaneStats.t :=
  let lane := normalizePosition (teamPosition participant) in
  if String.eqb lane "Unknown" then lanes else
  let lanes :=
    match StrMap.get lane lanes with
    | Some _ => lanes
    | None => StrMap.set lane (LaneStats.mk 0 0) lanes
    end in
  match StrMap.get lane lanes with
  | Some st =>
      StrMap.set lane
        (LaneStats.mk (LaneStats.games st + 1)
           (if win participant then LaneStats.wins st + 1
            else LaneStats.wins st))
        lanes
  | None => lanes
  end.

(** [l.length > 0 ? l.reduce((a, b) => a + b, 0) / l.length : dflt]. *)
Definition averageOr (l : list Q) (dflt : Q) : Q :=
  if (0 <? List.length l)%nat then Js.sum l / Js.len l else dflt.

(** *** The recent window *)

Module Recent.

(** The variables the loop of [recentAnalysis] updates. *)
Record Acc : Type := mkAcc {
  a_impactScores : list Q;
  a_lanes : StrMap.t LaneStats.t;
  a_totalKills : Q;
  a_totalDeaths : Q;
  a_totalAssists : Q;
  a_wins : Q;
  a_losses : Q
}.

Definition init : Acc := mkAcc [] StrMap.empty 0 0 0 0 0.

(** One iteration of [for (const match of recent)]. *)
Definition step (target : string) (acc : Acc) (m : MatchData) : Acc :=
  match findParticipant target m with
  | None => acc
  | Some participant =>
      let impact := calculateMatchImpact participant (gameDuration m) in
      {| a_impactScores := a_impactScores acc ++ [impact];
         a_lanes := countLane participant (a_lanes acc);
         a_totalKills := a_totalKills acc + kills participant;
         a_totalDeaths := a_totalDeaths acc + deaths participant;
         a_totalAssists := a_totalAssists acc + assists participant;
         a_wins := if win participant then a_wins acc + 1 else a_wins acc;
         a_losses :=
           if win participant then a_losses acc else a_losses acc + 1 |}
  end.

Record t : Type := mk {
  impactScores : list Q;
  avgImpact : Q;
  winrate : Q;
  wins : Q;
  losses : Q;
  lanes : StrMap.t LaneStats.t;
  avgKDA : AvgKDA.t;
  recentTrend : Q
}.

(** The trend of a list of impact scores (most recent first), given the
    window average: the statements from [recent5] to [recentTrend]. *)
Definition trend (impactScores : list Q) (avgImpact : Q) : Q :=
  let recent5 := Js.slice 0 5 impactScores in
  let prev5 := Js.slice 5 10 impactScores in
  let recentAvg := averageOr recent5 0 in
  let prevAvg := averageOr prev5 avgImpact in
  recentAvg - prevAvg.

(** What [recentAnalysis] returns once the loop is over. *)
Definition finish (acc : Acc) : t :=
  let totalGames := a_wins acc + a_losses acc in
  let avgImpact := averageOr (a_impactScores acc) 0 in
  let recentTrend := trend (a_impactScores acc) avgImpact in
  {| impactScores := a_impactScores acc;
     avgImpact := avgImpact;
     winrate :=
       if Js.ltb 0 totalGames
       then Js.round ((a_wins acc / totalGames) * 100) else 0;
     wins := a_wins acc;
     losses := a_losses acc;
     lanes := a_lanes acc;
     avgKDA :=
       {| AvgKDA.kills :=
            if Js.ltb 0 totalGames then a_totalKills acc / totalGames else 0;
          AvgKDA.deaths :=
            if Js.ltb 0 totalGames then a_totalDeaths acc / totalGames else 0;
          AvgKDA.assists :=
            if Js.ltb 0 totalGames then a_totalAssists acc / totalGames
            else 0 |};
     recentTrend := recentTrend |}.

(** [recentAnalysis], as a function of the window [recent] and of
    [account.puuid]. *)
Definition analysis (recent : list MatchData) (target : string) : t :=
  match recent with
  | [] =>
      {| impactScores := []; avgImpact := 0; winrate := 0; wins := 0;
         losses := 0; lanes := StrMap.empty;
         avgKDA := AvgKDA.mk 0 0 0; recentTrend := 0 |}
  | _ :: _ => finish (fold_left (step target) recent init)
  end.

End Recent.

(** [matchesData.slice(0, 20)]. *)
Definition recentMatches (matchesData : list MatchData) : list MatchData :=
  Js.slice 0 20 matchesData.

(** *** The season window *)

Module Season.

Record Acc : Type := mkAcc {
  a_impactScores : list Q;
  a_lanes : StrMap.t LaneStats.t;
  a_champions : StrMap.t ChampionStats.t;
  a_totalKills : Q;
  a_totalDeaths : Q;
  a_totalAssists : Q;
  a_wins : Q;
  a_losses : Q
}.

Definition init : Acc := mkAcc [] StrMap.empty StrMap.empty 0 0 0 0 0.

(** The champion bookkeeping of one match. *)
Definition countChampion (participant : MatchParticipant) (impact : Q)
    (champions : StrMap.t ChampionStats.t) : StrMap.t ChampionStats.t :=
  let champ := championName participant in
  let champions :=
    match StrMap.get champ champions with
    | Some _ => champions
    | None => StrMap.set champ (ChampionStats.mk champ 0 0 0 0 0 0) champions
    end in
  match StrMap.get champ champions with
  | Some c =>
      StrMap.set champ
        {| ChampionStats.name := ChampionStats.name c;
           ChampionStats.games := ChampionStats.games c + 1;
           ChampionStats.wins :=
             if win participant then ChampionStats.wins c + 1
             else ChampionStats.wins c;
           ChampionStats.kills := ChampionStats.kills c + kills participant;
           ChampionStats.deaths :=
             ChampionStats.deaths c + deaths participant;
           ChampionStats.assists :=
             ChampionStats.assists c + assists participant;
           ChampionStats.totalImpact :=
             ChampionStats.totalImpact c + impact |}
        champions
  | None => champions
  end.

(** One iteration of [for (const match of matchesData)]. *)
Definition step (target : string) (acc : Acc) (m : MatchData) : Acc :=
  match findParticipant target m with
  | None => acc
  | Some participant =>
      let impact := calculateMatchImpact participant (gameDuration m) in
      {| a_impactScores := a_impactScores acc ++ [impact];
         a_lanes := countLane participant (a_lanes acc);
         a_champions := countChampion participant impact (a_champions acc);
         a_totalKills := a_totalKills acc + kills participant;
         a_totalDeaths := a_totalDeaths acc + deaths participant;
         a_totalAssists := a_totalAssists acc + assists participant;
         a_wins := if win participant then a_wins acc + 1 else a_wins acc;
         a_losses :=
           if win participant then a_losses acc else a_losses acc + 1 |}
  end.

Record t : Type := mk {
  impactScores : list Q;
  avgImpact : Q;
  winrate : Q;
  wins : Q;
  losses : Q;
  lanes : StrMap.t LaneStats.t;
  champions : StrMap.t ChampionStats.t;
  avgKDA : AvgKDA.t;
  totalGames : Q
}.

Definition finish (acc : Acc) : t :=
  let totalGames := a_wins acc + a_losses acc in
  let avgImpact := averageOr (a_impactScores acc) 0 in
  {| impactScores := a_impactScores acc;
     avgImpact := avgImpact;
     winrate :=
       if Js.ltb 0 totalGames
       then Js.round ((a_wins acc / totalGames) * 100) else 0;
     wins := a_wins acc;
     losses := a_losses acc;
     lanes := a_lanes acc;
     champions := a_champions acc;
     avgKDA :=
       {| AvgKDA.kills :=
            if Js.ltb 0 totalGames then a_totalKills acc / totalGames else 0;
          AvgKDA.deaths :=
            if Js.ltb 0 totalGames then a_totalDeaths acc / totalGames else 0;
          AvgKDA.assists :=
            if Js.ltb 0 totalGames then a_totalAssists acc / totalGames
            else 0 |};
     totalGames := totalGames |}.

(** [seasonAnalysis], as a function of [matchesData] and [account.puuid]. *)
Definition analysis (matchesData : list MatchData) (target : string) : t :=
  match matchesData with
  | [] =>
      {| impactScores := []; avgImpact := 0; winrate := 0; wins := 0;
         losses := 0; lanes := StrMap.empty; champions := StrMap.empty;
         avgKDA := AvgKDA.mk 0 0 0; totalGames := 0 |}
  | _ :: _ => finish (fold_left (step target) matchesData init)
  end.

End Season.

(** *** The combined view *)

(** [analysis]: the season record with the impact list, the average impact
    and the trend of the recent window. *)
Module Analysis.

Record t : Type := mk {
  impactScores : list Q;
  avgImpact : Q;
  winrate : Q;
  wins : Q;
  losses : Q;
  lanes : StrMap.t LaneStats.t;
  champions : StrMap.t ChampionStats.t;
  avgKDA : AvgKDA.t;
  totalGames : Q;
  recentTrend : Q
}.

Definition merge (recentAnalysis : Recent.t) (seasonAnalysis : Season.t)
    : t :=
  {| impactScores := Recent.impactScores recentAnalysis;
     avgImpact := Recent.avgImpact recentAnalysis;
     winrate := Season.winrate seasonAnalysis;
     wins := Season.wins seasonAnalysis;
     losses := Season.losses seasonAnalysis;
     lanes := Season.lanes seasonAnalysis;
     champions := Season.champions seasonAnalysis;
     avgKDA := Season.avgKDA seasonAnalysis;
     totalGames := Season.totalGames seasonAnalysis;
     recentTrend := Recent.recentTrend recentAnalysis |}.

(** The [analysis] of the profile page of [target] over [matchesData]. *)
Definition of_matches (matchesData : list MatchData) (target : string)
    : t :=
  merge (Recent.analysis (recentMatches matchesData) target)
        (Season.analysis matchesData target).

End Analysis.

(** ** FeedbackGenerator: the best champion *)

Record BestChamp : Type := mkBestChamp {
  bc_name : string;
  bc_winrate : Q;
  bc_games : Q
}.

(** The win rate a champion is sorted by: [c.wins / c.games]. *)
Definition champWinRatio (c : ChampionStats.t) : Q :=
  ChampionStats.wins c / ChampionStats.games c.

(** [bestChamp], as a function of [Object.values(analysis.champions)]. *)
Definition bestChampOf (values : list ChampionStats.t) : option BestChamp :=
  let champList := filter (fun c => Js.leb 3 (ChampionStats.games c)) values in
  match champList with
  | [] => None
  | _ :: _ =>
      let sorted :=
        sort (fun a b => (ChampionStats.wins b / ChampionStats.games b)
                         - (ChampionStats.wins a / ChampionStats.games a))
             champList in
      match sorted with
      | best :: _ =>
          Some {| bc_name := ChampionStats.name best;
                  bc_winrate :=
                    Js.round ((ChampionStats.wins best
                               / ChampionStats.games best) * 100);
                  bc_games := ChampionStats.games best |}
      | [] => None
      end
  end.

Definition bestChamp (analysis : Analysis.t) : option BestChamp :=
  bestChampOf (StrMap.values (Analysis.champions analysis)).

(** The guard of the best-champion strength rule:
    [bestChamp && bestChamp.winrate >= 70 && bestChamp.games >= 5]. *)
Definition bestChampRule (bestChamp : option BestChamp) : bool :=
  match bestChamp with
  | Some b => Js.leb 70 (bc_winrate b) && Js.leb 5 (bc_games b)
  | None => false
  end.

(** ** Stability *)

(** The four labels [getStability] returns: ['Mało danych'] (too little
    data), ['Wysoka'] (high), ['Średnia'] (medium), ['Niska'] (low). *)
Inductive Stability : Type :=
| MaloDanych
| Wysoka
| Srednia
| Niska.

(** [impactScores.reduce((sum, score) => sum + Math.pow(score - avgImpact,
    2), 0) / impactScores.length]. *)
Definition varianceOf (impactScores : list Q) (avgImpact : Q) : Q :=
  fold_left (fun sum score => sum + (score - avgImpact) ^ 2) impactScores 0
  / Js.len impactScores.

(** [getStability()], over the real numbers because of [Math.sqrt]. *)
Definition getStability (analysis : Analysis.t) : Stability :=
  if (List.length (Analysis.impactScores analysis) <? 5)%nat
  then MaloDanych else
  let variance :=
    varianceOf (Analysis.impactScores analysis)
               (Analysis.avgImpact analysis) in
  let stdDev := sqrt (Q2R variance) in
  if Rlt_dec stdDev 1 then Wysoka
  else if Rlt_dec stdDev 2 then Srednia
  else Niska.

(** The same decision without the square root, on the variance: it runs. *)
Definition getStability_exec (analysis : Analysis.t) : Stability :=
  if (List.length (Analysis.impactScores analysis) <? 5)%nat
  then MaloDanych else
  let variance :=
    varianceOf (Analysis.impactScores analysis)
               (Analysis.avgImpact analysis) in
  if Js.ltb variance 1 then Wysoka
  else if Js.ltb variance 4 then Srednia
  else Niska.

(** ** The rest of the profile page *)

(** [pluralGry(n)]: the Polish plural of "gra" for a whole number of
    games.  [%] is the remainder that takes the sign of the dividend. *)
Definition pluralGry (n : Z) : string :=
  if Z.eqb n 1 then "gra" else
  let lastDigit := Z.rem n 10 in
  let lastTwoDigits := Z.rem n 100 in
  if Z.leb 11 lastTwoDigits && Z.leb lastTwoDigits 14 then "gier"
  else if Z.leb 2 lastDigit && Z.leb lastDigit 4 then "gry"
  else "gier".

Module LeagueEntry.
Record t : Type := mk {
  queueType : string;
  tier : string;
  rank : string;
  leaguePoints : Q;
  wins : Q;
  losses : Q
}.
End LeagueEntry.

Module RankDisplay.
Record t : Type := mk {
  tier : string;
  rank : string;
  lp : Q;
  wins : Q;
  losses : Q;
  winrate : Q
}.
End RankDisplay.

(** [leagues.find(l => l.queueType === 'RANKED_SOLO_5x5')]. *)
Definition soloRank (leagues : list LeagueEntry.t) : option LeagueEntry.t :=
  find (fun l => String.eqb (LeagueEntry.queueType l) "RANKED_SOLO_5x5")
       leagues.

(** [getRankDisplay(entry)]. *)
Definition getRankDisplay (entry : option LeagueEntry.t) : RankDisplay.t :=
  match entry with
  | None => RankDisplay.mk "Unranked" "" 0 0 0 0
  | Some entry =>
      let total := LeagueEntry.wins entry + LeagueEntry.losses entry in
      let winrate :=
        if Js.ltb 0 total
        then Js.round ((LeagueEntry.wins entry / total) * 100) else 0 in
      {| RankDisplay.tier := LeagueEntry.tier entry;
         RankDisplay.rank := LeagueEntry.rank entry;
         RankDisplay.lp := LeagueEntry.leaguePoints entry;
         RankDisplay.wins := LeagueEntry.wins entry;
         RankDisplay.losses := LeagueEntry.losses entry;
         RankDisplay.winrate := winrate |}
  end.

(** *** Lanes *)

Definition allLanes : list string := ["Top"; "Jng"; "Mid"; "Adc"; "Sup"].

(** [laneIconUrls[name]] for the five names of [allLanes]. *)
Definition laneIconUrls (name : string) : string :=
  "https://raw.communitydragon.org/latest/plugins/rcp-fe-lol-clash/global/default/assets/images/position-selector/positions/icon-position-"
  ++ (if String.eqb name "Top" then "top"
      else if String.eqb name "Jng" then "jungle"
      else if String.eqb name "Mid" then "middle"
      else if String.eqb name "Adc" then "bottom"
      else "utility")
  ++ ".png".

Module LaneRow.
Record t : Type := mk {
  name : string;
  iconUrl : string;
  winrate : Q;
  games : Q
}.
End LaneRow.

(** [lanesData]: one row per lane of [allLanes], with zeros for a lane
    that was not played. *)
Definition lanesData (analysis : Analysis.t) : list LaneRow.t :=
  map (fun name =>
         let stats :=
           match StrMap.get name (Analysis.lanes analysis) with
           | Some stats => stats
           | None => LaneStats.mk 0 0
           end in
         {| LaneRow.name := name;
            LaneRow.iconUrl := laneIconUrls name;
            LaneRow.winrate :=
              if Js.ltb 0 (LaneStats.games stats)
              then Js.round ((LaneStats.wins stats / LaneStats.games stats)
                             * 100)
              else 0;
            LaneRow.games := LaneStats.games stats |})
      allLanes.

(** The comparator of [bestLane]: by win rate, largest first, then by
    games, largest first. *)
Definition byWinrateThenGames (a b : LaneRow.t) : Q :=
  if negb (Qeq_bool (LaneRow.winrate b) (LaneRow.winrate a))
  then LaneRow.winrate b - LaneRow.winrate a
  else LaneRow.games b - LaneRow.games a.

(** [bestLane]: the name of the best lane with at least 5 games, or the
    empty string. *)
Definition bestLane (lanesData : list LaneRow.t) : string :=
  let validLanes :=
    filter (fun lane => Js.leb 5 (LaneRow.games lane)) lanesData in
  match validLanes with
  | [] => ""
  | _ :: _ =>
      let sorted := sort byWinrateThenGames validLanes in
      match sorted with
      | first :: _ => LaneRow.name first
      | [] => ""
      end
  end.

(** *** Champions *)

(** [mostPlayedChamp]: [champList.reduce((best, current) => current.games >
    best.games ? current : best, champList[0])], or [null] for an empty
    table. *)
Definition mostPlayedChamp (analysis : Analysis.t)
    : option ChampionStats.t :=
  let champList := StrMap.values (Analysis.champions analysis) in
  match champList with
  | [] => None
  | first :: _ =>
      Some (fold_left
              (fun best current =>
                 if Js.ltb (ChampionStats.games best)
                           (ChampionStats.games current)
                 then current else best)
              champList first)
  end.

(** *** The match list and its filter *)

Inductive MatchFilter : Type :=
| FilterAll
| FilterWins
| FilterLosses.

(** The test of [recentMatches.filter(match => ...)]. *)
Definition passesFilter (matchFilter : MatchFilter) (target : string)
    (m : MatchData) : bool :=
  match matchFilter with
  | FilterAll => true
  | _ =>
      match findParticipant target m with
      | None => false
      | Some p =>
          match matchFilter with
          | FilterWins => win p
          | _ => negb (win p)
          end
      end
  end.

(** The cards of the match list: the matches that pass the filter, without
    those for which [.map] returns [null] because the target player has no
    snapshot.  Each card is listed with the snapshot it shows. *)
Definition matchCards (matchFilter : MatchFilter) (target : string)
    (recent : list MatchData) : list (MatchData * MatchParticipant) :=
  flat_map
    (fun m =>
       match findParticipant target m with
       | None => []
       | Some p => [(m, p)]
       end)
    (filter (passesFilter matchFilter target) recent).

(** *** The impact histogram and gauge *)

(** [analysis.impactScores.slice(0, 20).reverse()]. *)
Definition histogramData (analysis : Analysis.t) : list Q :=
  rev (Js.slice 0 20 (Analysis.impactScores analysis)).

Definition histogramBars (analysis : Analysis.t) : list Q :=
  if (0 <? List.length (histogramData analysis))%nat
  then histogramData analysis else [0; 0; 0; 0; 0].

(** [Math.max(10, ...histogramBars)]. *)
Definition histogramMax (analysis : Analysis.t) : Q :=
  fold_left Js.max (histogramBars analysis) 10.

Definition impactSegmentCount : nat := 15.

Definition impactFill (analysis : Analysis.t) : Q :=
  Js.round ((Js.min (Analysis.avgImpact analysis) 10 / 10)
            * inject_Z (Z.of_nat impactSegmentCount)).

(** [Array.from({ length: impactSegmentCount }, (_, i) => i < impactFill)]. *)
Definition impactSegments (analysis : Analysis.t) : list bool :=
  map (fun i => Js.ltb (inject_Z (Z.of_nat i)) (impactFill analysis))
      (seq 0 impactSegmentCount).

(** ** FeedbackGenerator: the rule table *)

(** The messages of the rule table, one per [push] statement, in the order
    of the source (strengths, then improvements), and the two fallback
    messages.  The text and the icon of an item are constants of the
    statement that pushes it, up to the numbers it interpolates from
    [analysis]: an item is identified by its statement. *)
Inductive Message : Type :=
| ImpactDominant | ImpactHigh | ImpactSolid
| WinratePhenomenal | WinrateGood | WinratePositive
| KdaOutstanding | KdaGreat | KdaGood
| DeathsFew | DeathsControlled
| TrendStrongUp | TrendUp
| FightsVeryActive | FightsGood
| AssistsHigh
| KillsHigh
| VeryConsistent | StableForm
| PocketPick
| PlayMore
| ImpactLow | ImpactBelowAverage | ImpactAverage
| WinrateVeryLow | WinrateLow | WinrateNearHalf
| DeathsVeryHigh | DeathsHigh | DeathsToOptimize
| KdaVeryLow | KdaLow
| TrendDown | TrendSlightlyDown
| FormSwings | FormUnstable
| LowActivity
| KeepGoing.

Record FeedbackItem : Type := mkItem {
  text : Message;
  priority : Q
}.

(** [avgKDA] and [killParticipation] of the feedback section. *)
Definition avgKDARatio (analysis : Analysis.t) : Q :=
  let k := Analysis.avgKDA analysis in
  if Js.ltb 0 (AvgKDA.deaths k)
  then (AvgKDA.kills k + AvgKDA.assists k) / AvgKDA.deaths k
  else AvgKDA.kills k + AvgKDA.assists k.

Definition killParticipation (analysis : Analysis.t) : Q :=
  AvgKDA.kills (Analysis.avgKDA analysis)
  + AvgKDA.assists (Analysis.avgKDA analysis).

(** [variance] of the feedback section: 0 below five samples. *)
Definition feedbackVariance (analysis : Analysis.t) : Q :=
  if (5 <=? List.length (Analysis.impactScores analysis))%nat
  then varianceOf (Analysis.impactScores analysis)
                  (Analysis.avgImpact analysis)
  else 0.

(** [Math.sqrt(v) < t] and [Math.sqrt(v) > t] for a bound [t] that is not
    negative, decided on the squares so that the rule table runs. *)
Definition sqrt_lt (v t : Q) : bool := Js.ltb v (t * t).
Definition sqrt_gt (v t : Q) : bool := Js.ltb (t * t) v.

(** [analysis.impactScores.length >= 5]. *)
Definition enoughSamples (analysis : Analysis.t) : bool :=
  (5 <=? List.length (Analysis.impactScores analysis))%nat.

(** The strengths, one definition per [if] chain of the source. *)
Definition strengthsImpact (analysis : Analysis.t) : list FeedbackItem :=
  if Js.leb 8 (Analysis.avgImpact analysis) then [mkItem ImpactDominant 10]
  else if Js.leb 7 (Analysis.avgImpact analysis) then [mkItem ImpactHigh 8]
  else if Js.leb 6 (Analysis.avgImpact analysis) then [mkItem ImpactSolid 5]
  else [].

Definition strengthsWinrate (analysis : Analysis.t) : list FeedbackItem :=
  if Js.leb 65 (Analysis.winrate analysis)
  then [mkItem WinratePhenomenal 10]
  else if Js.leb 55 (Analysis.winrate analysis) then [mkItem WinrateGood 7]
  else if Js.leb 52 (Analysis.winrate analysis)
  then [mkItem WinratePositive 4]
  else [].

Definition strengthsKda (analysis : Analysis.t) : list FeedbackItem :=
  if Js.leb 5 (avgKDARatio analysis) then [mkItem KdaOutstanding 9]
  else if Js.leb 4 (avgKDARatio analysis) then [mkItem KdaGreat 7]
  else if Js.leb 3 (avgKDARatio analysis) then [mkItem KdaGood 5]
  else [].

Definition strengthsDeaths (analysis : Analysis.t) : list FeedbackItem :=
  if Js.ltb (AvgKDA.deaths (Analysis.avgKDA analysis)) 3
  then [mkItem DeathsFew 8]
  else if Js.ltb (AvgKDA.deaths (Analysis.avgKDA analysis)) 4.5
  then [mkItem DeathsControlled 4]
  else [].

Definition strengthsTrend (analysis : Analysis.t) : list FeedbackItem :=
  if Js.ltb 0.5 (Analysis.recentTrend analysis)
  then [mkItem TrendStrongUp 8]
  else if Js.ltb 0.2 (Analysis.recentTrend analysis)
  then [mkItem TrendUp 5]
  else [].

Definition strengthsFights (analysis : Analysis.t) : list FeedbackItem :=
  if Js.leb 15 (killParticipation analysis)
  then [mkItem FightsVeryActive 6]
  else if Js.leb 12 (killParticipation analysis)
  then [mkItem FightsGood 4]
  else [].

Definition strengthsAssists (analysis : Analysis.t) : list FeedbackItem :=
  if Js.leb 8 (AvgKDA.assists (Analysis.avgKDA analysis))
  then [mkItem AssistsHigh 6] else [].

Definition strengthsKills (analysis : Analysis.t) : list FeedbackItem :=
  if Js.leb 8 (AvgKDA.kills (Analysis.avgKDA analysis))
  then [mkItem KillsHigh 6] else [].

Definition strengthsStability (analysis : Analysis.t) : list FeedbackItem :=
  if sqrt_lt (feedbackVariance analysis) 1 && enoughSamples analysis
  then [mkItem VeryConsistent 7]
  else if sqrt_lt (feedbackVariance analysis) 1.5 && enoughSamples analysis
  then [mkItem StableForm 4]
  else [].

Definition strengthsBestChamp (analysis : Analysis.t) : list FeedbackItem :=
  if bestChampRule (bestChamp analysis) then [mkItem PocketPick 6] else [].

(** [allStrengths] once every rule has run. *)
Definition allStrengths (analysis : Analysis.t) : list FeedbackItem :=
  strengthsImpact analysis ++ strengthsWinrate analysis
  ++ strengthsKda analysis ++ strengthsDeaths analysis
  ++ strengthsTrend analysis ++ strengthsFights analysis
  ++ strengthsAssists analysis ++ strengthsKills analysis
  ++ strengthsStability analysis ++ strengthsBestChamp analysis.

(** The improvements. *)
Definition improvementsImpact (analysis : Analysis.t) : list FeedbackItem :=
  if Js.ltb (Analysis.avgImpact analysis) 4 then [mkItem ImpactLow 10]
  else if Js.ltb (Analysis.avgImpact analysis) 5
  then [mkItem ImpactBelowAverage 7]
  else if Js.ltb (Analysis.avgImpact analysis) 5.5
  then [mkItem ImpactAverage 4]
  else [].

Definition improvementsWinrate (analysis : Analysis.t) : list FeedbackItem :=
  if Js.ltb (Analysis.winrate analysis) 40 then [mkItem WinrateVeryLow 10]
  else if Js.ltb (Analysis.winrate analysis) 48 then [mkItem WinrateLow 7]
  else if Js.ltb (Analysis.winrate analysis) 50
  then [mkItem WinrateNearHalf 4]
  else [].

Definition improvementsDeaths (analysis : Analysis.t) : list FeedbackItem :=
  if Js.ltb 7 (AvgKDA.deaths (Analysis.avgKDA analysis))
  then [mkItem DeathsVeryHigh 9]
  else if Js.ltb 5.5 (AvgKDA.deaths (Analysis.avgKDA analysis))
  then [mkItem DeathsHigh 6]
  else if Js.ltb 4.5 (AvgKDA.deaths (Analysis.avgKDA analysis))
  then [mkItem DeathsToOptimize 3]
  else [].

Definition improvementsKda (analysis : Analysis.t) : list FeedbackItem :=
  if Js.ltb (avgKDARatio analysis) 1.5 then [mkItem KdaVeryLow 8]
  else if Js.ltb (avgKDARatio analysis) 2 then [mkItem KdaLow 5]
  else [].

Definition improvementsTrend (analysis : Analysis.t) : list FeedbackItem :=
  if Js.ltb (Analysis.recentTrend analysis) (-0.5) then [mkItem TrendDown 8]
  else if Js.ltb (Analysis.recentTrend analysis) (-0.2)
  then [mkItem TrendSlightlyDown 5]
  else [].

Definition improvementsStability (analysis : Analysis.t)
    : list FeedbackItem :=
  if sqrt_gt (feedbackVariance analysis) 2.5 && enoughSamples analysis
  then [mkItem FormSwings 6]
  else if sqrt_gt (feedbackVariance analysis) 2 && enoughSamples analysis
  then [mkItem FormUnstable 4]
  else [].

Definition improvementsActivity (analysis : Analysis.t)
    : list FeedbackItem :=
  if Js.ltb (AvgKDA.kills (Analysis.avgKDA analysis)) 3
     && Js.ltb (AvgKDA.assists (Analysis.avgKDA analysis)) 6
  then [mkItem LowActivity 5] else [].

(** [allImprovements] once every rule has run. *)
Definition allImprovements (analysis : Analysis.t) : list FeedbackItem :=
  improvementsImpact analysis ++ improvementsWinrate analysis
  ++ improvementsDeaths analysis ++ improvementsKda analysis
  ++ improvementsTrend analysis ++ improvementsStability analysis
  ++ improvementsActivity analysis.

(** [pool.sort((a, b) => b.priority - a.priority).slice(0, 2)], and the
    fallback item when nothing is left. *)
Definition topTwo (pool : list FeedbackItem) (fallback : FeedbackItem)
    : list FeedbackItem :=
  let best := Js.slice 0 2 (sort (fun a b => priority b - priority a) pool) in
  match best with
  | [] => [fallback]
  | _ :: _ => best
  end.

Definition strengths (analysis : Analysis.t) : list FeedbackItem :=
  topTwo (allStrengths analysis) (mkItem PlayMore 0).

Definition improvements (analysis : Analysis.t) : list FeedbackItem :=
  topTwo (allImprovements analysis) (mkItem KeepGoing 0).

(** ** The champion carousel *)

(** [champMode]: ['winrate'], ['games'] or ['mastery']. *)
Inductive ChampMode : Type := ByWinrate | ByGames | ByMastery.

Module ChampionMastery.
Record t : Type := mk {
  championId : Z;
  championLevel : Q;
  championPoints : Q
}.
End ChampionMastery.

(** A card of the carousel.  Its field [kda], the text [toFixed] makes of
    [kdaValue], is not represented. *)
Module ChampionCard.
Record t : Type := mk {
  name : string;
  img : string;
  games : Q;
  winrate : Q;
  masteryPoints : Q;
  masteryLevel : Q;
  kdaValue : Q;
  isPerfect : bool
}.
End ChampionCard.

(** [championIdMap]: a [Record<number, string>]. *)
Definition IdMap : Type := list (Z * string).

Fixpoint idLookup (k : Z) (m : IdMap) : option string :=
  match m with
  | [] => None
  | (k', v) :: m' => if Z.eqb k k' then Some v else idLookup k m'
  end.

(** [championIdMap[id] || 'Unknown']: the empty name is falsy too. *)
Definition championNameOf (championIdMap : IdMap) (id : Z) : string :=
  match idLookup id championIdMap with
  | Some champName =>
      if String.eqb champName "" then "Unknown" else champName
  | None => "Unknown"
  end.

(** [kdaValue] of a champion with statistics. *)
Definition champKda (c : ChampionStats.t) : Q :=
  if Js.is_zero (ChampionStats.deaths c)
  then ChampionStats.kills c + ChampionStats.assists c
  else (ChampionStats.kills c + ChampionStats.assists c)
       / ChampionStats.deaths c.

(** The card of a mastery entry. *)
Definition masteryCard (analysis : Analysis.t) (championIdMap : IdMap)
    (m : ChampionMastery.t) : ChampionCard.t :=
  let champName := championNameOf championIdMap (ChampionMastery.championId m) in
  let champStats := StrMap.get champName (Analysis.champions analysis) in
  match champStats with
  | Some c =>
      {| ChampionCard.name := champName;
         ChampionCard.img := champName;
         ChampionCard.games := Js.or (ChampionStats.games c) 0;
         ChampionCard.winrate :=
           Js.round ((ChampionStats.wins c / ChampionStats.games c) * 100);
         ChampionCard.masteryPoints := ChampionMastery.championPoints m;
         ChampionCard.masteryLevel := ChampionMastery.championLevel m;
         ChampionCard.kdaValue := champKda c;
         ChampionCard.isPerfect := Js.is_zero (ChampionStats.deaths c) |}
  | None =>
      {| ChampionCard.name := champName;
         ChampionCard.img := champName;
         ChampionCard.games := 0;
         ChampionCard.winrate := 0;
         ChampionCard.masteryPoints := ChampionMastery.championPoints m;
         ChampionCard.masteryLevel := ChampionMastery.championLevel m;
         ChampionCard.kdaValue := 0;
         ChampionCard.isPerfect := false |}
  end.

(** The card of a champion of the season. *)
Definition seasonCard (c : ChampionStats.t) : ChampionCard.t :=
  {| ChampionCard.name := ChampionStats.name c;
     ChampionCard.img := ChampionStats.name c;
     ChampionCard.games := ChampionStats.games c;
     ChampionCard.winrate :=
       Js.round ((ChampionStats.wins c / ChampionStats.games c) * 100);
     ChampionCard.masteryPoints := 0;
     ChampionCard.masteryLevel := 0;
     ChampionCard.kdaValue := champKda c;
     ChampionCard.isPerfect := Js.is_zero (ChampionStats.deaths c) |}.

(** [topChampions]: up to ten cards, by mastery, by win rate or by
    games. *)
Definition topChampions (champMode : ChampMode) (analysis : Analysis.t)
    (masteries : list ChampionMastery.t) (championIdMap : IdMap)
    : list ChampionCard.t :=
  match champMode with
  | ByMastery =>
      match championIdMap, masteries with
      | [], _ => []
      | _ :: _, [] => []
      | _ :: _, _ :: _ =>
          let mapped :=
            map (masteryCard analysis championIdMap)
                (Js.slice 0 10 masteries) in
          filter (fun c => negb (String.eqb (ChampionCard.name c) "Unknown"))
                 mapped
      end
  | ByWinrate | ByGames =>
      let champList :=
        filter (fun c => Js.leb 1 (ChampionStats.games c))
               (StrMap.values (Analysis.champions analysis)) in
      let sorted :=
        match champMode with
        | ByWinrate =>
            sort (fun a b =>
                    (ChampionStats.wins b / ChampionStats.games b)
                    - (ChampionStats.wins a / ChampionStats.games a))
                 (filter (fun c => Js.leb 2 (ChampionStats.games c))
                         champList)
        | _ =>
            sort (fun a b => ChampionStats.games b - ChampionStats.games a)
                 champList
        end in
      map seasonCard (Js.slice 0 10 sorted)
  end.

(** [visibleChampions] and [maxCarouselIndex]. *)
Definition visibleChampions : Q := 4.

Definition maxCarouselIndex (topChampions : list ChampionCard.t) : Q :=
  Js.max 0 (Js.len topChampions - visibleChampions).

(** ** The rank badge and the team rows of a match card *)

(** [rankings.get(p.puuid)] on the card of [match] with the snapshot [p]
    of the target player, [teams] being [match.info.teams]. *)
Definition myRank (teams : option (list TeamObjectives)) (m : MatchData)
    (p : MatchParticipant) : option PlayerScore :=
  StrMap.get (puuid p)
    (rankPlayersInMatch (participants m) (gameDuration m) teams).

(** [myRank?.rank || 10]: the number in the class of the badge. *)
Definition rankClass (myRank : option PlayerScore) : nat :=
  match myRank with
  | Some v => if Nat.eqb (rank v) 0 then 10%nat else rank v
  | None => 10%nat
  end.

(** [myRank?.rank === 1]: the badge reads MVP. *)
Definition isMvp (myRank : option PlayerScore) : bool :=
  match myRank with
  | Some v => Nat.eqb (rank v) 1
  | None => false
  end.

(** [myTeam] and [enemyTeam]. *)
Definition myTeam (m : MatchData) (p : MatchParticipant)
    : list MatchParticipant :=
  filter (fun pp => Z.eqb (teamId pp) (teamId p)) (participants m).

Definition enemyTeam (m : MatchData) (p : MatchParticipant)
    : list MatchParticipant :=
  filter (fun pp => negb (Z.eqb (teamId pp) (teamId p))) (participants m).

(** ** Double-precision numbers *)

(** A JavaScript number: an IEEE 754 binary64 value, with the operations
    rounding to nearest, ties to even, as the Standard Library specifies
    them at precision 53 and maximal exponent 1024. *)
Module F64.

Definition t : Type := spec_float.

Definition prec : Z := 53.
Definition emax : Z := 1024.

(** The double of a whole number (exact below 2^53). *)
Definition of_Z (n : Z) : t := binary_normalize prec emax n 0 false.
Definition of_nat (n : nat) : t := of_Z (Z.of_nat n).

Definition add (x y : t) : t := SFadd prec emax x y.
Definition sub (x y : t) : t := SFsub prec emax x y.
Definition mul (x y : t) : t := SFmul prec emax x y.
Definition div (x y : t) : t := SFdiv prec emax x y.
Definition sqrt (x : t) : t := SFsqrt prec emax x.

(** [x < y]: false when either side is NaN. *)
Definition ltb (x y : t) : bool := SFltb x y.

(** The number a double stands for, when it is finite. *)
Definition is_finite (x : t) : bool :=
  match x with
  | S754_zero _ | S754_finite _ _ _ => true
  | S754_infinity _ | S754_nan => false
  end.

Definition to_Q (x : t) : Q :=
  match x with
  | S754_finite s m e =>
      (if s then -1 else 1) * inject_Z (Z.pos m) * Qpower 2 e
  | _ => 0
  end.

End F64.

(** ** Stability, in double precision *)

Module Double.

(** The two fields of [analysis] that [getStability] reads. *)
Record t : Type := mk {
  impactScores : list F64.t;
  avgImpact : F64.t
}.

(** [avgImpact] as the recent window computes it:
    [impactScores.length > 0
       ? impactScores.reduce((a, b) => a + b, 0) / impactScores.length : 0]. *)
Definition averageOf (impactScores : list F64.t) : F64.t :=
  if (0 <? List.length impactScores)%nat
  then F64.div (fold_left (fun a b => F64.add a b) impactScores (F64.of_Z 0))
               (F64.of_nat (List.length impactScores))
  else F64.of_Z 0.

(** The [analysis] of a window with these impact scores. *)
Definition analysis (impactScores : list F64.t) : t :=
  {| impactScores := impactScores; avgImpact := averageOf impactScores |}.

(** [Math.pow(x, 2)]: the square, rounded once. *)
Definition pow2 (x : F64.t) : F64.t := F64.mul x x.

(** [getStability()]. *)
Definition getStability (analysis : t) : Stability :=
  if (List.length (impactScores analysis) <? 5)%nat then MaloDanych else
  let variance :=
    F64.div
      (fold_left
         (fun sum score =>
            F64.add sum (pow2 (F64.sub score (avgImpact analysis))))
         (impactScores analysis) (F64.of_Z 0))
      (F64.of_nat (List.length (impactScores analysis))) in
  let stdDev := F64.sqrt variance in
  if F64.ltb stdDev (F64.of_Z 1) then Wysoka
  else if F64.ltb stdDev (F64.of_Z 2) then Srednia
  else Niska.

End Double.

(** ** The design document's formulas

    Formulas written from the words of the design document, to be
    compared with the embedded code. *)

Module Spec.

(** [clamp(x, lo, hi)]. *)
Definition clamp (x lo hi : Q) : Q := Qmin (Qmax x lo) hi.

(** A term pre-clamped to its cap. *)
Definition capped (x cap : Q) : Q := Qmin x cap.

Definition total (terms : list Q) : Q := fold_right Qplus 0 terms.

(** Section 4.1: the table of terms, the death penalty and the final
    clamp; 0 when the duration is not positive. *)
Definition impactTerms (p : MatchParticipant) (minutes : Q) : list Q :=
  [ capped ((if Qeq_bool (deaths p) 0
             then kills p + assists p
             else (kills p + assists p) / deaths p) / 3) 2.5;
    capped ((totalMinionsKilled p + neutralMinionsKilled p) / minutes / 7)
           1.5;
    capped (visionScore p / minutes / 1.5) 1;
    capped (totalDamageDealtToChampions p / minutes / 800) 1.5;
    capped (goldEarned p / minutes / 450) 1;
    capped (turretKills p * 0.3 + inhibitorKills p * 0.5
            + dragonKills p * 0.6 + baronKills p * 1.0) 1.5;
    capped (damageDealtToObjectives p / minutes / 600) 1;
    (if win p then 1 else 0) ].

Definition impactScore (p : MatchParticipant) (gameDurationSeconds : Q) : Q :=
  if Qle_bool gameDurationSeconds 0 then 0 else
  let minutes := gameDurationSeconds / 60 in
  let penalty := Qmin ((deaths p / minutes) * 0.8) 2 in
  clamp (total (impactTerms p minutes) - penalty) 0 10.

(** Section 4.2: the nine categories of a breakdown, the role-specific
    maximum (each category's cap times the role's weight, summed), and
    the weighted sum divided by it, scaled to 100 and clamped. *)
Definition categories : list Category :=
  [ Combat; Damage; Objectives; Economy; Vision; Utility; Clutch; Impact;
    WinContribution ].

Definition cap (k : Category) : Q :=
  match k with
  | Combat => 25 | Damage => 18 | Objectives => 20 | Economy => 10
  | Vision => 8 | Utility => 12 | Clutch => 12 | Impact => 10
  | WinContribution => 10
  end.

Definition category (b : Breakdown) (k : Category) : Q :=
  match k with
  | Combat => combat b | Damage => damage b | Objectives => objectives b
  | Economy => economy b | Vision => vision b | Utility => utility b
  | Clutch => clutch b | Impact => impact b
  | WinContribution => winContribution b
  end.

(** The role weights, "documented per role": one multiplier per role and
    category, for the five roles of the data model; any other label
    takes the default of 1 throughout.  The table is written by
    category, each line giving the multipliers of TOP, JUNGLE, MIDDLE,
    BOTTOM and UTILITY in this order. *)
Inductive Role : Type := Top | Jungle | Middle | Bottom | Support | Unknown.

Definition roleOf (label : string) : Role :=
  if String.eqb label "TOP" then Top
  else if String.eqb label "JUNGLE" then Jungle
  else if String.eqb label "MIDDLE" then Middle
  else if String.eqb label "BOTTOM" then Bottom
  else if String.eqb label "UTILITY" then Support
  else Unknown.

Definition perRole (top jungle middle bottom support : Q) (r : Role) : Q :=
  match r with
  | Top => top | Jungle => jungle | Middle => middle | Bottom => bottom
  | Support => support | Unknown => 1.00
  end.

Definition roleWeight (r : Role) (k : Category) : Q :=
  match k with
  | Combat          => perRole 1.15 1.00 1.10 1.00 0.95 r
  | Damage          => perRole 1.00 0.90 1.15 1.10 0.80 r
  | Objectives      => perRole 1.10 1.20 0.95 0.95 0.90 r
  | Economy         => perRole 1.00 0.85 1.00 1.05 0.85 r
  | Vision          => perRole 0.85 1.10 0.85 0.85 1.15 r
  | Utility         => perRole 1.15 0.95 0.85 0.85 1.15 r
  | Clutch          => perRole 0.95 1.15 1.10 0.95 1.05 r
  | Impact          => perRole 1.00 1.00 1.00 1.00 1.00 r
  | WinContribution => perRole 1.00 1.00 1.00 1.00 1.00 r
  end.

Definition roleMaximum (w : Weights) : Q :=
  total (map (fun k => cap k * w k) categories).

Definition weightedSum (b : Breakdown) (w : Weights) : Q :=
  total (map (fun k => category b k * w k) categories).

Definition normalized (b : Breakdown) (role : string) : Q :=
  let w := roleWeight (roleOf role) in
  clamp (weightedSum b w / roleMaximum w * 100) 0 100.

(** Section 4.3: the average of a list of impact scores (0 for the
    empty list), and the trend as worded: the average of the first five
    minus the average of the next five, the window average taking the
    place of the latter when the second slice has fewer than five
    entries. *)
Definition average (l : list Q) : Q :=
  match l with
  | [] => 0
  | _ :: _ => total l / inject_Z (Z.of_nat (List.length l))
  end.

Definition trend (impacts : list Q) : Q :=
  let first5 := firstn 5 impacts in
  let next5 := firstn 5 (skipn 5 impacts) in
  let baseline :=
    if (List.length next5 <? 5)%nat then average impacts
    else average next5 in
  average first5 - baseline.

(** The trend with the fallback the code has: the window average is the
    baseline only when the second slice is empty. *)
Definition trendEmptyFallback (impacts : list Q) : Q :=
  let first5 := firstn 5 impacts in
  let next5 := firstn 5 (skipn 5 impacts) in
  let baseline :=
    match next5 with
    | [] => average impacts
    | _ :: _ => average next5
    end in
  average first5 - baseline.

(** Section 4.4: the best champion as worded: among the champions with
    at least five games, one with the highest win rate (the first of
    them in table order). *)
Fixpoint highestWinRate (best : ChampionStats.t)
    (l : list ChampionStats.t) : ChampionStats.t :=
  match l with
  | [] => best
  | c :: l' =>
      if Qle_bool (champWinRatio c) (champWinRatio best)
      then highestWinRate best l'
      else highestWinRate c l'
  end.

Definition bestChampion (values : list ChampionStats.t)
    : option ChampionStats.t :=
  match filter (fun c => Qle_bool 5 (ChampionStats.games c)) values with
  | [] => None
  | c :: l => Some (highestWinRate c l)
  end.

(** Section 4.3: the population standard deviation of a list of impact
    scores, over the real numbers. *)
Definition totalR (l : list R) : R := fold_right Rplus 0%R l.

Definition meanR (l : list Q) : R :=
  (totalR (map Q2R l) / INR (List.length l))%R.

Definition popStdDev (l : list Q) : R :=
  sqrt (totalR (map (fun x => (Q2R x - meanR l) ^ 2)%R l)
        / INR (List.length l))%R.

(** The same deviation as a program computes it in double precision:
    every sum runs through the list in order from 0, and every operation
    rounds to the nearest double. *)
Definition sum64 (l : list F64.t) : F64.t :=
  fold_left F64.add l (F64.of_Z 0).

Definition mean64 (l : list F64.t) : F64.t :=
  match l with
  | [] => F64.of_Z 0
  | _ :: _ => F64.div (sum64 l) (F64.of_nat (List.length l))
  end.

Definition popStdDev64 (l : list F64.t) : F64.t :=
  let squares :=
    map (fun x => F64.mul (F64.sub x (mean64 l)) (F64.sub x (mean64 l))) l in
  F64.sqrt (F64.div (sum64 squares) (F64.of_nat (List.length l))).

End Spec.

(** ** Closed forms used by the proofs *)

(** The entries [assignRanks] appends when no player id repeats. *)
Fixpoint rankedFrom (i : nat) (scored : list Scored)
    : StrMap.t PlayerScore :=
  match scored with
  | [] => []
  | s :: rest =>
      (s_puuid s,
       {| rank := (i + 1)%nat; score := s_score s;
          breakdown := s_breakdown s |})
      :: rankedFrom (S i) rest
  end.

(** The array the ranker sorts. *)
Definition scoredOf (ps : list MatchParticipant) (d : Q) : list Scored :=
  map (scoreParticipant (matchTotals ps) d) ps.

Definition sortedOf (ps : list MatchParticipant) (d : Q) : list Scored :=
  sort (fun a b => s_score b - s_score a) (scoredOf ps d).

(** The weighted sum the closure forms, on the breakdown it returns. *)
Definition rawWeightedOf (b : Breakdown) (w : Weights) : Q :=
  combat b * w Combat + damage b * w Damage + objectives b * w Objectives
  + economy b * w Economy + vision b * w Vision + utility b * w Utility
  + clutch b * w Clutch + impact b * w Impact
  + winContribution b * w WinContribution.

(** One more member with counter [c] on a team whose table entry is [x]. *)
Definition teamAdd (c : Q) (x : option Q) : option Q :=
  Some (Js.or_undef x 0 + c).

(** The number of participants on team [t]. *)
Definition teamSize (participants : list MatchParticipant) (t : Z) : nat :=
  List.length (filter (fun p => Z.eqb (teamId p) t) participants).

(** The numeric counters of a participant. *)
Definition counters (p : MatchParticipant) : list Q :=
  [ champLevel p; kills p; deaths p; assists p; totalMinionsKilled p;
    neutralMinionsKilled p; visionScore p; visionWardsBoughtInGame p;
    wardsPlaced p; wardsKilled p; goldEarned p;
    totalDamageDealtToChampions p; totalDamageTaken p; doubleKills p;
    tripleKills p; quadraKills p; pentaKills p; turretKills p;
    inhibitorKills p; dragonKills p; baronKills p; objectivesStolen p;
    objectivesStolenAssists p; damageDealtToObjectives p;
    damageDealtToTurrets p; damageDealtToBuildings p; timeCCingOthers p;
    totalHealsOnTeammates p; totalDamageShieldedOnTeammates p;
    longestTimeSpentLiving p; soloKills p; largestKillingSpree p ].

(** No counter of [p] is negative. *)
Definition nonneg_counters (p : MatchParticipant) : Prop :=
  Forall (fun x => 0 <= x) (counters p).

Definition nonneg_countersb (p : MatchParticipant) : bool :=
  forallb (Js.leb 0) (counters p).

(** The raw stats of a participant: the record without its identity
    (player id, champion name, team id) and without its role label. *)
Definition rawStats (p : MatchParticipant) : MatchParticipant :=
  {| puuid := ""; championName := ""; champLevel := champLevel p;
     kills := kills p; deaths := deaths p; assists := assists p;
     win := win p; totalMinionsKilled := totalMinionsKilled p;
     neutralMinionsKilled := neutralMinionsKilled p;
     visionScore := visionScore p;
     visionWardsBoughtInGame := visionWardsBoughtInGame p;
     wardsPlaced := wardsPlaced p; wardsKilled := wardsKilled p;
     goldEarned := goldEarned p;
     totalDamageDealtToChampions := totalDamageDealtToChampions p;
     totalDamageTaken := totalDamageTaken p; teamPosition := "";
     teamId := 0; doubleKills := doubleKills p;
     tripleKills := tripleKills p; quadraKills := quadraKills p;
     pentaKills := pentaKills p; turretKills := turretKills p;
     inhibitorKills := inhibitorKills p; dragonKills := dragonKills p;
     baronKills := baronKills p; firstBloodKill := firstBloodKill p;
     firstBloodAssist := firstBloodAssist p;
     firstTowerKill := firstTowerKill p;
     firstTowerAssist := firstTowerAssist p;
     objectivesStolen := objectivesStolen p;
     objectivesStolenAssists := objectivesStolenAssists p;
     damageDealtToObjectives := damageDealtToObjectives p;
     damageDealtToTurrets := damageDealtToTurrets p;
     damageDealtToBuildings := damageDealtToBuildings p;
     timeCCingOthers := timeCCingOthers p;
     totalHealsOnTeammates := totalHealsOnTeammates p;
     totalDamageShieldedOnTeammates := totalDamageShieldedOnTeammates p;
     longestTimeSpentLiving := longestTimeSpentLiving p;
     soloKills := soloKills p;
     largestKillingSpree := largestKillingSpree p |}.

(** Whether the target player took part in a match. *)
Definition hasTarget (target : string) (m : MatchData) : bool :=
  existsb (fun p => String.eqb (puuid p) target) (participants m).

(** ** Closed forms of the aggregation *)

(** The snapshot of the target player in each match that has one, paired
    with the duration of the match, in the order of the matches. *)
Definition targetSnapshots (target : string) (matches : list MatchData)
    : list (MatchParticipant * Q) :=
  flat_map
    (fun m =>
       match findParticipant target m with
       | Some participant => [(participant, gameDuration m)]
       | None => []
       end)
    matches.

(** The impact of a snapshot. *)
Definition snapshotImpact (s : MatchParticipant * Q) : Q :=
  calculateMatchImpact (fst s) (snd s).

Definition snapshotWon (s : MatchParticipant * Q) : bool := win (fst s).

(** The loop state of the recent window inside the loop state of the season
    window: the same variables without the champion table. *)
Definition forgetChampions (acc : Season.Acc) : Recent.Acc :=
  {| Recent.a_impactScores := Season.a_impactScores acc;
     Recent.a_lanes := Season.a_lanes acc;
     Recent.a_totalKills := Season.a_totalKills acc;
     Recent.a_totalDeaths := Season.a_totalDeaths acc;
     Recent.a_totalAssists := Season.a_totalAssists acc;
     Recent.a_wins := Season.a_wins acc;
     Recent.a_losses := Season.a_losses acc |}.

(** The five lane names [normalizePosition] produces for the known roles. *)
Definition knownLanes : list string := ["Top"; "Jng"; "Mid"; "Adc"; "Sup"].

(** Sums over the values of a table. *)
Definition sumOver {V : Type} (f : V -> Q) (m : StrMap.t V) : Q :=
  fold_right (fun kv s => f (snd kv) + s) 0 m.

(** The body of the season loop on a match where the target player was
    found. *)
Definition seasonFound (acc : Season.Acc) (s : MatchParticipant * Q)
    : Season.Acc :=
  let participant := fst s in
  let impact := calculateMatchImpact participant (snd s) in
  {| Season.a_impactScores := Season.a_impactScores acc ++ [impact];
     Season.a_lanes := countLane participant (Season.a_lanes acc);
     Season.a_champions :=
       Season.countChampion participant impact (Season.a_champions acc);
     Season.a_totalKills := Season.a_totalKills acc + kills participant;
     Season.a_totalDeaths := Season.a_totalDeaths acc + deaths participant;
     Season.a_totalAssists := Season.a_totalAssists acc + assists participant;
     Season.a_wins :=
       if win participant then Season.a_wins acc + 1 else Season.a_wins acc;
     Season.a_losses :=
       if win participant then Season.a_losses acc
       else Season.a_losses acc + 1 |}.

(** The number of elements of a list that pass a test, as a number. *)
Definition countIf {A : Type} (f : A -> bool) (l : list A) : Q :=
  Js.len (filter f l).

(** The lane entry after one more game, and the champion entry after one
    more game with the given impact. *)
Definition bumpLane (participant : MatchParticipant) (st : LaneStats.t)
    : LaneStats.t :=
  LaneStats.mk (LaneStats.games st + 1)
    (if win participant then LaneStats.wins st + 1 else LaneStats.wins st).

Definition bumpChampion (participant : MatchParticipant) (impact : Q)
    (c : ChampionStats.t) : ChampionStats.t :=
  {| ChampionStats.name := ChampionStats.name c;
     ChampionStats.games := ChampionStats.games c + 1;
     ChampionStats.wins :=
       if win participant then ChampionStats.wins c + 1
       else ChampionStats.wins c;
     ChampionStats.kills := ChampionStats.kills c + kills participant;
     ChampionStats.deaths := ChampionStats.deaths c + deaths participant;
     ChampionStats.assists := ChampionStats.assists c + assists participant;
     ChampionStats.totalImpact := ChampionStats.totalImpact c + impact |}.

(** The entry under a key, or a default when the key is absent. *)
Definition getOr {V : Type} (k : string) (m : StrMap.t V) (dflt : V) : V :=
  match StrMap.get k m with
  | Some v => v
  | None => dflt
  end.

(** Whether a snapshot has one of the five known roles. *)
Definition knownRole (s : MatchParticipant * Q) : bool :=
  negb (String.eqb (normalizePosition (teamPosition (fst s))) "Unknown").

(** A well-formed lane entry and a well-formed champion entry. *)
Definition laneEntryOk (kv : string * LaneStats.t) : Prop :=
  In (fst kv) knownLanes
  /\ 1 <= LaneStats.games (snd kv)
  /\ 0 <= LaneStats.wins (snd kv) <= LaneStats.games (snd kv).

Definition championEntryOk (kv : string * ChampionStats.t) : Prop :=
  ChampionStats.name (snd kv) = fst kv
  /\ 1 <= ChampionStats.games (snd kv)
  /\ 0 <= ChampionStats.wins (snd kv) <= ChampionStats.games (snd kv).

(** ** Bounds and variations used by further properties of the scorers *)

(** The largest value each category score can take: the sum of the caps of
    its terms (or its own cap, for [clutch], [impact], [winContribution]). *)
Definition categoryBound (k : Category) : Q :=
  match k with
  | Combat => 32 | Damage => 18 | Objectives => 22 | Economy => 10
  | Vision => 8 | Utility => 12 | Clutch => 12 | Impact => 10
  | WinContribution => 10
  end.

(** The same snapshot with another result and another number of deaths. *)
Definition withWinDeaths (p : MatchParticipant) (won : bool) (died : Q)
    : MatchParticipant :=
  {| puuid := puuid p; championName := championName p;
     champLevel := champLevel p; kills := kills p; deaths := died;
     assists := assists p; win := won;
     totalMinionsKilled := totalMinionsKilled p;
     neutralMinionsKilled := neutralMinionsKilled p;
     visionScore := visionScore p;
     visionWardsBoughtInGame := visionWardsBoughtInGame p;
     wardsPlaced := wardsPlaced p; wardsKilled := wardsKilled p;
     goldEarned := goldEarned p;
     totalDamageDealtToChampions := totalDamageDealtToChampions p;
     totalDamageTaken := totalDamageTaken p;
     teamPosition := teamPosition p; teamId := teamId p;
     doubleKills := doubleKills p; tripleKills := tripleKills p;
     quadraKills := quadraKills p; pentaKills := pentaKills p;
     turretKills := turretKills p; inhibitorKills := inhibitorKills p;
     dragonKills := dragonKills p; baronKills := baronKills p;
     firstBloodKill := firstBloodKill p;
     firstBloodAssist := firstBloodAssist p;
     firstTowerKill := firstTowerKill p;
     firstTowerAssist := firstTowerAssist p;
     objectivesStolen := objectivesStolen p;
     objectivesStolenAssists := objectivesStolenAssists p;
     damageDealtToObjectives := damageDealtToObjectives p;
     damageDealtToTurrets := damageDealtToTurrets p;
     damageDealtToBuildings := damageDealtToBuildings p;
     timeCCingOthers := timeCCingOthers p;
     totalHealsOnTeammates := totalHealsOnTeammates p;
     totalDamageShieldedOnTeammates := totalDamageShieldedOnTeammates p;
     longestTimeSpentLiving := longestTimeSpentLiving p;
     soloKills := soloKills p;
     largestKillingSpree := largestKillingSpree p |}.

(** Whether a snapshot was played on lane [lane], and won there. *)
Definition onLane (lane : string) (s : MatchParticipant * Q) : bool :=
  String.eqb (normalizePosition (teamPosition (fst s))) lane.

Definition wonOnLane (lane : string) (s : MatchParticipant * Q) : bool :=
  onLane lane s && win (fst s).

(** The order [byWinrateThenGames] sorts by: [a] is not worse than [b]. *)
Definition laneNotWorse (a b : LaneRow.t) : Prop :=
  LaneRow.winrate b < LaneRow.winrate a
  \/ (LaneRow.winrate b == LaneRow.winrate a
      /\ LaneRow.games b <= LaneRow.games a).

(** The snapshots a filter of the match list keeps. *)
Definition keptBy (matchFilter : MatchFilter) (s : MatchParticipant * Q)
    : bool :=
  match matchFilter with
  | FilterAll => true
  | FilterWins => snapshotWon s
  | FilterLosses => negb (snapshotWon s)
  end.

(** The snapshot a card of the match list shows, with the duration of its
    match. *)
Definition cardSnapshot (c : MatchData * MatchParticipant)
    : MatchParticipant * Q :=
  (snd c, gameDuration (fst c)).

(** ** Topics of the feedback messages *)

(** The metric a message speaks about: the comment heading its [if] chain
    in the source. *)
Inductive Topic : Type :=
| TImpact | TWinrate | TKda | TDeaths | TTrend | TActivity | TStability
| TChampion | TFallback.

Definition topic (m : Message) : Topic :=
  match m with
  | ImpactDominant | ImpactHigh | ImpactSolid
  | ImpactLow | ImpactBelowAverage | ImpactAverage => TImpact
  | WinratePhenomenal | WinrateGood | WinratePositive
  | WinrateVeryLow | WinrateLow | WinrateNearHalf => TWinrate
  | KdaOutstanding | KdaGreat | KdaGood | KdaVeryLow | KdaLow => TKda
  | DeathsFew | DeathsControlled
  | DeathsVeryHigh | DeathsHigh | DeathsToOptimize => TDeaths
  | TrendStrongUp | TrendUp | TrendDown | TrendSlightlyDown => TTrend
  | FightsVeryActive | FightsGood | AssistsHigh | KillsHigh
  | LowActivity => TActivity
  | VeryConsistent | StableForm | FormSwings | FormUnstable => TStability
  | PocketPick => TChampion
  | PlayMore | KeepGoing => TFallback
  end.

(** What holds of the analysis when a strength, respectively an
    improvement, of a given topic is pushed. *)
Definition strengthFact (a : Analysis.t) (t : Topic) : Prop :=
  match t with
  | TImpact => 6 <= Analysis.avgImpact a
  | TWinrate => 52 <= Analysis.winrate a
  | TKda => 3 <= avgKDARatio a
  | TDeaths => AvgKDA.deaths (Analysis.avgKDA a) < 4.5
  | TTrend => 0.2 < Analysis.recentTrend a
  | TActivity =>
      12 <= killParticipation a
      \/ 8 <= AvgKDA.assists (Analysis.avgKDA a)
      \/ 8 <= AvgKDA.kills (Analysis.avgKDA a)
  | TStability => feedbackVariance a < 1.5 * 1.5
  | TChampion => bestChampRule (bestChamp a) = true
  | TFallback => False
  end.

Definition improvementFact (a : Analysis.t) (t : Topic) : Prop :=
  match t with
  | TImpact => Analysis.avgImpact a < 5.5
  | TWinrate => Analysis.winrate a < 50
  | TKda => avgKDARatio a < 2
  | TDeaths => 4.5 < AvgKDA.deaths (Analysis.avgKDA a)
  | TTrend => Analysis.recentTrend a < -0.2
  | TActivity =>
      AvgKDA.kills (Analysis.avgKDA a) < 3
      /\ AvgKDA.assists (Analysis.avgKDA a) < 6
  | TStability => 2 * 2 < feedbackVariance a
  | TChampion => False
  | TFallback => False
  end.

(** ** The cards of the carousel *)

(** The card shows a champion of the table, under the champion's name. *)
Definition cardOfTable (a : Analysis.t) (card : ChampionCard.t) : Prop :=
  exists c,
    StrMap.get (ChampionCard.name card) (Analysis.champions a) = Some c
    /\ card = seasonCard c.

(** The order of the cards in each mode of the season. *)
Definition cardOrder (mode : ChampMode) (x y : ChampionCard.t) : Prop :=
  match mode with
  | ByWinrate => ChampionCard.winrate y <= ChampionCard.winrate x
  | ByGames => ChampionCard.games y <= ChampionCard.games x
  | ByMastery => True
  end.

(** The fewest games a card of the mode can have. *)
Definition cardMinGames (mode : ChampMode) : Q :=
  match mode with
  | ByWinrate => 2
  | ByGames => 1
  | ByMastery => 0
  end.

(** ** Invariants of the loops and tables *)

(** What the counters of the season loop hold after the snapshots [done]. *)
Definition seasonCounts (done : list (MatchParticipant * Q))
    (acc : Season.Acc) : Prop :=
  Season.a_impactScores acc = map snapshotImpact done
  /\ Season.a_wins acc == countIf snapshotWon done
  /\ Season.a_losses acc == countIf (fun s => negb (snapshotWon s)) done
  /\ Season.a_totalKills acc == Spec.total (map (fun s => kills (fst s)) done)
  /\ Season.a_totalDeaths acc
     == Spec.total (map (fun s => deaths (fst s)) done)
  /\ Season.a_totalAssists acc
     == Spec.total (map (fun s => assists (fst s)) done).

(** What the lane table holds after the snapshots [done]. *)
Definition laneTableInv (done : list (MatchParticipant * Q))
    (lanes : StrMap.t LaneStats.t) : Prop :=
  NoDup (StrMap.keys lanes)
  /\ Forall laneEntryOk lanes
  /\ sumOver LaneStats.games lanes == countIf knownRole done.

(** What the champion table holds after the snapshots [done]. *)
Definition championTableInv (done : list (MatchParticipant * Q))
    (champions : StrMap.t ChampionStats.t) : Prop :=
  NoDup (StrMap.keys champions)
  /\ Forall championEntryOk champions
  /\ sumOver ChampionStats.games champions == Js.len done
  /\ sumOver ChampionStats.wins champions == countIf snapshotWon done.

(** What the entry of one lane holds after the snapshots [done]. *)
Definition laneCountInv (lane : string)
    (done : list (MatchParticipant * Q)) (lanes : StrMap.t LaneStats.t)
    : Prop :=
  LaneStats.games (getOr lane lanes (LaneStats.mk 0 0))
  == countIf (onLane lane) done
  /\ LaneStats.wins (getOr lane lanes (LaneStats.mk 0 0))
     == countIf (wonOnLane lane) done.

(** What the table says of each of its champions. *)
Definition championOk (champions : StrMap.t ChampionStats.t)
    (c : ChampionStats.t) : Prop :=
  StrMap.get (ChampionStats.name c) champions = Some c
  /\ 1 <= ChampionStats.games c
  /\ 0 <= ChampionStats.wins c <= ChampionStats.games c.

(** ** Sample records

    Concrete participants and matches on which the functions are run. *)

Module Sample.

(** A participant with the given identity, result and main counters, and
    every other counter 0. *)
Definition player (id champ pos : string) (team : Z) (won : bool)
    (k d a cs vis dmg gold : Q) : MatchParticipant :=
  {| puuid := id; championName := champ; champLevel := 0;
     kills := k; deaths := d; assists := a; win := won;
     totalMinionsKilled := cs; neutralMinionsKilled := 0;
     visionScore := vis; visionWardsBoughtInGame := 0;
     wardsPlaced := 0; wardsKilled := 0;
     goldEarned := gold; totalDamageDealtToChampions := dmg;
     totalDamageTaken := 0; teamPosition := pos; teamId := team;
     doubleKills := 0; tripleKills := 0; quadraKills := 0;
     pentaKills := 0; turretKills := 0; inhibitorKills := 0;
     dragonKills := 0; baronKills := 0;
     firstBloodKill := false; firstBloodAssist := false;
     firstTowerKill := false; firstTowerAssist := false;
     objectivesStolen := 0; objectivesStolenAssists := 0;
     damageDealtToObjectives := 0; damageDealtToTurrets := 0;
     damageDealtToBuildings := 0; timeCCingOthers := 0;
     totalHealsOnTeammates := 0; totalDamageShieldedOnTeammates := 0;
     longestTimeSpentLiving := 0; soloKills := 0;
     largestKillingSpree := 0 |}.

(** The 30-minute scenario of the design document: 10/2/5, 200 CS,
    vision 30, 18000 damage, 14000 gold, a win, no objective stats. *)
Definition carry : MatchParticipant :=
  player "me" "Ahri" "MIDDLE" 100 true 10 2 5 200 30 18000 14000.

(** Ten participants with the same counters and result, two teams of
    five, each team with its five roles. *)
Definition tied (id pos : string) (team : Z) : MatchParticipant :=
  player id "Garen" pos team true 4 2 6 150 20 12000 9000.

Definition tiedMatch : list MatchParticipant :=
  [ tied "a1" "TOP" 100; tied "a2" "JUNGLE" 100; tied "a3" "MIDDLE" 100;
    tied "a4" "BOTTOM" 100; tied "a5" "UTILITY" 100;
    tied "b1" "TOP" 200; tied "b2" "JUNGLE" 200; tied "b3" "MIDDLE" 200;
    tied "b4" "BOTTOM" 200; tied "b5" "UTILITY" 200 ].

(** The same ten with one role label for all. *)
Definition tiedSameRole : list MatchParticipant :=
  [ tied "a1" "TOP" 100; tied "a2" "TOP" 100; tied "a3" "TOP" 100;
    tied "a4" "TOP" 100; tied "a5" "TOP" 100;
    tied "b1" "TOP" 200; tied "b2" "TOP" 200; tied "b3" "TOP" 200;
    tied "b4" "TOP" 200; tied "b5" "TOP" 200 ].

(** A one-minute match of the target player ["me"] on champion [champ].
    When it is won the impact is exactly [n] (for [n] from 1 to 9): the
    win bonus plus [n - 1] points from kills (3 for a point, up to 2),
    CS, vision, damage, gold, objective damage and a baron kill (a
    point each). *)
Definition impactMatch (champ : string) (won : bool) (n : nat) : MatchData :=
  let pts := Nat.pred n in
  let when (k : nat) (x : Q) : Q := if Nat.leb k pts then x else 0 in
  {| gameDuration := 60;
     participants :=
       [ player "other" "Zed" "TOP" 200 (negb won) 0 0 0 0 0 0 0;
         {| puuid := "me"; championName := champ; champLevel := 0;
            kills := when 1%nat 3 + when 2%nat 3; deaths := 0;
            assists := 0; win := won;
            totalMinionsKilled := when 3%nat 7;
            neutralMinionsKilled := 0; visionScore := when 4%nat (3 # 2);
            visionWardsBoughtInGame := 0; wardsPlaced := 0;
            wardsKilled := 0; goldEarned := when 6%nat 450;
            totalDamageDealtToChampions := when 5%nat 800;
            totalDamageTaken := 0; teamPosition := "MIDDLE";
            teamId := 100; doubleKills := 0; tripleKills := 0;
            quadraKills := 0; pentaKills := 0; turretKills := 0;
            inhibitorKills := 0; dragonKills := 0;
            baronKills := when 8%nat 1;
            firstBloodKill := false; firstBloodAssist := false;
            firstTowerKill := false; firstTowerAssist := false;
            objectivesStolen := 0; objectivesStolenAssists := 0;
            damageDealtToObjectives := when 7%nat 600;
            damageDealtToTurrets := 0; damageDealtToBuildings := 0;
            timeCCingOthers := 0; totalHealsOnTeammates := 0;
            totalDamageShieldedOnTeammates := 0;
            longestTimeSpentLiving := 0; soloKills := 0;
            largestKillingSpree := 0 |} ] |}.

(** A match the target player ["me"] did not play. *)
Definition strangersMatch : MatchData :=
  {| gameDuration := 1800;
     participants :=
       [ player "x" "Zed" "TOP" 100 true 5 1 3 180 20 15000 12000;
         player "y" "Lux" "MIDDLE" 200 false 1 5 2 150 25 9000 8000 ] |}.

(** A recent window of seven matches (most recent first). *)
Definition window7 : list MatchData :=
  [ impactMatch "Ahri" true 8; impactMatch "Ahri" true 7;
    impactMatch "Ahri" true 9; impactMatch "Ahri" true 6;
    impactMatch "Ahri" true 5; impactMatch "Ahri" true 4;
    impactMatch "Ahri" true 3 ].

(** A season of three won games on one champion and ten games, eight of
    them won, on another. *)
Definition season13 : list MatchData :=
  [ impactMatch "Ahri" true 5; impactMatch "Ahri" true 5;
    impactMatch "Ahri" true 5;
    impactMatch "Garen" true 5; impactMatch "Garen" true 5;
    impactMatch "Garen" true 5; impactMatch "Garen" true 5;
    impactMatch "Garen" false 5; impactMatch "Garen" true 5;
    impactMatch "Garen" true 5; impactMatch "Garen" false 5;
    impactMatch "Garen" true 5; impactMatch "Garen" true 5 ].

(** The ten games of [season13] on the second champion. *)
Definition season10 : list MatchData := skipn 3 season13.

(** Six matches with the same impact. *)
Definition steady6 : list MatchData :=
  [ impactMatch "Ahri" true 6; impactMatch "Ahri" true 6;
    impactMatch "Ahri" true 6; impactMatch "Ahri" true 6;
    impactMatch "Ahri" true 6; impactMatch "Ahri" true 6 ].

(** A flawless game: every term of [combat] and of [objectives] at its
    cap. *)
Definition flawless : MatchParticipant :=
  {| puuid := "ace"; championName := "Yi"; champLevel := 18;
     kills := 10; deaths := 0; assists := 0; win := true;
     totalMinionsKilled := 200; neutralMinionsKilled := 0;
     visionScore := 10; visionWardsBoughtInGame := 0;
     wardsPlaced := 0; wardsKilled := 0;
     goldEarned := 15000; totalDamageDealtToChampions := 20000;
     totalDamageTaken := 0; teamPosition := "JUNGLE"; teamId := 100;
     doubleKills := 0; tripleKills := 0; quadraKills := 0;
     pentaKills := 1; turretKills := 3; inhibitorKills := 2;
     dragonKills := 2; baronKills := 2;
     firstBloodKill := false; firstBloodAssist := false;
     firstTowerKill := false; firstTowerAssist := false;
     objectivesStolen := 2; objectivesStolenAssists := 0;
     damageDealtToObjectives := 1000; damageDealtToTurrets := 0;
     damageDealtToBuildings := 0; timeCCingOthers := 0;
     totalHealsOnTeammates := 0; totalDamageShieldedOnTeammates := 0;
     longestTimeSpentLiving := 0; soloKills := 4;
     largestKillingSpree := 10 |}.

(** An analysis on which no feedback rule fires: every metric lies
    between the threshold of its strength and that of its improvement,
    and there are too few samples for the stability rules. *)
Definition quiet : Analysis.t :=
  {| Analysis.impactScores := [];
     Analysis.avgImpact := 5.7;
     Analysis.winrate := 50;
     Analysis.wins := 2;
     Analysis.losses := 2;
     Analysis.lanes := [];
     Analysis.champions := [];
     Analysis.avgKDA := {| AvgKDA.kills := 4; AvgKDA.deaths := 4.5;
                           AvgKDA.assists := 6 |};
     Analysis.totalGames := 4;
     Analysis.recentTrend := 0 |}.

(** An analysis of five samples with the same impact, seven games out
    of ten won. *)
Definition steady : Analysis.t :=
  {| Analysis.impactScores := [5; 5; 5; 5; 5];
     Analysis.avgImpact := 5;
     Analysis.winrate := 70;
     Analysis.wins := 7;
     Analysis.losses := 3;
     Analysis.lanes := [];
     Analysis.champions := [];
     Analysis.avgKDA := {| AvgKDA.kills := 4; AvgKDA.deaths := 4.5;
                           AvgKDA.assists := 6 |};
     Analysis.totalGames := 10;
     Analysis.recentTrend := 0 |}.

(** League entries: a flex-queue entry alone, and the same before a
    solo-queue entry. *)
Definition flexEntry : LeagueEntry.t :=
  LeagueEntry.mk "RANKED_FLEX_SR" "SILVER" "II" 40 10 12.

Definition soloEntry : LeagueEntry.t :=
  LeagueEntry.mk "RANKED_SOLO_5x5" "GOLD" "IV" 75 30 20.

Definition leagues : list LeagueEntry.t := [flexEntry; soloEntry].

(** Lane rows: two lanes with the same win rate and enough games, and a
    lane with a perfect win rate over two games. *)
Definition topRow : LaneRow.t := LaneRow.mk "Top" "" 60 10.
Definition midRow : LaneRow.t := LaneRow.mk "Mid" "" 60 15.
Definition supRow : LaneRow.t := LaneRow.mk "Sup" "" 100 2.

Definition laneRows : list LaneRow.t := [topRow; midRow; supRow].

(** The analysis [steady] with three champions, two of them with the
    same, largest number of games. *)
Definition garenStats : ChampionStats.t :=
  ChampionStats.mk "Garen" 4 3 20 10 12 22.

Definition threeChampions : Analysis.t :=
  {| Analysis.impactScores := Analysis.impactScores steady;
     Analysis.avgImpact := Analysis.avgImpact steady;
     Analysis.winrate := Analysis.winrate steady;
     Analysis.wins := Analysis.wins steady;
     Analysis.losses := Analysis.losses steady;
     Analysis.lanes := [];
     Analysis.champions :=
       [ ("Ahri", ChampionStats.mk "Ahri" 2 1 8 9 10 9);
         ("Garen", garenStats);
         ("Lux", ChampionStats.mk "Lux" 4 3 12 14 30 19) ];
     Analysis.avgKDA := Analysis.avgKDA steady;
     Analysis.totalGames := Analysis.totalGames steady;
     Analysis.recentTrend := Analysis.recentTrend steady |}.

End Sample.

(** * Properties *)

Ltac qlra := Lqa.lra.

(** ** Numbers *)

Lemma leb_true (a b : Q) : Js.leb a b = true <-> a <= b.
Proof. apply Qle_bool_iff. Qed.

Lemma leb_false (a b : Q) : Js.leb a b = false <-> b < a.
Proof.
  unfold Js.leb. split; intro H.
  - apply Qnot_le_lt. intro Hle. apply Qle_bool_iff in Hle. congruence.
  - destruct (Qle_bool a b) eqn:E; [|reflexivity].
    apply Qle_bool_iff in E. qlra.
Qed.

Lemma ltb_true (a b : Q) : Js.ltb a b = true <-> a < b.
Proof.
  unfold Js.ltb. rewrite negb_true_iff. apply (leb_false b a).
Qed.

Lemma ltb_false (a b : Q) : Js.ltb a b = false <-> b <= a.
Proof.
  unfold Js.ltb. rewrite negb_false_iff. apply (leb_true b a).
Qed.

Lemma min_le_r (a b : Q) : Js.min a b <= b.
Proof. apply Q.le_min_r. Qed.

Lemma min_nonneg (a b : Q) : 0 <= a -> 0 <= b -> 0 <= Js.min a b.
Proof. intros. apply Q.min_glb; assumption. Qed.

Lemma max_ge_r (a b : Q) : b <= Js.max a b.
Proof. apply Q.le_max_r. Qed.

(** Minutes have the sign of the duration. *)
Lemma minutes_nonpos (d : Q) : d / 60 <= 0 <-> d <= 0.
Proof.
  split; intro H.
  - setoid_replace d with ((d / 60) * 60) by (field; discriminate). qlra.
  - setoid_replace (d / 60) with (d * (1 # 60)) by (field; discriminate). qlra.
Qed.

(** ** C1: the impact score *)

Lemma impact_range (p : MatchParticipant) (d : Q) :
  0 <= calculateMatchImpact p d <= 10.
Proof.
  unfold calculateMatchImpact.
  destruct (Js.leb (d / 60) 0); [qlra|].
  cbv zeta. split.
  - apply min_nonneg; [apply max_ge_r | qlra].
  - apply min_le_r.
Qed.

(** C1.  The impact score is the clamped sum of section 4.1 of the design
    document (eight capped terms minus the death penalty, clamped to
    [0, 10]); it always lies in [0, 10]; and it is exactly 0 when the game
    duration is not positive. *)
Theorem impact_score_formula_and_range :
  forall (p : MatchParticipant) (d : Q),
    calculateMatchImpact p d == Spec.impactScore p d
    /\ 0 <= calculateMatchImpact p d <= 10
    /\ (d <= 0 -> calculateMatchImpact p d = 0).
Proof.
  intros p d. split; [|split].
  - unfold calculateMatchImpact, Spec.impactScore.
    destruct (Js.leb (d / 60) 0) eqn:E.
    + assert (E' : Qle_bool d 0 = true)
        by (apply Qle_bool_iff, minutes_nonpos, leb_true; exact E).
      rewrite E'. reflexivity.
    + apply leb_false in E.
      assert (Hd : ~ d <= 0) by (rewrite <- minutes_nonpos; qlra).
      destruct (Qle_bool d 0) eqn:E'.
      { apply Qle_bool_iff in E'. contradiction. }
      cbv zeta.
      unfold Spec.clamp, Spec.impactTerms, Spec.total, Spec.capped,
        Js.min, Js.max, Js.cond, Js.is_zero, fold_right.
      apply Q.min_compat; [|reflexivity].
      apply Q.max_compat; [|reflexivity].
      ring.
  - apply impact_range.
  - intro Hd. unfold calculateMatchImpact.
    assert (E : Js.leb (d / 60) 0 = true)
      by (apply leb_true, minutes_nonpos; exact Hd).
    rewrite E. reflexivity.
Qed.

Lemma impact_score_formula_and_range_witness :
  -5 <= 0 /\ calculateMatchImpact Sample.carry (-5) = 0.
Proof.
  assert (Hd : -5 <= 0) by (unfold Qle; simpl; lia).
  split; [exact Hd|].
  exact (proj2 (proj2 (impact_score_formula_and_range Sample.carry (-5)))
           Hd).
Defined.

(** The 30-minute scenario of the design document (10/2/5, 200 CS, vision
    30, 18000 damage, 14000 gold, a win): the impact is 4771/700, that is
    6.82 to two decimals. *)
Example impact_scenario :
  calculateMatchImpact Sample.carry 1800 == 4771 # 700
  /\ 6.815 <= calculateMatchImpact Sample.carry 1800 < 6.825.
Proof.
  split; [|split]; vm_compute; first [reflexivity | discriminate].
Qed.

(** ** Tables and sorting *)

Section StrMapFacts.

Context {V : Type}.
Implicit Types (m : StrMap.t V) (k : string) (v : V).

Lemma get_set_same m k v : StrMap.get k (StrMap.set k v m) = Some v.
Proof.
  induction m as [|[k' v'] m IH]; simpl.
  - now rewrite String.eqb_refl.
  - destruct (String.eqb k k') eqn:E; simpl; rewrite ?E, ?String.eqb_refl;
      auto.
Qed.

Lemma get_set_other m k k' v :
  k' <> k -> StrMap.get k' (StrMap.set k v m) = StrMap.get k' m.
Proof.
  intros Hne. induction m as [|[k0 v0] m IH]; simpl.
  - apply String.eqb_neq in Hne. now rewrite Hne.
  - destruct (String.eqb k k0) eqn:E; simpl.
    + apply String.eqb_eq in E. subst k0.
      apply String.eqb_neq in Hne. now rewrite Hne.
    + now rewrite IH.
Qed.

Lemma set_fresh m k v :
  ~ In k (StrMap.keys m) -> StrMap.set k v m = m ++ [(k, v)].
Proof.
  induction m as [|[k' v'] m IH]; simpl; intros Hn; [reflexivity|].
  destruct (String.eqb k k') eqn:E.
  - apply String.eqb_eq in E. subst. tauto.
  - f_equal. apply IH. tauto.
Qed.

Lemma get_In m k v : StrMap.get k m = Some v -> In (k, v) m.
Proof.
  induction m as [|[k' v'] m IH]; simpl; [discriminate|].
  destruct (String.eqb k k') eqn:E.
  - apply String.eqb_eq in E. intros [= ->]. subst. now left.
  - intros H. right. auto.
Qed.

Lemma In_get m k v :
  NoDup (StrMap.keys m) -> In (k, v) m -> StrMap.get k m = Some v.
Proof.
  induction m as [|[k' v'] m IH]; simpl; [tauto|].
  intros Hnd [[= -> ->]|Hin].
  - now rewrite String.eqb_refl.
  - inversion Hnd as [|? ? Hk Hnd']; subst.
    destruct (String.eqb k k') eqn:E.
    + apply String.eqb_eq in E. subst k'. exfalso. apply Hk.
      change k with (fst (k, v)). now apply in_map.
    + auto.
Qed.

End StrMapFacts.

(** Whatever the comparator, sorting rearranges. *)
Section SortPerm.

Context {A : Type} (cmp : A -> A -> Q).

Lemma insert_perm (x : A) (l : list A) :
  Permutation (insert cmp x l) (x :: l).
Proof.
  induction l as [|y l IH]; simpl; [reflexivity|].
  destruct (Js.leb (cmp x y) 0); [reflexivity|].
  rewrite IH. apply perm_swap.
Qed.

Lemma sort_perm (l : list A) : Permutation (sort cmp l) l.
Proof.
  induction l as [|x l IH]; simpl; [reflexivity|].
  rewrite insert_perm. now constructor.
Qed.

Lemma sort_nonempty (l : list A) : l <> [] -> sort cmp l <> [].
Proof.
  intros Hl E. apply Hl. pose proof (sort_perm l) as P.
  rewrite E in P. now apply Permutation_nil in P.
Qed.

End SortPerm.

(** The stable sort by a numeric key, largest first: the comparator of both
    [sort] calls of the program is [(a, b) => key(b) - key(a)]. *)
Section SortByKey.

Context {A : Type} (key : A -> Q).

Let cmp (a b : A) : Q := key b - key a.
Let desc (a b : A) : Prop := key b <= key a.

Lemma insert_sorted (x : A) (l : list A) :
  StronglySorted desc l -> StronglySorted desc (insert cmp x l).
Proof.
  induction 1 as [|y l Hs IH Hall]; simpl.
  - repeat constructor.
  - destruct (Js.leb (cmp x y) 0) eqn:E.
    + apply leb_true in E. unfold cmp in E.
      constructor; [now constructor|].
      constructor; [unfold desc; qlra|].
      eapply Forall_impl; [|exact Hall].
      unfold desc. intros a Ha. qlra.
    + apply leb_false in E. unfold cmp in E.
      constructor; [exact IH|].
      eapply Permutation_Forall; [symmetry; apply insert_perm|].
      constructor; [unfold desc; qlra | exact Hall].
Qed.

Lemma sort_sorted (l : list A) : StronglySorted desc (sort cmp l).
Proof.
  induction l as [|x l IH]; simpl; [constructor | now apply insert_sorted].
Qed.

(** Stability: an array that is already in order is left as it is. *)
Lemma sort_sorted_id (l : list A) : StronglySorted desc l -> sort cmp l = l.
Proof.
  induction 1 as [|x l Hs IH Hall]; simpl; [reflexivity|].
  rewrite IH. destruct l as [|y l]; simpl; [reflexivity|].
  inversion Hall as [|? ? Hy _]; subst.
  assert (E : Js.leb (cmp x y) 0 = true)
    by (apply leb_true; unfold cmp, desc in *; qlra).
  now rewrite E.
Qed.

Lemma sort_all_equal (l : list A) :
  (forall a b, In a l -> In b l -> key a == key b) -> sort cmp l = l.
Proof.
  intros Heq. apply sort_sorted_id.
  induction l as [|x l IH]; constructor.
  - apply IH. intros; apply Heq; now right.
  - apply Forall_forall. intros y Hy. unfold desc.
    rewrite (Heq y x); [qlra | now right | now left].
Qed.

Lemma sorted_nth (l : list A) (i j : nat) (a b : A) :
  StronglySorted desc l -> (i <= j)%nat ->
  nth_error l i = Some a -> nth_error l j = Some b -> key b <= key a.
Proof.
  intros Hs. revert i j.
  induction Hs as [|x l Hs IH Hall]; intros i j Hij Hi Hj.
  - destruct i; discriminate.
  - destruct i as [|i], j as [|j]; simpl in *; try lia.
    + injection Hi as <-. injection Hj as <-. qlra.
    + injection Hi as <-. apply nth_error_In in Hj.
      rewrite Forall_forall in Hall. now apply Hall.
    + apply (IH i j); [lia|assumption..].
Qed.

End SortByKey.

(** ** The rank assignment *)

Lemma rankedFrom_keys (i : nat) (l : list Scored) :
  StrMap.keys (rankedFrom i l) = map s_puuid l.
Proof.
  revert i. induction l as [|s l IH]; intros i; simpl; [reflexivity|].
  f_equal. apply IH.
Qed.

Lemma rankedFrom_ranks (i : nat) (l : list Scored) :
  map rank (StrMap.values (rankedFrom i l)) = seq (i + 1) (List.length l).
Proof.
  revert i. induction l as [|s l IH]; intros i; simpl; [reflexivity|].
  f_equal. rewrite IH. reflexivity.
Qed.

(** An entry of [rankedFrom] sits at the index its rank names. *)
Lemma rankedFrom_In (i : nat) (l : list Scored) (k : string) (v : PlayerScore) :
  In (k, v) (rankedFrom i l) ->
  exists n s, nth_error l n = Some s /\ k = s_puuid s
              /\ rank v = (i + n + 1)%nat /\ score v = s_score s
              /\ breakdown v = s_breakdown s.
Proof.
  revert i. induction l as [|s l IH]; intros i; simpl; [tauto|].
  intros [[= <- <-]|Hin].
  - exists 0%nat, s. simpl. repeat split; lia.
  - destruct (IH _ Hin) as (n & s' & Hn & Hk & Hr & Hs & Hb).
    exists (S n), s'. simpl. repeat split; try assumption. lia.
Qed.

Lemma rankedFrom_nth (i : nat) (l : list Scored) (n : nat) (s : Scored) :
  nth_error l n = Some s ->
  In (s_puuid s,
      {| rank := (i + n + 1)%nat; score := s_score s;
         breakdown := s_breakdown s |}) (rankedFrom i l).
Proof.
  revert i n. induction l as [|s' l IH]; intros i n; [destruct n; discriminate|].
  destruct n as [|n]; simpl.
  - intros [= ->]. left. repeat f_equal. lia.
  - intros Hn. right. replace (i + S n + 1)%nat with (S i + n + 1)%nat by lia.
    now apply IH.
Qed.

(** With pairwise-distinct player ids every [set] appends. *)
Lemma assignRanks_nodup (l : list Scored) :
  forall (i : nat) (m : StrMap.t PlayerScore),
    NoDup (StrMap.keys m ++ map s_puuid l) ->
    assignRanks i l m = m ++ rankedFrom i l.
Proof.
  induction l as [|s l IH]; intros i m Hnd; simpl.
  - now rewrite app_nil_r.
  - rewrite set_fresh.
    + rewrite IH.
      * now rewrite <- app_assoc.
      * unfold StrMap.keys in *. rewrite map_app. simpl.
        rewrite <- app_assoc. exact Hnd.
    + intro Hin. apply NoDup_remove_2 in Hnd. apply Hnd.
      apply in_or_app. now left.
Qed.

(** Ids that the remaining elements do not carry keep their entry. *)
Lemma assignRanks_get_other (l : list Scored) :
  forall (i : nat) (m : StrMap.t PlayerScore) (k : string),
    ~ In k (map s_puuid l) ->
    StrMap.get k (assignRanks i l m) = StrMap.get k m.
Proof.
  induction l as [|s l IH]; intros i m k Hn; simpl; [reflexivity|].
  simpl in Hn. rewrite IH by tauto.
  apply get_set_other. intro E. apply Hn. left. now symmetry.
Qed.

(** Every id of the array ends with the entry of one of its elements. *)
Lemma assignRanks_get (l : list Scored) :
  forall (i : nat) (m : StrMap.t PlayerScore) (k : string),
    In k (map s_puuid l) ->
    exists s v, In s l /\ s_puuid s = k
                /\ StrMap.get k (assignRanks i l m) = Some v
                /\ score v = s_score s /\ breakdown v = s_breakdown s.
Proof.
  induction l as [|s l IH]; intros i m k Hin; simpl in *; [tauto|].
  destruct (in_dec string_dec k (map s_puuid l)) as [Hl|Hl].
  - destruct (IH (S i) (StrMap.set (s_puuid s)
                         {| rank := (i + 1)%nat; score := s_score s;
                            breakdown := s_breakdown s |} m) k Hl)
      as (s' & v & Hs' & Hk & Hg & Hsc & Hb).
    exists s', v. auto.
  - destruct Hin as [<-|Hin]; [|contradiction].
    eexists s, _. split; [now left|]. split; [reflexivity|].
    rewrite assignRanks_get_other by assumption.
    rewrite get_set_same. auto.
Qed.

(** ** The ranker *)

Lemma rank_positive (ps : list MatchParticipant) (d : Q)
    (teams : option (list TeamObjectives)) :
  0 < d ->
  rankPlayersInMatch ps d teams = assignRanks 0 (sortedOf ps d) StrMap.empty.
Proof.
  intros Hd. unfold rankPlayersInMatch.
  assert (E : Js.leb (d / 60) 0 = false)
    by (apply leb_false, Qnot_le_lt; rewrite minutes_nonpos; qlra).
  now rewrite E.
Qed.

Lemma sortedOf_perm (ps : list MatchParticipant) (d : Q) :
  Permutation (sortedOf ps d) (scoredOf ps d).
Proof. apply sort_perm. Qed.

Lemma sortedOf_puuids (ps : list MatchParticipant) (d : Q) :
  Permutation (map s_puuid (sortedOf ps d)) (map puuid ps).
Proof.
  rewrite (Permutation_map s_puuid (sortedOf_perm ps d)).
  unfold scoredOf. rewrite map_map. reflexivity.
Qed.

Lemma rank_nodup (ps : list MatchParticipant) (d : Q)
    (teams : option (list TeamObjectives)) :
  0 < d -> NoDup (map puuid ps) ->
  rankPlayersInMatch ps d teams = rankedFrom 0 (sortedOf ps d).
Proof.
  intros Hd Hnd. rewrite rank_positive by assumption.
  rewrite assignRanks_nodup; [reflexivity|]. simpl.
  eapply Permutation_NoDup; [symmetry; apply sortedOf_puuids | exact Hnd].
Qed.

Lemma NoDup_map_eq {A B : Type} (f : A -> B) (l : list A) (a b : A) :
  NoDup (map f l) -> In a l -> In b l -> f a = f b -> a = b.
Proof.
  induction l as [|x l IH]; simpl; [tauto|].
  intros Hnd Ha Hb E. inversion Hnd as [|? ? Hx Hnd']; subst.
  destruct Ha as [->|Ha], Hb as [->|Hb]; auto.
  - exfalso. apply Hx. rewrite E. now apply in_map.
  - exfalso. apply Hx. rewrite <- E. now apply in_map.
Qed.

(** Every participant has an entry under its id; the entry carries the
    score and the breakdown computed for a participant with that id, which
    is the participant itself when ids are pairwise distinct. *)
Lemma rank_entry (ps : list MatchParticipant) (d : Q)
    (teams : option (list TeamObjectives)) (p : MatchParticipant) :
  0 < d -> In p ps ->
  exists v q,
    StrMap.get (puuid p) (rankPlayersInMatch ps d teams) = Some v
    /\ In q ps /\ puuid q = puuid p
    /\ (NoDup (map puuid ps) -> q = p)
    /\ score v = s_score (scoreParticipant (matchTotals ps) d q)
    /\ breakdown v = s_breakdown (scoreParticipant (matchTotals ps) d q).
Proof.
  intros Hd Hp. rewrite rank_positive by assumption.
  assert (Hin : In (puuid p) (map s_puuid (sortedOf ps d))).
  { eapply Permutation_in; [symmetry; apply sortedOf_puuids|].
    now apply in_map. }
  destruct (assignRanks_get (sortedOf ps d) 0 StrMap.empty (puuid p) Hin)
    as (s & v & Hs & Hk & Hg & Hsc & Hb).
  apply (Permutation_in _ (sortedOf_perm ps d)) in Hs.
  unfold scoredOf in Hs. apply in_map_iff in Hs.
  destruct Hs as (q & <- & Hq).
  exists v, q. repeat split; try assumption.
  intros Hnd. now apply (NoDup_map_eq puuid ps).
Qed.

(** C10.  With a game duration that is not positive the ranker returns the
    empty map: no participant has a rank, a score or a breakdown. *)
Theorem rank_nonpositive_duration_empty :
  forall (ps : list MatchParticipant) (d : Q)
         (teams : option (list TeamObjectives)),
    d <= 0 ->
    rankPlayersInMatch ps d teams = StrMap.empty
    /\ forall id, StrMap.get id (rankPlayersInMatch ps d teams) = None.
Proof.
  intros ps d teams Hd.
  assert (E : rankPlayersInMatch ps d teams = StrMap.empty).
  { unfold rankPlayersInMatch.
    assert (E : Js.leb (d / 60) 0 = true)
      by (apply leb_true, minutes_nonpos; exact Hd).
    now rewrite E. }
  split; [exact E|]. intros id. now rewrite E.
Qed.

Lemma rank_nonpositive_duration_empty_witness :
  rankPlayersInMatch Sample.tiedMatch 0 None = StrMap.empty
  /\ forall id, StrMap.get id (rankPlayersInMatch Sample.tiedMatch 0 None)
                = None.
Proof.
  apply (rank_nonpositive_duration_empty Sample.tiedMatch 0 None).
  unfold Qle. simpl. lia.
Defined.

(** C5.  In a match of positive duration the [impact] entry of a
    participant's breakdown is the value [calculateMatchImpact] returns
    for that participant and that duration.  (The entry filed under an id
    is that of a participant [q] with this id: the participant itself
    whenever ids are pairwise distinct.) *)
Theorem breakdown_impact_is_match_impact :
  forall (ps : list MatchParticipant) (d : Q)
         (teams : option (list TeamObjectives)) (p : MatchParticipant),
    0 < d -> In p ps ->
    exists v q,
      StrMap.get (puuid p) (rankPlayersInMatch ps d teams) = Some v
      /\ In q ps /\ puuid q = puuid p
      /\ (NoDup (map puuid ps) -> q = p)
      /\ impact (breakdown v) = calculateMatchImpact q d.
Proof.
  intros ps d teams p Hd Hp.
  destruct (rank_entry ps d teams p Hd Hp)
    as (v & q & Hg & Hq & Hid & Hnd & _ & Hb).
  exists v, q. repeat split; try assumption.
  rewrite Hb. reflexivity.
Qed.

Lemma breakdown_impact_is_match_impact_witness :
  0 < 1800 /\ In (Sample.tied "a1" "TOP" 100) Sample.tiedMatch
  /\ exists v q,
       StrMap.get "a1" (rankPlayersInMatch Sample.tiedMatch 1800 None)
       = Some v
       /\ In q Sample.tiedMatch /\ puuid q = "a1"
       /\ (NoDup (map puuid Sample.tiedMatch)
           -> q = Sample.tied "a1" "TOP" 100)
       /\ impact (breakdown v) = calculateMatchImpact q 1800.
Proof.
  assert (Hd : 0 < 1800) by (unfold Qlt; simpl; lia).
  assert (Hp : In (Sample.tied "a1" "TOP" 100) Sample.tiedMatch)
    by (simpl; auto).
  split; [exact Hd|]. split; [exact Hp|].
  exact (breakdown_impact_is_match_impact Sample.tiedMatch 1800 None
           (Sample.tied "a1" "TOP" 100) Hd Hp).
Defined.

(** C2.  For ten participants with pairwise-distinct ids and a positive
    game duration, the returned map has one entry per participant, its
    ranks are exactly 1, ..., 10, each used once, and scores do not
    increase with the rank: an entry of rank [i] has a score at least
    that of any entry of a larger rank, the one of rank [i + 1] in
    particular. *)
Theorem ranks_are_a_permutation_sorted_by_score :
  forall (ps : list MatchParticipant) (d : Q)
         (teams : option (list TeamObjectives)),
    List.length ps = 10%nat -> NoDup (map puuid ps) -> 0 < d ->
    let result := rankPlayersInMatch ps d teams in
    map rank (StrMap.values result) = seq 1 10
    /\ Permutation (StrMap.keys result) (map puuid ps)
    /\ (forall id1 v1 id2 v2,
          StrMap.get id1 result = Some v1 ->
          StrMap.get id2 result = Some v2 ->
          (rank v1 <= rank v2)%nat -> score v2 <= score v1).
Proof.
  intros ps d teams Hlen Hnd Hd result. subst result.
  rewrite rank_nodup by assumption.
  split; [|split].
  - rewrite rankedFrom_ranks. simpl Nat.add. f_equal.
    rewrite (Permutation_length (sortedOf_perm ps d)).
    unfold scoredOf. now rewrite length_map.
  - rewrite rankedFrom_keys. apply sortedOf_puuids.
  - intros id1 v1 id2 v2 H1 H2 Hr.
    apply get_In, rankedFrom_In in H1, H2.
    destruct H1 as (n1 & s1 & Hn1 & _ & Hr1 & Hs1 & _).
    destruct H2 as (n2 & s2 & Hn2 & _ & Hr2 & Hs2 & _).
    rewrite Hs1, Hs2.
    apply (sorted_nth s_score (sortedOf ps d) n1 n2);
      [apply sort_sorted | lia | assumption..].
Qed.

Lemma ranks_are_a_permutation_sorted_by_score_witness :
  List.length Sample.tiedMatch = 10%nat
  /\ NoDup (map puuid Sample.tiedMatch)
  /\ 0 < 1800
  /\ map rank (StrMap.values (rankPlayersInMatch Sample.tiedMatch 1800 None))
     = seq 1 10.
Proof.
  assert (Hnd : NoDup (map puuid Sample.tiedMatch)).
  { simpl.
    repeat (constructor;
            [ simpl; intros H;
              repeat (destruct H as [H|H]; [discriminate H|]); exact H |]).
    constructor. }
  assert (Hd : 0 < 1800) by (unfold Qlt; simpl; lia).
  split; [reflexivity|]. split; [exact Hnd|]. split; [exact Hd|].
  exact (proj1 (ranks_are_a_permutation_sorted_by_score
                  Sample.tiedMatch 1800 None eq_refl Hnd Hd)).
Defined.

(** ** C3: the normalized score *)

Lemma div_nonneg (a b : Q) : 0 <= a -> 0 < b -> 0 <= a / b.
Proof.
  intros Ha Hb. apply Qle_shift_div_l; [exact Hb | qlra].
Qed.

Lemma div_pos (a b : Q) : 0 < a -> 0 < b -> 0 < a / b.
Proof.
  intros Ha Hb. apply Qlt_shift_div_l; [exact Hb | qlra].
Qed.

Lemma plus_nonneg (a b : Q) : 0 <= a -> 0 <= b -> 0 <= a + b.
Proof. intros. qlra. Qed.

Lemma plus_pos (a b : Q) : 0 < a -> 0 < b -> 0 < a + b.
Proof. intros. qlra. Qed.

Lemma or_nonneg (a b : Q) : 0 <= a -> 0 <= b -> 0 <= Js.or a b.
Proof. unfold Js.or. destruct (Js.is_zero a); auto. Qed.

Lemma cond_nonneg (c : bool) (a b : Q) :
  0 <= a -> 0 <= b -> 0 <= Js.cond c a b.
Proof. destruct c; auto. Qed.

Lemma max_one_pos (a : Q) : 0 < Js.max a 1.
Proof. pose proof (max_ge_r a 1). qlra. Qed.

Lemma totalOf_pos (f : MatchParticipant -> Q) (ps : list MatchParticipant) :
  0 < totalOf f ps.
Proof. apply max_one_pos. Qed.

Lemma weightsOf_pos (pos : string) (k : Category) : 0 < weightsOf pos k.
Proof.
  unfold weightsOf, roleWeights.
  repeat match goal with
         | |- context [String.eqb ?a ?b] => destruct (String.eqb a b)
         end;
    destruct k; reflexivity.
Qed.

Lemma roleMax_pos (pos : string) : 0 < roleMax (weightsOf pos).
Proof.
  unfold weightsOf, roleWeights.
  repeat match goal with
         | |- context [String.eqb ?a ?b] => destruct (String.eqb a b)
         end;
    reflexivity.
Qed.

(** The role maximum of the code is the one the design document words. *)
Lemma roleMax_spec (w : Weights) : roleMax w == Spec.roleMaximum w.
Proof.
  unfold roleMax, Spec.roleMaximum, Spec.total, categoryMax, Spec.categories.
  simpl. ring.
Qed.

(** Closes goals [0 <= e] and [0 < e] on expressions of the scoring
    closure, from the hypotheses on counters and denominators. *)
Ltac nonneg :=
  repeat first
    [ assumption
    | reflexivity
    | discriminate
    | apply max_one_pos
    | apply totalOf_pos
    | apply max_ge_r
    | apply div_nonneg
    | apply div_pos
    | apply plus_nonneg
    | apply plus_pos
    | apply Qmult_le_0_compat
    | apply Qmult_lt_0_compat
    | apply min_nonneg
    | apply or_nonneg
    | apply cond_nonneg
    | apply Qlt_le_weak; assumption ].

Lemma breakdown_nonneg (T : MatchTotals) (d : Q) (p : MatchParticipant) :
  0 < d -> nonneg_counters p ->
  0 < totalDmg T -> 0 < totalGold T -> 0 < totalVision T ->
  0 < totalDmgTaken T -> 0 < totalObjDmg T -> 0 < totalCC T ->
  0 < totalHealing T ->
  forall k, 0 <= Spec.category (categoryScores T d p) k.
Proof.
  intros Hd Hp H1 H2 H3 H4 H5 H6 H7 k.
  unfold nonneg_counters, counters in Hp.
  repeat match type of Hp with
         | Forall _ (_ :: _) =>
             apply Forall_cons_iff in Hp; destruct Hp as [? Hp]
         end.
  clear Hp.
  pose proof (impact_range p d) as [Hi _].
  destruct k; cbn [Spec.category categoryScores combat damage
                   objectives economy vision utility clutch impact
                   winContribution]; try exact Hi.
  all: try match goal with
           | |- context [Js.ltb 0 ?x] => destruct (Js.ltb 0 x)
           end.
  all: nonneg.
Qed.

Lemma score_unfold (T : MatchTotals) (d : Q) (p : MatchParticipant) :
  s_score (scoreParticipant T d p)
  = Js.min (rawWeightedOf (s_breakdown (scoreParticipant T d p))
                          (weightsOf (teamPosition p))
            / roleMax (weightsOf (teamPosition p)) * 100) 100.
Proof. reflexivity. Qed.

Lemma rawWeighted_spec (b : Breakdown) (w : Weights) :
  rawWeightedOf b w == Spec.weightedSum b w.
Proof.
  unfold rawWeightedOf, Spec.weightedSum, Spec.total, Spec.categories.
  simpl. ring.
Qed.

Lemma rawWeighted_nonneg (b : Breakdown) (pos : string) :
  (forall k, 0 <= Spec.category b k) -> 0 <= rawWeightedOf b (weightsOf pos).
Proof.
  intros Hb. unfold rawWeightedOf.
  pose proof (Hb Combat). pose proof (Hb Damage). pose proof (Hb Objectives).
  pose proof (Hb Economy). pose proof (Hb Vision). pose proof (Hb Utility).
  pose proof (Hb Clutch). pose proof (Hb Impact).
  pose proof (Hb WinContribution). simpl in *.
  repeat apply plus_nonneg;
    (apply Qmult_le_0_compat;
     [assumption | apply Qlt_le_weak, weightsOf_pos]).
Qed.

(** The row the code looks up for a role label is the documented one. *)
Lemma weights_documented (pos : string) (k : Category) :
  weightsOf pos k = Spec.roleWeight (Spec.roleOf pos) k.
Proof.
  unfold weightsOf, roleWeights, Spec.roleOf.
  destruct (String.eqb pos "TOP"); [destruct k; reflexivity|].
  destruct (String.eqb pos "JUNGLE"); [destruct k; reflexivity|].
  destruct (String.eqb pos "MIDDLE"); [destruct k; reflexivity|].
  destruct (String.eqb pos "BOTTOM"); [destruct k; reflexivity|].
  destruct (String.eqb pos "UTILITY"); [destruct k; reflexivity|].
  destruct (String.eqb pos "DEFAULT"); destruct k; reflexivity.
Qed.

Lemma weightedSum_ext (b : Breakdown) (w w' : Weights) :
  (forall k, w k = w' k) -> Spec.weightedSum b w = Spec.weightedSum b w'.
Proof.
  intros H. unfold Spec.weightedSum, Spec.categories. cbn [map].
  now rewrite !H.
Qed.

Lemma roleMaximum_ext (w w' : Weights) :
  (forall k, w k = w' k) -> Spec.roleMaximum w = Spec.roleMaximum w'.
Proof.
  intros H. unfold Spec.roleMaximum, Spec.categories. cbn [map].
  now rewrite !H.
Qed.

Lemma score_normalized (T : MatchTotals) (d : Q) (p : MatchParticipant) :
  (forall k, 0 <= Spec.category (s_breakdown (scoreParticipant T d p)) k) ->
  s_score (scoreParticipant T d p)
  == Spec.normalized (s_breakdown (scoreParticipant T d p)) (teamPosition p)
  /\ 0 <= s_score (scoreParticipant T d p) <= 100.
Proof.
  intros Hb. rewrite score_unfold.
  set (b := s_breakdown (scoreParticipant T d p)) in *.
  set (pos := teamPosition p).
  assert (Hx : 0 <= rawWeightedOf b (weightsOf pos)
                    / roleMax (weightsOf pos) * 100).
  { apply Qmult_le_0_compat; [|discriminate].
    apply div_nonneg; [now apply rawWeighted_nonneg | apply roleMax_pos]. }
  split.
  - unfold Spec.normalized, Spec.clamp, Js.min.
    apply Q.min_compat; [|reflexivity].
    rewrite <- (weightedSum_ext b _ _ (weights_documented pos)).
    rewrite <- (roleMaximum_ext _ _ (weights_documented pos)).
    rewrite <- rawWeighted_spec, <- roleMax_spec.
    symmetry. apply Q.max_l. exact Hx.
  - split; [apply min_nonneg; [exact Hx | discriminate] | apply min_le_r].
Qed.

(** C3.  In a match of positive duration whose counters are not negative,
    the normalized score of every participant is the role-weighted sum of
    its nine category scores divided by the role-specific maximum, scaled
    to 100 and clamped to [0, 100]; it lies in [0, 100].  The weights are
    those documented for the participant's role: the row the code applies
    to a role label is the documented row of that role, every weight lies
    between 0.75 and 1.25, JUNGLE weights objectives 1.20 and clutch
    1.15, UTILITY weights vision and utility 1.15 each, and the
    role-specific maximum is the sum of each category's cap times that
    weight.  (The entry filed under an id is that of a participant [q]
    with this id: the participant itself whenever ids are pairwise
    distinct.) *)
Theorem normalized_score_formula_and_range :
  forall (ps : list MatchParticipant) (d : Q)
         (teams : option (list TeamObjectives)) (p : MatchParticipant),
    0 < d -> Forall nonneg_counters ps -> In p ps ->
    (exists v q,
        StrMap.get (puuid p) (rankPlayersInMatch ps d teams) = Some v
        /\ In q ps /\ puuid q = puuid p
        /\ (NoDup (map puuid ps) -> q = p)
        /\ score v == Spec.normalized (breakdown v) (teamPosition q)
        /\ 0 <= score v <= 100)
    /\ (forall label k,
           weightsOf label k = Spec.roleWeight (Spec.roleOf label) k
           /\ 0.75 <= weightsOf label k <= 1.25)
    /\ (forall label,
           roleMax (weightsOf label)
           == Spec.total
                (map (fun k => Spec.cap k
                               * Spec.roleWeight (Spec.roleOf label) k)
                     Spec.categories))
    /\ weightsOf "JUNGLE" Objectives == 1.20
    /\ weightsOf "JUNGLE" Clutch == 1.15
    /\ weightsOf "UTILITY" Vision == 1.15
    /\ weightsOf "UTILITY" Utility == 1.15.
Proof.
  intros ps d teams p Hd Hnn Hp.
  split; [|split; [|split; [|repeat split]]].
  - destruct (rank_entry ps d teams p Hd Hp)
      as (v & q & Hg & Hq & Hid & Hnd & Hs & Hb).
    exists v, q. repeat split; try assumption.
    all: rewrite Hs, ?Hb;
      apply score_normalized;
      change (s_breakdown (scoreParticipant (matchTotals ps) d q))
        with (categoryScores (matchTotals ps) d q);
      apply breakdown_nonneg;
      [ exact Hd | rewrite Forall_forall in Hnn; now apply Hnn
      | apply totalOf_pos .. | apply max_one_pos ].
  - intros label k. split; [apply weights_documented|].
    rewrite weights_documented.
    destruct (Spec.roleOf label), k; split; discriminate.
  - intros label. rewrite roleMax_spec.
    rewrite (roleMaximum_ext _ _ (weights_documented label)).
    reflexivity.
Qed.

Lemma nonneg_counters_iff (p : MatchParticipant) :
  nonneg_countersb p = true <-> nonneg_counters p.
Proof.
  unfold nonneg_countersb, nonneg_counters.
  rewrite forallb_forall, Forall_forall.
  split; intros H x Hx; [apply leb_true | apply leb_true]; auto.
Qed.

Lemma normalized_score_formula_and_range_witness :
  0 < 1800 /\ Forall nonneg_counters Sample.tiedMatch
  /\ In (Sample.tied "a2" "JUNGLE" 100) Sample.tiedMatch
  /\ exists v q,
       StrMap.get "a2" (rankPlayersInMatch Sample.tiedMatch 1800 None)
       = Some v
       /\ In q Sample.tiedMatch /\ puuid q = "a2"
       /\ (NoDup (map puuid Sample.tiedMatch)
           -> q = Sample.tied "a2" "JUNGLE" 100)
       /\ score v == Spec.normalized (breakdown v) (teamPosition q)
       /\ 0 <= score v <= 100.
Proof.
  assert (Hd : 0 < 1800) by (unfold Qlt; simpl; lia).
  assert (Hnn : Forall nonneg_counters Sample.tiedMatch).
  { apply Forall_forall. intros x Hx. apply nonneg_counters_iff.
    simpl in Hx.
    repeat (destruct Hx as [<-|Hx]; [reflexivity|]). contradiction. }
  assert (Hp : In (Sample.tied "a2" "JUNGLE" 100) Sample.tiedMatch)
    by (simpl; auto).
  split; [exact Hd|]. split; [exact Hnn|]. split; [exact Hp|].
  exact (proj1 (normalized_score_formula_and_range Sample.tiedMatch 1800
                  None (Sample.tied "a2" "JUNGLE" 100) Hd Hnn Hp)).
Defined.

(** ** C9: ten participants tied on every raw stat *)

Lemma numtable_get_set (m : NumTable.t) (k k' : Z) (v : Q) :
  NumTable.get k' (NumTable.set k v m)
  = if Z.eqb k' k then Some v else NumTable.get k' m.
Proof.
  induction m as [|[k0 v0] m IH]; simpl.
  - reflexivity.
  - destruct (Z.eqb k k0) eqn:E; simpl.
    + apply Z.eqb_eq in E. subst k0. destruct (Z.eqb k' k); reflexivity.
    + rewrite IH. destruct (Z.eqb k' k) eqn:E'; [|reflexivity].
      apply Z.eqb_eq in E'. subst k'. now rewrite E.
Qed.

(** A team's entry only depends on how many members it has when they all
    carry the same counter. *)
Lemma teamTable_get_const (f : MatchParticipant -> Q) (c : Q)
    (ps : list MatchParticipant) (t : Z) :
  (forall p, In p ps -> f p = c) ->
  NumTable.get t (teamTable f ps) = Nat.iter (teamSize ps t) (teamAdd c) None.
Proof.
  unfold teamTable. change None with (NumTable.get t []).
  generalize (@nil (Z * Q)) as m.
  induction ps as [|p ps IH]; intros m Hf; [reflexivity|].
  cbn [fold_left]. rewrite IH by (intros; apply Hf; now right).
  rewrite numtable_get_set. unfold teamSize. cbn [filter].
  rewrite (Z.eqb_sym t). destruct (Z.eqb (teamId p) t) eqn:E.
  - apply Z.eqb_eq in E. subst t. cbn [List.length].
    rewrite Nat.iter_succ_r. unfold teamAdd at 2.
    rewrite (Hf p) by now left. reflexivity.
  - reflexivity.
Qed.

(** Participants with the same raw stats and role, on teams with the same
    table entries, get the same score and the same breakdown. *)
Lemma scoreParticipant_tied (T : MatchTotals) (d : Q)
    (p q : MatchParticipant) :
  rawStats p = rawStats q -> teamPosition p = teamPosition q ->
  NumTable.get (teamId p) (teamKills T) = NumTable.get (teamId q) (teamKills T) ->
  NumTable.get (teamId p) (teamGold T) = NumTable.get (teamId q) (teamGold T) ->
  NumTable.get (teamId p) (teamDmg T) = NumTable.get (teamId q) (teamDmg T) ->
  s_score (scoreParticipant T d p) = s_score (scoreParticipant T d q)
  /\ s_breakdown (scoreParticipant T d p)
     = s_breakdown (scoreParticipant T d q).
Proof.
  destruct p, q. unfold rawStats. cbn [teamPosition teamId].
  intros Hraw Hpos Hk Hg Hd.
  injection Hraw as ->. subst.
  unfold scoreParticipant, categoryScores, calculateMatchImpact.
  cbn [puuid championName champLevel kills deaths assists win
       totalMinionsKilled neutralMinionsKilled visionScore
       visionWardsBoughtInGame wardsPlaced wardsKilled goldEarned
       totalDamageDealtToChampions totalDamageTaken teamPosition teamId
       doubleKills tripleKills quadraKills pentaKills turretKills
       inhibitorKills dragonKills baronKills firstBloodKill
       firstBloodAssist firstTowerKill firstTowerAssist objectivesStolen
       objectivesStolenAssists damageDealtToObjectives damageDealtToTurrets
       damageDealtToBuildings timeCCingOthers totalHealsOnTeammates
       totalDamageShieldedOnTeammates longestTimeSpentLiving soloKills
       largestKillingSpree s_score s_breakdown].
  rewrite Hk, Hg, Hd. split; reflexivity.
Qed.

Section Tied.

Variables (ps : list MatchParticipant) (d : Q).

Hypothesis same_stats :
  forall p q, In p ps -> In q ps ->
              rawStats p = rawStats q /\ teamPosition p = teamPosition q.

Hypothesis same_team_size :
  forall p q, In p ps -> In q ps ->
              teamSize ps (teamId p) = teamSize ps (teamId q).

Lemma tied_counter (f : MatchParticipant -> Q) (p : MatchParticipant) :
  (forall a b, rawStats a = rawStats b -> f a = f b) ->
  In p ps -> forall a, In a ps -> f a = f p.
Proof.
  intros Hf Hp a Ha. apply Hf. now apply same_stats.
Qed.

Lemma tied_team_entry (f : MatchParticipant -> Q) (p q : MatchParticipant) :
  (forall a b, rawStats a = rawStats b -> f a = f b) ->
  In p ps -> In q ps ->
  NumTable.get (teamId p) (teamTable f ps)
  = NumTable.get (teamId q) (teamTable f ps).
Proof.
  intros Hf Hp Hq.
  rewrite !(teamTable_get_const f (f p)) by (now apply tied_counter).
  now rewrite (same_team_size p q).
Qed.

Lemma tied_scored (p q : MatchParticipant) :
  In p ps -> In q ps ->
  s_score (scoreParticipant (matchTotals ps) d p)
  = s_score (scoreParticipant (matchTotals ps) d q).
Proof.
  intros Hp Hq. destruct (same_stats p q Hp Hq) as [Hraw Hpos].
  apply scoreParticipant_tied; try assumption;
    cbn [matchTotals teamKills teamGold teamDmg];
    apply tied_team_entry; try assumption;
    intros a b E;
    [ change (kills a) with (kills (rawStats a))
    | change (goldEarned a) with (goldEarned (rawStats a))
    | change (totalDamageDealtToChampions a)
        with (totalDamageDealtToChampions (rawStats a)) ];
    now rewrite E.
Qed.

(** The stable sort leaves the array of equal scores as it is. *)
Lemma tied_sorted : sortedOf ps d = scoredOf ps d.
Proof.
  unfold sortedOf. apply sort_all_equal.
  unfold scoredOf. intros a b Ha Hb.
  apply in_map_iff in Ha, Hb.
  destruct Ha as (p & <- & Hp), Hb as (q & <- & Hq).
  now rewrite (tied_scored p q).
Qed.

End Tied.

(** C9 (amended).  If the ten participants of a match of positive duration
    have pairwise-distinct ids, identical counters and flags, the same role
    label, and sit on teams of the same size (two teams of five), then all
    ten normalized scores are equal and the ranks 1, ..., 10 are assigned
    once each in input order: the participant at array index [i] has rank
    [i + 1]. *)
Theorem tied_same_role_ranked_in_input_order :
  forall (ps : list MatchParticipant) (d : Q)
         (teams : option (list TeamObjectives)),
    0 < d -> List.length ps = 10%nat -> NoDup (map puuid ps) ->
    (forall p q, In p ps -> In q ps ->
                 rawStats p = rawStats q /\ teamPosition p = teamPosition q) ->
    (forall p q, In p ps -> In q ps ->
                 teamSize ps (teamId p) = teamSize ps (teamId q)) ->
    let result := rankPlayersInMatch ps d teams in
    (forall id1 v1 id2 v2,
        StrMap.get id1 result = Some v1 ->
        StrMap.get id2 result = Some v2 -> score v1 = score v2)
    /\ StrMap.keys result = map puuid ps
    /\ map rank (StrMap.values result) = seq 1 10
    /\ (forall i p, nth_error ps i = Some p ->
          exists v, StrMap.get (puuid p) result = Some v
                    /\ rank v = (i + 1)%nat).
Proof.
  intros ps d teams Hd Hlen Hnd Hstats Hsize result. subst result.
  rewrite rank_nodup by assumption.
  rewrite (tied_sorted ps d Hstats Hsize).
  assert (Hkeys : StrMap.keys (rankedFrom 0 (scoredOf ps d)) = map puuid ps).
  { rewrite rankedFrom_keys. unfold scoredOf. now rewrite map_map. }
  split; [|split; [|split]].
  - intros id1 v1 id2 v2 H1 H2.
    apply get_In, rankedFrom_In in H1, H2.
    destruct H1 as (n1 & s1 & Hn1 & _ & _ & -> & _).
    destruct H2 as (n2 & s2 & Hn2 & _ & _ & -> & _).
    apply nth_error_In in Hn1, Hn2. unfold scoredOf in Hn1, Hn2.
    apply in_map_iff in Hn1, Hn2.
    destruct Hn1 as (p & <- & Hp), Hn2 as (q & <- & Hq).
    now apply tied_scored.
  - exact Hkeys.
  - rewrite rankedFrom_ranks. unfold scoredOf.
    now rewrite length_map, Hlen.
  - intros i p Hi.
    set (s := scoreParticipant (matchTotals ps) d p).
    exists {| rank := (0 + i + 1)%nat; score := s_score s;
              breakdown := s_breakdown s |}.
    split; [|reflexivity].
    apply In_get; [now rewrite Hkeys|].
    apply (rankedFrom_nth 0 (scoredOf ps d) i
             (scoreParticipant (matchTotals ps) d p)).
    unfold scoredOf. now apply map_nth_error.
Qed.

Lemma tied_same_role_ranked_in_input_order_witness :
  0 < 1800 /\ List.length Sample.tiedSameRole = 10%nat
  /\ NoDup (map puuid Sample.tiedSameRole)
  /\ StrMap.keys (rankPlayersInMatch Sample.tiedSameRole 1800 None)
     = map puuid Sample.tiedSameRole
  /\ map rank (StrMap.values
                 (rankPlayersInMatch Sample.tiedSameRole 1800 None))
     = seq 1 10.
Proof.
  assert (Hd : 0 < 1800) by (unfold Qlt; simpl; lia).
  assert (Hnd : NoDup (map puuid Sample.tiedSameRole)).
  { simpl.
    repeat (constructor;
            [ simpl; intros H;
              repeat (destruct H as [H|H]; [discriminate H|]); exact H |]).
    constructor. }
  assert (Hstats : forall p q,
            In p Sample.tiedSameRole -> In q Sample.tiedSameRole ->
            rawStats p = rawStats q /\ teamPosition p = teamPosition q).
  { intros p q Hp Hq. simpl in Hp, Hq.
    repeat (destruct Hp as [<-|Hp]; [|]); try contradiction;
      repeat (destruct Hq as [<-|Hq]; [|]); try contradiction;
      split; reflexivity. }
  assert (Hsize : forall p q,
            In p Sample.tiedSameRole -> In q Sample.tiedSameRole ->
            teamSize Sample.tiedSameRole (teamId p)
            = teamSize Sample.tiedSameRole (teamId q)).
  { intros p q Hp Hq. simpl in Hp, Hq.
    repeat (destruct Hp as [<-|Hp]; [|]); try contradiction;
      repeat (destruct Hq as [<-|Hq]; [|]); try contradiction;
      reflexivity. }
  pose proof (tied_same_role_ranked_in_input_order Sample.tiedSameRole
                1800 None Hd eq_refl Hnd Hstats Hsize) as H.
  exact (conj Hd (conj eq_refl (conj Hnd
           (conj (proj1 (proj2 H)) (proj1 (proj2 (proj2 H))))))).
Defined.

(** C9 as worded fails: ten participants with identical counters and win
    flags, two teams of five, but each team with its five roles.  The role
    weights pull the scores apart, so the scores are not all equal and the
    first participant of the array does not get rank 1. *)
Lemma tied_stats_with_roles_counterexample :
  let ps := Sample.tiedMatch in
  let result := rankPlayersInMatch ps 1800 None in
  (forall p q, In p ps -> In q ps -> rawStats p = rawStats q)
  /\ ~ (forall id1 v1 id2 v2,
           StrMap.get id1 result = Some v1 ->
           StrMap.get id2 result = Some v2 -> score v1 == score v2)
  /\ ~ (forall i p, nth_error ps i = Some p ->
           exists v, StrMap.get (puuid p) result = Some v
                     /\ rank v = (i + 1)%nat).
Proof.
  intros ps result.
  assert (Hscores :
            match StrMap.get "a1" result, StrMap.get "a2" result with
            | Some v1, Some v2 => Qeq_bool (score v1) (score v2)
            | _, _ => true
            end = false) by (vm_compute; reflexivity).
  assert (Hrank :
            match StrMap.get "a1" result with
            | Some v => Nat.eqb (rank v) 1
            | None => true
            end = false) by (vm_compute; reflexivity).
  split; [|split].
  - intros p q Hp Hq. simpl in Hp, Hq.
    repeat (destruct Hp as [<-|Hp]; [|]); try contradiction;
      repeat (destruct Hq as [<-|Hq]; [|]); try contradiction;
      reflexivity.
  - intros H. clear Hrank.
    destruct (StrMap.get "a1" result) as [v1|] eqn:E1;
      [|discriminate Hscores].
    destruct (StrMap.get "a2" result) as [v2|] eqn:E2;
      [|discriminate Hscores].
    specialize (H "a1" v1 "a2" v2 E1 E2).
    apply Qeq_bool_iff in H. rewrite H in Hscores. discriminate Hscores.
  - intros H. clear Hscores.
    destruct (H 0%nat (Sample.tied "a1" "TOP" 100) eq_refl)
      as (v & Hg & Hrk).
    change (puuid (Sample.tied "a1" "TOP" 100)) with "a1" in Hg.
    rewrite Hg, Hrk in Hrank. discriminate Hrank.
Qed.

(** ** C6: matches without the target player *)

Lemma find_hasTarget (target : string) (m : MatchData) :
  hasTarget target m = false -> findParticipant target m = None.
Proof.
  unfold hasTarget, findParticipant.
  induction (participants m) as [|p ps IH]; simpl; [reflexivity|].
  destruct (String.eqb (puuid p) target); simpl; [discriminate | exact IH].
Qed.

Lemma recent_step_absent (target : string) (acc : Recent.Acc)
    (m : MatchData) :
  hasTarget target m = false -> Recent.step target acc m = acc.
Proof.
  intros H. unfold Recent.step. now rewrite find_hasTarget.
Qed.

Lemma season_step_absent (target : string) (acc : Season.Acc)
    (m : MatchData) :
  hasTarget target m = false -> Season.step target acc m = acc.
Proof.
  intros H. unfold Season.step. now rewrite find_hasTarget.
Qed.

(** A loop whose body leaves the state alone on the elements that fail a
    test runs the same on the elements that pass it. *)
Lemma fold_left_skip {S A : Type} (step : S -> A -> S) (keep : A -> bool)
    (l : list A) :
  (forall s a, keep a = false -> step s a = s) ->
  forall s, fold_left step l s = fold_left step (filter keep l) s.
Proof.
  intros Hskip. induction l as [|a l IH]; intros s; simpl; [reflexivity|].
  destruct (keep a) eqn:E; simpl.
  - apply IH.
  - rewrite Hskip by assumption. apply IH.
Qed.

(** C6.  In both windows a match without a snapshot of the target player
    contributes nothing: aggregating a list of matches gives the same record
    (wins, losses, win rate, KDA averages, lane table, champion table,
    impact list, average and trend) as aggregating the matches of the list
    that contain the target player. *)
Theorem aggregation_ignores_matches_without_target :
  forall (matches : list MatchData) (target : string),
    Recent.analysis matches target
    = Recent.analysis (filter (hasTarget target) matches) target
    /\ Season.analysis matches target
       = Season.analysis (filter (hasTarget target) matches) target.
Proof.
  intros matches target. split.
  - unfold Recent.analysis.
    pose proof (fold_left_skip (Recent.step target) (hasTarget target) matches
                  (fun s a => recent_step_absent target s a) Recent.init)
      as E.
    destruct matches as [|m ms]; [reflexivity|].
    rewrite E.
    destruct (filter (hasTarget target) (m :: ms)); reflexivity.
  - unfold Season.analysis.
    pose proof (fold_left_skip (Season.step target) (hasTarget target) matches
                  (fun s a => season_step_absent target s a) Season.init)
      as E.
    destruct matches as [|m ms]; [reflexivity|].
    rewrite E.
    destruct (filter (hasTarget target) (m :: ms)); reflexivity.
Qed.

(** A match of strangers in front of the seven-match window changes
    nothing in either record. *)
Example strangers_match_is_ignored :
  Recent.analysis (Sample.strangersMatch :: Sample.window7) "me"
  = Recent.analysis Sample.window7 "me"
  /\ Season.analysis (Sample.strangersMatch :: Sample.window7) "me"
     = Season.analysis Sample.window7 "me".
Proof. split; vm_compute; reflexivity. Qed.

(** ** C4: the trend *)

Lemma fold_left_plus (l : list Q) (a : Q) :
  fold_left Qplus l a == a + Spec.total l.
Proof.
  revert a. induction l as [|x l IH]; intros a; simpl.
  - ring.
  - rewrite IH. unfold Spec.total. simpl. ring.
Qed.

Lemma sum_total (l : list Q) : Js.sum l == Spec.total l.
Proof. unfold Js.sum. rewrite fold_left_plus. ring. Qed.

Lemma averageOr_average (l : list Q) (dflt : Q) :
  averageOr l dflt == match l with [] => dflt | _ :: _ => Spec.average l end.
Proof.
  unfold averageOr. destruct l as [|x l]; [reflexivity|].
  cbn [List.length Nat.ltb Nat.leb]. unfold Spec.average, Js.len.
  now rewrite sum_total.
Qed.

Lemma average_or_zero (l : list Q) : averageOr l 0 == Spec.average l.
Proof. rewrite averageOr_average. destruct l; reflexivity. Qed.

Lemma trend_empty_fallback (impactScores : list Q) :
  Recent.trend impactScores (averageOr impactScores 0)
  == Spec.trendEmptyFallback impactScores.
Proof.
  unfold Recent.trend, Spec.trendEmptyFallback.
  change (Js.slice 0 5 impactScores) with (firstn 5 impactScores).
  change (Js.slice 5 10 impactScores)
    with (firstn 5 (skipn 5 impactScores)).
  cbv zeta. generalize (firstn 5 (skipn 5 impactScores)) as prev5.
  intros prev5. rewrite average_or_zero, (averageOr_average prev5).
  destruct prev5; [rewrite average_or_zero|]; reflexivity.
Qed.

(** C4 as worded fails on the scenario of the design document: a recent
    window of seven matches with impact scores 8, 7, 9, 6, 5, 4, 3.  The
    second slice [4, 3] is not empty, so the code subtracts its average 3.5
    and the trend is 7 - 3.5 = 3.5; the worded rule (fall back to the window
    average 6 because fewer than five entries remain) would give 1. *)
Lemma trend_seven_matches_counterexample :
  let a := Recent.analysis Sample.window7 "me" in
  Forall2 Qeq (Recent.impactScores a) [8; 7; 9; 6; 5; 4; 3]
  /\ Recent.recentTrend a == 3.5
  /\ Spec.trend (Recent.impactScores a) == 1
  /\ ~ Recent.recentTrend a == Spec.trend (Recent.impactScores a).
Proof.
  intros a. subst a. split; [|split; [|split]].
  - vm_compute. repeat constructor.
  - vm_compute. reflexivity.
  - vm_compute. reflexivity.
  - vm_compute. intros H. discriminate H.
Qed.

(** C4 (amended).  The trend of the recent window is the average of its
    first five impact scores minus the average of the scores at indices 5
    to 9; the window average is the baseline only when that second slice is
    empty.  For the seven-match window 8, 7, 9, 6, 5, 4, 3 the trend is
    7 - 3.5 = 3.5. *)
Theorem trend_baseline_falls_back_only_when_empty :
  (forall (window : list MatchData) (target : string),
      Recent.recentTrend (Recent.analysis window target)
      == Spec.trendEmptyFallback
           (Recent.impactScores (Recent.analysis window target)))
  /\ Recent.recentTrend (Recent.analysis Sample.window7 "me") == 7 - 3.5.
Proof.
  split.
  - intros window target. unfold Recent.analysis.
    destruct window as [|m ms]; [reflexivity|].
    unfold Recent.finish.
    cbn [Recent.recentTrend Recent.impactScores].
    apply trend_empty_fallback.
  - vm_compute. reflexivity.
Qed.

(** ** C8: the best champion *)

(** The head of the sorted array of candidates: a candidate whose win
    ratio no candidate exceeds. *)
Lemma best_is_maximal (values : list ChampionStats.t) (b : BestChamp) :
  bestChampOf values = Some b ->
  exists c,
    In c values /\ 3 <= ChampionStats.games c
    /\ bc_name b = ChampionStats.name c
    /\ bc_games b = ChampionStats.games c
    /\ bc_winrate b = Js.round (champWinRatio c * 100)
    /\ forall c', In c' values -> 3 <= ChampionStats.games c' ->
                  champWinRatio c' <= champWinRatio c.
Proof.
  unfold bestChampOf.
  set (champList := filter (fun c => Js.leb 3 (ChampionStats.games c)) values).
  assert (Hin : forall c, In c champList
                          <-> In c values /\ 3 <= ChampionStats.games c).
  { intros c. unfold champList. rewrite filter_In, leb_true. reflexivity. }
  destruct champList as [|c0 cl] eqn:E; [discriminate|].
  rewrite <- E in *.
  pose proof (sort_perm
                (fun a b : ChampionStats.t =>
                   ChampionStats.wins b / ChampionStats.games b
                   - ChampionStats.wins a / ChampionStats.games a)
                champList) as Hperm.
  pose proof (sort_sorted champWinRatio champList) as Hsorted.
  change (fun a b : ChampionStats.t => champWinRatio b - champWinRatio a)
    with (fun a b : ChampionStats.t =>
            ChampionStats.wins b / ChampionStats.games b
            - ChampionStats.wins a / ChampionStats.games a)
    in Hsorted.
  destruct (sort _ champList) as [|best rest] eqn:Es.
  { apply Permutation_nil in Hperm. rewrite E in Hperm. discriminate. }
  intros [= <-]. exists best. cbn [bc_name bc_games bc_winrate].
  assert (Hbest : In best champList)
    by (apply (Permutation_in _ Hperm); now left).
  apply Hin in Hbest. destruct Hbest as [Hv Hg].
  repeat split; try assumption.
  intros c' Hc' Hg'.
  assert (Hc : In c' (best :: rest)).
  { apply (Permutation_in _ (Permutation_sym Hperm)). apply Hin. auto. }
  inversion Hsorted as [|? ? _ Hall]; subst.
  destruct Hc as [<-|Hc]; [qlra|].
  rewrite Forall_forall in Hall. now apply Hall.
Qed.

Lemma best_none (values : list ChampionStats.t) :
  bestChampOf values = None <->
  forall c, In c values -> ChampionStats.games c < 3.
Proof.
  unfold bestChampOf.
  set (champList := filter (fun c => Js.leb 3 (ChampionStats.games c)) values).
  assert (Hin : forall c, In c champList
                          <-> In c values /\ 3 <= ChampionStats.games c).
  { intros c. unfold champList. rewrite filter_In, leb_true. reflexivity. }
  destruct champList as [|c0 cl] eqn:E.
  - split; [|reflexivity]. intros _ c Hc.
    apply Qnot_le_lt. intro Hg. apply (Hin c). auto.
  - rewrite <- E in *. split.
    + destruct (sort _ champList) eqn:Es; [|discriminate].
      exfalso. eapply sort_nonempty; [|exact Es].
      rewrite E. discriminate.
    + intros H. exfalso.
      assert (Hc : In c0 champList) by (rewrite E; now left).
      apply Hin in Hc. destruct Hc as [Hv Hg].
      specialize (H c0 Hv). qlra.
Qed.

(** C8 as worded fails: in a season with three games, all won, on one
    champion and ten games, eight won, on another, the best champion is the
    three-game one (win rate 100), not the highest-win-rate champion among
    those with five games or more (the other one, with 80); and the
    strength rule does not fire although that other champion has five
    games and at least 70 percent. *)
Lemma best_champion_three_games_counterexample :
  let a := Analysis.of_matches Sample.season13 "me" in
  bestChamp a
  = Some {| bc_name := "Ahri"; bc_winrate := 100; bc_games := 3 |}
  /\ option_map ChampionStats.name
       (Spec.bestChampion (StrMap.values (Analysis.champions a)))
     = Some "Garen"
  /\ option_map (fun c => Js.round (champWinRatio c * 100))
       (Spec.bestChampion (StrMap.values (Analysis.champions a)))
     = Some 80
  /\ bestChampRule (bestChamp a) = false.
Proof.
  intros a. subst a. split; [|split; [|split]]; vm_compute; reflexivity.
Qed.

(** Rounding to the nearest whole number moves a value by at most one
    half. *)
Lemma round_near (x : Q) :
  x - (1 # 2) <= Js.round x <= x + (1 # 2).
Proof.
  unfold Js.round.
  pose proof (Qfloor_le (x + (1 # 2))) as Hle.
  pose proof (Qlt_floor (x + (1 # 2))) as Hlt.
  rewrite inject_Z_plus in Hlt. change (inject_Z 1) with 1 in Hlt.
  split; qlra.
Qed.

(** C8 (amended).  The best champion is a champion with the highest win
    rate among those with at least three games (none if there is no such
    champion), and its metric is that win rate in percent, rounded to a
    whole number: a whole number at most one half away from it.  The
    strength rule fires only when this champion has at least five games
    and a metric of at least 70, hence a win rate of at least 69.5
    percent; whenever it fires, the champion it names has the highest win
    rate among the champions with at least three games, hence among those
    with at least five. *)
Theorem best_champion_needs_three_games :
  forall (a : Analysis.t),
    let values := StrMap.values (Analysis.champions a) in
    (bestChamp a = None <->
     forall c, In c values -> ChampionStats.games c < 3)
    /\ forall b,
        bestChamp a = Some b ->
        exists c,
          In c values /\ 3 <= ChampionStats.games c
          /\ bc_name b = ChampionStats.name c
          /\ bc_games b = ChampionStats.games c
          /\ (exists z, bc_winrate b = inject_Z z)
          /\ champWinRatio c * 100 - (1 # 2) <= bc_winrate b
             <= champWinRatio c * 100 + (1 # 2)
          /\ (forall c', In c' values -> 3 <= ChampionStats.games c' ->
                         champWinRatio c' <= champWinRatio c)
          /\ (bestChampRule (bestChamp a) = true ->
              5 <= ChampionStats.games c /\ 70 <= bc_winrate b
              /\ 69.5 <= champWinRatio c * 100
              /\ forall c', In c' values -> 5 <= ChampionStats.games c' ->
                            champWinRatio c' <= champWinRatio c).
Proof.
  intros a values. unfold bestChamp. fold values. split.
  - apply best_none.
  - intros b Hb.
    destruct (best_is_maximal values b Hb)
      as (c & Hv & Hg & Hn & Hgm & Hw & Hmax).
    pose proof (round_near (champWinRatio c * 100)) as Hnear.
    rewrite <- Hw in Hnear.
    exists c. do 4 (split; [assumption|]).
    split; [rewrite Hw; unfold Js.round; eexists; reflexivity|].
    split; [exact Hnear|]. split; [exact Hmax|].
    rewrite Hb. unfold bestChampRule. rewrite andb_true_iff, !leb_true.
    intros [Hw70 Hg5]. split; [now rewrite <- Hgm|]. split; [exact Hw70|].
    split; [qlra|].
    intros c' Hc' Hg'. apply Hmax; [assumption | qlra].
Qed.

Lemma best_champion_needs_three_games_witness :
  let a := Analysis.of_matches Sample.season10 "me" in
  let b := {| bc_name := "Garen"; bc_winrate := 80; bc_games := 10 |} in
  bestChamp a = Some b
  /\ bestChampRule (bestChamp a) = true
  /\ exists c,
       In c (StrMap.values (Analysis.champions a))
       /\ bc_name b = ChampionStats.name c
       /\ 5 <= ChampionStats.games c
       /\ 69.5 <= champWinRatio c * 100
       /\ forall c', In c' (StrMap.values (Analysis.champions a)) ->
                     5 <= ChampionStats.games c' ->
                     champWinRatio c' <= champWinRatio c.
Proof.
  intros a b.
  assert (Hb : bestChamp a = Some b) by (vm_compute; reflexivity).
  assert (Hr : bestChampRule (bestChamp a) = true)
    by (vm_compute; reflexivity).
  destruct (proj2 (best_champion_needs_three_games a) b Hb)
    as (c & Hv & _ & Hn & _ & _ & _ & _ & Hrule).
  destruct (Hrule Hr) as (Hg5 & _ & Hpct & Hmax).
  exact (conj Hb (conj Hr
           (ex_intro _ c
              (conj Hv (conj Hn (conj Hg5 (conj Hpct Hmax))))))).
Defined.

(** ** C7: stability *)

Local Open Scope R_scope.

Lemma Q2R_len {A : Type} (l : list A) : Q2R (Js.len l) = INR (List.length l).
Proof.
  unfold Js.len, Q2R. simpl. rewrite INR_IZR_INZ. field.
Qed.

Lemma Q2R_fold_plus (l : list Q) (a : Q) :
  Q2R (fold_left Qplus l a) = Q2R a + Spec.totalR (map Q2R l).
Proof.
  revert a. induction l as [|x l IH]; intros a; simpl.
  - ring.
  - rewrite IH, Q2R_plus. ring.
Qed.

Lemma Q2R_fold_squares (l : list Q) (m a : Q) :
  Q2R (fold_left (fun sum score => (sum + (score - m) ^ 2)%Q) l a)
  = Q2R a + Spec.totalR (map (fun x => (Q2R x - Q2R m) ^ 2) l).
Proof.
  revert a. induction l as [|x l IH]; intros a;
    cbn [fold_left map Spec.totalR fold_right].
  - ring.
  - rewrite IH, Q2R_plus. unfold Qpower. simpl Qpower_positive.
    rewrite Q2R_mult, Q2R_minus.
    change (fold_right Rplus 0
              (map (fun x0 : Q => (Q2R x0 - Q2R m) ^ 2) l))
      with (Spec.totalR (map (fun x0 : Q => (Q2R x0 - Q2R m) ^ 2) l)).
    ring.
Qed.

Lemma len_nonzero {A : Type} (l : list A) :
  l <> [] -> ~ (Js.len l == 0)%Q.
Proof.
  intros Hl E. apply Hl. destruct l; [reflexivity|].
  unfold Js.len, Qeq in E. simpl in E. lia.
Qed.

Lemma Q2R_average (l : list Q) :
  l <> [] -> Q2R (averageOr l 0) = Spec.meanR l.
Proof.
  intros Hl. unfold averageOr, Spec.meanR.
  destruct l as [|x l]; [contradiction|].
  cbn [List.length Nat.ltb Nat.leb].
  rewrite Q2R_div by (apply len_nonzero; discriminate).
  unfold Js.sum. rewrite Q2R_fold_plus, Q2R_len.
  rewrite RMicromega.Q2R_0. cbn [List.length]. f_equal. ring.
Qed.

(** With the window mean for [avgImpact] the variance of the code is the
    population variance. *)
Lemma Q2R_variance (l : list Q) :
  l <> [] ->
  sqrt (Q2R (varianceOf l (averageOr l 0))) = Spec.popStdDev l.
Proof.
  intros Hl. unfold varianceOf, Spec.popStdDev. f_equal.
  rewrite Q2R_div by (now apply len_nonzero).
  rewrite Q2R_fold_squares, Q2R_len, Q2R_average by assumption.
  rewrite RMicromega.Q2R_0. f_equal. ring.
Qed.

(** Comparing a square root with a positive bound is comparing its argument
    with the square of the bound. *)
Lemma sqrt_lt_iff (x t : R) : 0 < t -> (sqrt x < t <-> x < t * t).
Proof.
  intros Ht. split; intros H.
  - destruct (Rlt_dec x (t * t)) as [|Hn]; [assumption|].
    apply Rnot_lt_le in Hn. apply sqrt_le_1_alt in Hn.
    rewrite sqrt_square in Hn by lra. lra.
  - destruct (Rle_dec x 0) as [Hx|Hx].
    + rewrite sqrt_neg_0 by assumption. exact Ht.
    + replace t with (sqrt (t * t)) at 1 by (apply sqrt_square; lra).
      apply sqrt_lt_1_alt. lra.
Qed.

Lemma sqrt_Q2R_lt (v t : Q) :
  (0 < t)%Q -> (sqrt (Q2R v) < Q2R t <-> (v < t * t)%Q).
Proof.
  intros Ht. apply Qlt_Rlt in Ht. rewrite RMicromega.Q2R_0 in Ht.
  rewrite sqrt_lt_iff by assumption. rewrite <- Q2R_mult.
  split; [apply Rlt_Qlt | apply Qlt_Rlt].
Qed.

(** The decision on the variance is the decision [getStability] takes. *)
Lemma getStability_exec_agrees (a : Analysis.t) :
  getStability a = getStability_exec a.
Proof.
  unfold getStability, getStability_exec.
  destruct (List.length (Analysis.impactScores a) <? 5)%nat; [reflexivity|].
  cbv zeta.
  set (v := varianceOf (Analysis.impactScores a) (Analysis.avgImpact a)).
  pose proof (sqrt_Q2R_lt v 1 eq_refl) as H1.
  pose proof (sqrt_Q2R_lt v 2 eq_refl) as H2.
  rewrite RMicromega.Q2R_1 in H1.
  replace (Q2R 2) with 2 in H2 by (unfold Q2R; simpl; field).
  destruct (Rlt_dec (sqrt (Q2R v)) 1) as [L1|L1].
  - apply H1 in L1.
    assert (E : Js.ltb v 1 = true) by (apply ltb_true; Lqa.lra).
    now rewrite E.
  - assert (E : Js.ltb v 1 = false).
    { apply ltb_false. apply Qnot_lt_le. intro C. apply L1, H1. Lqa.lra. }
    rewrite E.
    destruct (Rlt_dec (sqrt (Q2R v)) 2) as [L2|L2].
    + apply H2 in L2.
      assert (E2 : Js.ltb v 4 = true) by (apply ltb_true; Lqa.lra).
      now rewrite E2.
    + assert (E2 : Js.ltb v 4 = false).
      { apply ltb_false. apply Qnot_lt_le. intro C. apply L2, H2. Lqa.lra. }
      now rewrite E2.
Qed.

(** ** C7: the label the program computes *)

Lemma fold_left_map_add {A : Type} (f : A -> F64.t) (l : list A)
    (start : F64.t) :
  fold_left (fun sum x => F64.add sum (f x)) l start
  = fold_left F64.add (map f l) start.
Proof.
  revert start. induction l as [|x l IH]; intros start; [reflexivity|].
  cbn [fold_left map]. apply IH.
Qed.

(** The deviation [getStability] takes the root of is the population
    standard deviation in double precision, when [avgImpact] is the
    average of the window. *)
Lemma getStability_deviation (l : list F64.t) :
  (5 <= List.length l)%nat ->
  Double.getStability (Double.analysis l)
  = if F64.ltb (Spec.popStdDev64 l) (F64.of_Z 1) then Wysoka
    else if F64.ltb (Spec.popStdDev64 l) (F64.of_Z 2) then Srednia
    else Niska.
Proof.
  intros H. unfold Double.getStability, Double.analysis.
  cbn [Double.impactScores Double.avgImpact].
  destruct (List.length l <? 5)%nat eqn:E;
    [apply Nat.ltb_lt in E; lia|].
  cbv zeta. rewrite fold_left_map_add.
  assert (Hm : Double.averageOf l = Spec.mean64 l).
  { unfold Double.averageOf, Spec.mean64, Spec.sum64.
    destruct l; reflexivity. }
  rewrite Hm. reflexivity.
Qed.

(** C7 as worded fails.  The impact scores 0, 0, 0, 0, 0, 2, 4, 4, 5 are
    doubles; their population standard deviation is exactly 2, which is
    not below 2, so the label should be the low one.  The program finds
    an average of 15 / 9 rounded, a variance just below 4 and a
    deviation of 2 - 2^-52, and answers with the medium label. *)
Lemma stability_exact_deviation_two_counterexample :
  let scores := [0; 0; 0; 0; 0; 2; 4; 4; 5]%Z in
  let exact := map inject_Z scores in
  let doubles := map F64.of_Z scores in
  Forall2 (fun d q => F64.is_finite d = true /\ (F64.to_Q d == q)%Q)
          doubles exact
  /\ (5 <= List.length exact)%nat
  /\ Spec.popStdDev exact = 2
  /\ ~ Spec.popStdDev exact < 2
  /\ Spec.popStdDev64 doubles
     = S754_finite false 9007199254740991 (-52)
  /\ Double.getStability (Double.analysis doubles) = Srednia.
Proof.
  intros scores exact doubles.
  assert (Hdev : Spec.popStdDev exact = 2).
  { rewrite <- Q2R_variance by discriminate.
    assert (Hv : (varianceOf exact (averageOr exact 0) == 4)%Q)
      by (vm_compute; reflexivity).
    rewrite (Qeq_eqR _ _ Hv).
    replace (Q2R 4) with (2 * 2) by (unfold Q2R; simpl; field).
    apply sqrt_square. lra. }
  split; [|split; [|split; [|split; [|split]]]].
  - subst doubles exact scores. cbn [map].
    repeat (constructor; [split; vm_compute; reflexivity|]).
    constructor.
  - subst exact scores. cbn [map List.length]. lia.
  - exact Hdev.
  - rewrite Hdev. lra.
  - vm_compute. reflexivity.
  - vm_compute. reflexivity.
Qed.

(** C7 (amended).  With fewer than five impact samples the stability is
    the label for too little data, not a number.  With five or more it
    is decided by the population standard deviation of the window's
    impact scores as double-precision arithmetic yields it: high when
    that value is below 1, medium when it is not below 1 but below 2,
    low otherwise. *)
Theorem stability_classifies_computed_deviation :
  forall (l : list F64.t),
    let a := Double.analysis l in
    ((List.length l < 5)%nat -> Double.getStability a = MaloDanych)
    /\ ((5 <= List.length l)%nat ->
        let stdDev := Spec.popStdDev64 l in
        Double.getStability a <> MaloDanych
        /\ (F64.ltb stdDev (F64.of_Z 1) = true ->
            Double.getStability a = Wysoka)
        /\ (F64.ltb stdDev (F64.of_Z 1) = false ->
            F64.ltb stdDev (F64.of_Z 2) = true ->
            Double.getStability a = Srednia)
        /\ (F64.ltb stdDev (F64.of_Z 1) = false ->
            F64.ltb stdDev (F64.of_Z 2) = false ->
            Double.getStability a = Niska)).
Proof.
  intros l a. subst a. split.
  - intros H. unfold Double.getStability, Double.analysis.
    cbn [Double.impactScores]. apply Nat.ltb_lt in H. now rewrite H.
  - intros H. cbv zeta. rewrite (getStability_deviation l H).
    destruct (F64.ltb (Spec.popStdDev64 l) (F64.of_Z 1)) eqn:E1.
    + split; [discriminate|]. split; [reflexivity|].
      split; intros C; discriminate C.
    + destruct (F64.ltb (Spec.popStdDev64 l) (F64.of_Z 2)) eqn:E2.
      * split; [discriminate|]. split; [intros C; discriminate C|].
        split; [reflexivity|]. intros _ C. discriminate C.
      * split; [discriminate|]. split; [intros C; discriminate C|].
        split; [intros _ C; discriminate C | reflexivity].
Qed.

Lemma stability_classifies_computed_deviation_witness :
  Double.getStability (Double.analysis (map F64.of_Z [5; 5; 5]%Z))
  = MaloDanych
  /\ Double.getStability
       (Double.analysis (map F64.of_Z [5; 5; 5; 5; 5; 5]%Z))
     = Wysoka
  /\ Double.getStability
       (Double.analysis (map F64.of_Z [0; 0; 0; 10; 10; 10]%Z))
     = Niska.
Proof.
  split; [|split].
  - apply (proj1 (stability_classifies_computed_deviation
                    (map F64.of_Z [5; 5; 5]%Z))).
    cbn [map List.length]. lia.
  - assert (H5 : (5 <= List.length
                         (map F64.of_Z [5; 5; 5; 5; 5; 5]%Z))%nat)
      by (cbn [map List.length]; lia).
    apply (proj1 (proj2 (proj2 (stability_classifies_computed_deviation
                                  (map F64.of_Z [5; 5; 5; 5; 5; 5]%Z))
                           H5))).
    vm_compute. reflexivity.
  - assert (H5 : (5 <= List.length
                         (map F64.of_Z [0; 0; 0; 10; 10; 10]%Z))%nat)
      by (cbn [map List.length]; lia).
    apply (proj2 (proj2 (proj2 (stability_classifies_computed_deviation
                                  (map F64.of_Z [0; 0; 0; 10; 10; 10]%Z))
                           H5))).
    + vm_compute. reflexivity.
    + vm_compute. reflexivity.
Defined.

Local Close Scope R_scope.

(** * Further properties of the aggregation *)

(** ** The two windows run the same loop *)

Lemma forget_step (target : string) (acc : Season.Acc) (m : MatchData) :
  Recent.step target (forgetChampions acc) m
  = forgetChampions (Season.step target acc m).
Proof.
  unfold Recent.step, Season.step.
  destruct (findParticipant target m); reflexivity.
Qed.

Lemma forget_fold (target : string) (matches : list MatchData) :
  forall acc,
    fold_left (Recent.step target) matches (forgetChampions acc)
    = forgetChampions (fold_left (Season.step target) matches acc).
Proof.
  induction matches as [|m ms IH]; intros acc; simpl; [reflexivity|].
  rewrite forget_step. apply IH.
Qed.

(** ** The loop as a fold over the target player's snapshots *)

Lemma season_fold_snapshots (target : string) (matches : list MatchData) :
  forall acc,
    fold_left (Season.step target) matches acc
    = fold_left seasonFound (targetSnapshots target matches) acc.
Proof.
  induction matches as [|m ms IH]; intros acc; [reflexivity|].
  cbn [fold_left targetSnapshots flat_map].
  fold (targetSnapshots target ms). rewrite fold_left_app, IH.
  unfold Season.step.
  destruct (findParticipant target m); reflexivity.
Qed.

(** An invariant of a loop, read off the elements processed so far. *)
Lemma fold_left_processed {S A : Type} (step : S -> A -> S)
    (R : list A -> S -> Prop) (init : S) :
  R [] init ->
  (forall done s a, R done s -> R (done ++ [a]) (step s a)) ->
  forall l, R l (fold_left step l init).
Proof.
  intros Hinit Hstep l. induction l as [|a l IH] using rev_ind.
  - exact Hinit.
  - rewrite fold_left_app. simpl. now apply Hstep.
Qed.

Lemma len_snoc {A : Type} (l : list A) (a : A) :
  Js.len (l ++ [a]) == Js.len l + 1.
Proof.
  unfold Js.len. rewrite length_app. simpl List.length.
  rewrite Nat2Z.inj_add, inject_Z_plus. reflexivity.
Qed.

Lemma len_nonneg {A : Type} (l : list A) : 0 <= Js.len l.
Proof.
  unfold Js.len. change 0 with (inject_Z 0).
  rewrite <- Zle_Qle. lia.
Qed.

Lemma countIf_snoc {A : Type} (f : A -> bool) (l : list A) (a : A) :
  countIf f (l ++ [a]) == countIf f l + (if f a then 1 else 0).
Proof.
  unfold countIf. rewrite filter_app. simpl.
  destruct (f a).
  - apply len_snoc.
  - rewrite app_nil_r. ring.
Qed.

Lemma countIf_split {A : Type} (f : A -> bool) (l : list A) :
  countIf f l + countIf (fun a => negb (f a)) l == Js.len l.
Proof.
  induction l as [|a l IH] using rev_ind; [reflexivity|].
  rewrite !countIf_snoc, len_snoc, <- IH.
  destruct (f a); simpl; ring.
Qed.

Lemma total_snoc (l : list Q) (a : Q) :
  Spec.total (l ++ [a]) == Spec.total l + a.
Proof.
  unfold Spec.total. induction l as [|x l IH]; simpl; [ring|].
  rewrite IH. ring.
Qed.

Lemma seasonCounts_fold (snaps : list (MatchParticipant * Q)) :
  seasonCounts snaps (fold_left seasonFound snaps Season.init).
Proof.
  apply fold_left_processed.
  - repeat split; reflexivity.
  - intros done acc s (Hi & Hw & Hl & Hk & Hd & Ha).
    unfold seasonCounts, seasonFound. cbn [Season.a_impactScores
      Season.a_wins Season.a_losses Season.a_totalKills
      Season.a_totalDeaths Season.a_totalAssists].
    rewrite !map_app. cbn [map]. rewrite !countIf_snoc, !total_snoc.
    unfold snapshotWon at 2 4.
    split; [now rewrite Hi|].
    destruct (win (fst s)); cbn [negb];
      rewrite Hw, Hl, Hk, Hd, Ha; repeat split; ring.
Qed.

Lemma season_analysis_finish (matches : list MatchData) (target : string) :
  Season.analysis matches target
  = Season.finish
      (fold_left seasonFound (targetSnapshots target matches) Season.init).
Proof.
  unfold Season.analysis. destruct matches as [|m ms]; [reflexivity|].
  now rewrite season_fold_snapshots.
Qed.

Lemma recent_analysis_finish (matches : list MatchData) (target : string) :
  Recent.analysis matches target
  = Recent.finish
      (forgetChampions
         (fold_left seasonFound (targetSnapshots target matches)
            Season.init)).
Proof.
  unfold Recent.analysis. destruct matches as [|m ms]; [reflexivity|].
  change Recent.init with (forgetChampions Season.init).
  now rewrite forget_fold, season_fold_snapshots.
Qed.

(** On one and the same list of matches the recent and the season
    aggregation agree on every field they share: the impact list and its
    average, the win rate, wins and losses, the lane table and the KDA
    averages. *)
Theorem windows_agree_on_shared_fields :
  forall (matches : list MatchData) (target : string),
    let r := Recent.analysis matches target in
    let s := Season.analysis matches target in
    Recent.impactScores r = Season.impactScores s
    /\ Recent.avgImpact r = Season.avgImpact s
    /\ Recent.winrate r = Season.winrate s
    /\ Recent.wins r = Season.wins s
    /\ Recent.losses r = Season.losses s
    /\ Recent.lanes r = Season.lanes s
    /\ Recent.avgKDA r = Season.avgKDA s
    /\ Recent.wins r + Recent.losses r = Season.totalGames s.
Proof.
  intros matches target. cbv zeta.
  rewrite recent_analysis_finish, season_analysis_finish.
  generalize (fold_left seasonFound (targetSnapshots target matches)
                Season.init) as acc.
  intros acc. repeat split; reflexivity.
Qed.

Lemma season_impactScores (matches : list MatchData) (target : string) :
  Season.impactScores (Season.analysis matches target)
  = map snapshotImpact (targetSnapshots target matches).
Proof.
  rewrite season_analysis_finish. unfold Season.finish.
  cbn [Season.impactScores].
  apply (seasonCounts_fold (targetSnapshots target matches)).
Qed.

Lemma recent_impactScores (matches : list MatchData) (target : string) :
  Recent.impactScores (Recent.analysis matches target)
  = map snapshotImpact (targetSnapshots target matches).
Proof.
  rewrite recent_analysis_finish. unfold Recent.finish, forgetChampions.
  cbn [Recent.impactScores Recent.a_impactScores].
  apply (seasonCounts_fold (targetSnapshots target matches)).
Qed.

(** The impact list of a window holds, in the order of the matches, the
    impact of the target player's snapshot in each match that has one (the
    first snapshot with the player's id), and nothing else. *)
Theorem impact_list_follows_match_order :
  forall (matches : list MatchData) (target : string),
    Season.impactScores (Season.analysis matches target)
    = map snapshotImpact (targetSnapshots target matches)
    /\ Recent.impactScores (Recent.analysis matches target)
       = map snapshotImpact (targetSnapshots target matches).
Proof.
  intros matches target. split.
  - apply season_impactScores.
  - apply recent_impactScores.
Qed.

(** ** Counts, win rate and averages *)

(** A rounded percentage of a part in a whole is a whole number from 0 to
    100. *)
Lemma round_ratio_bounds (part whole : Q) :
  0 <= part <= whole -> 0 < whole ->
  0 <= Js.round ((part / whole) * 100) <= 100.
Proof.
  intros [Hp Hw] Ht.
  assert (H0 : 0 <= part / whole) by now apply div_nonneg.
  assert (H1 : part / whole <= 1)
    by (apply Qle_shift_div_r; [exact Ht | qlra]).
  set (x := part / whole * 100 + (1 # 2)).
  assert (Hlo : (Qfloor 0 <= Qfloor x)%Z)
    by (apply Qfloor_resp_le; unfold x; qlra).
  assert (Hhi : (Qfloor x <= Qfloor (201 # 2))%Z)
    by (apply Qfloor_resp_le; unfold x; qlra).
  change (Qfloor 0) with 0%Z in Hlo.
  change (Qfloor (201 # 2)) with 100%Z in Hhi.
  rewrite Zle_Qle in Hlo, Hhi. unfold Js.round. fold x.
  split; assumption.
Qed.

Lemma round_percent_bounds (part rest : Q) :
  0 <= part -> 0 <= rest -> 0 < part + rest ->
  0 <= Js.round ((part / (part + rest)) * 100) <= 100.
Proof.
  intros Hp Hr Ht. apply round_ratio_bounds; [split; qlra | exact Ht].
Qed.

Lemma countIf_nonneg {A : Type} (f : A -> bool) (l : list A) :
  0 <= countIf f l.
Proof. apply len_nonneg. Qed.

Lemma len_pos {A : Type} (l : list A) : l <> [] -> 0 < Js.len l.
Proof.
  intros Hl. destruct l as [|a l]; [contradiction|].
  unfold Js.len. change 0 with (inject_Z 0). rewrite <- Zlt_Qlt.
  simpl List.length. lia.
Qed.

(** The counters of a window are counts of the target player's snapshots:
    wins and losses count the won and the lost ones, and together they are
    the number of snapshots, which is the length of the impact list. *)
Theorem wins_and_losses_count_snapshots :
  forall (matches : list MatchData) (target : string),
    let s := Season.analysis matches target in
    let snaps := targetSnapshots target matches in
    Season.wins s == countIf snapshotWon snaps
    /\ Season.losses s == countIf (fun x => negb (snapshotWon x)) snaps
    /\ Season.totalGames s == Js.len snaps
    /\ Season.totalGames s == Js.len (Season.impactScores s)
    /\ Recent.wins (Recent.analysis matches target)
       == countIf snapshotWon snaps
    /\ Recent.losses (Recent.analysis matches target)
       == countIf (fun x => negb (snapshotWon x)) snaps.
Proof.
  intros matches target. cbv zeta.
  rewrite recent_analysis_finish, season_analysis_finish.
  destruct (seasonCounts_fold (targetSnapshots target matches))
    as (Hi & Hw & Hl & _).
  unfold Season.finish, Recent.finish, forgetChampions.
  cbn [Season.wins Season.losses Season.totalGames Season.impactScores
       Recent.wins Recent.losses Recent.a_wins Recent.a_losses].
  rewrite Hi. unfold Js.len at 2. rewrite length_map.
  fold (Js.len (targetSnapshots target matches)).
  rewrite Hw, Hl, countIf_split. repeat split; reflexivity.
Qed.

(** The win rate of a window is a whole number of percent between 0 and
    100, and it is 0 when no match of the window has the target player. *)
Theorem winrate_is_a_percentage :
  forall (matches : list MatchData) (target : string),
    let s := Season.analysis matches target in
    let r := Recent.analysis matches target in
    (0 <= Season.winrate s <= 100)
    /\ (exists z, Season.winrate s = inject_Z z)
    /\ Recent.winrate r = Season.winrate s
    /\ (targetSnapshots target matches = [] -> Season.winrate s = 0).
Proof.
  intros matches target. cbv zeta.
  rewrite recent_analysis_finish, season_analysis_finish.
  destruct (seasonCounts_fold (targetSnapshots target matches))
    as (_ & Hw & Hl & _).
  revert Hw Hl.
  generalize (fold_left seasonFound (targetSnapshots target matches)
                Season.init) as acc.
  intros acc Hw Hl. unfold Season.finish, Recent.finish, forgetChampions.
  cbn [Season.winrate Recent.winrate Recent.a_wins Recent.a_losses].
  pose proof (countIf_nonneg snapshotWon (targetSnapshots target matches)).
  pose proof (countIf_nonneg (fun x => negb (snapshotWon x))
                (targetSnapshots target matches)).
  destruct (Js.ltb 0 (Season.a_wins acc + Season.a_losses acc)) eqn:E.
  - apply ltb_true in E. split; [|split; [|split]].
    + apply round_percent_bounds; qlra.
    + unfold Js.round. eexists. reflexivity.
    + reflexivity.
    + intros Hs. rewrite Hs in Hw, Hl.
      change (countIf snapshotWon []) with 0 in Hw.
      change (countIf (fun x => negb (snapshotWon x)) []) with 0 in Hl.
      qlra.
  - split; [|split; [|split]].
    + split; discriminate.
    + exists 0%Z. reflexivity.
    + reflexivity.
    + reflexivity.
Qed.

Lemma winrate_is_a_percentage_witness :
  targetSnapshots "me" [Sample.strangersMatch] = []
  /\ Season.winrate (Season.analysis [Sample.strangersMatch] "me") = 0.
Proof.
  assert (H : targetSnapshots "me" [Sample.strangersMatch] = [])
    by reflexivity.
  split; [exact H|].
  exact (proj2 (proj2 (proj2
           (winrate_is_a_percentage [Sample.strangersMatch] "me"))) H).
Defined.

(** ** Bounds of the impact metrics *)

Lemma len_cons {A : Type} (a : A) (l : list A) :
  Js.len (a :: l) == Js.len l + 1.
Proof.
  unfold Js.len. simpl List.length.
  rewrite Nat2Z.inj_succ, <- Z.add_1_r, inject_Z_plus. reflexivity.
Qed.

Lemma total_bounds (lo hi : Q) (l : list Q) :
  Forall (fun x => lo <= x <= hi) l ->
  lo * Js.len l <= Spec.total l <= hi * Js.len l.
Proof.
  induction 1 as [|x l [Hlo Hhi] _ [IHlo IHhi]].
  - change (Js.len (@nil Q)) with 0. change (Spec.total []) with 0.
    split; qlra.
  - rewrite len_cons.
    change (Spec.total (x :: l)) with (x + Spec.total l).
    split; qlra.
Qed.

Lemma averageOr_bounds (lo hi dflt : Q) (l : list Q) :
  Forall (fun x => lo <= x <= hi) l -> lo <= dflt <= hi ->
  lo <= averageOr l dflt <= hi.
Proof.
  intros Hl Hd. unfold averageOr.
  destruct l as [|x l]; [exact Hd|].
  cbn [List.length Nat.ltb Nat.leb].
  assert (Hn : 0 < Js.len (x :: l)) by (apply len_pos; discriminate).
  destruct (total_bounds lo hi (x :: l) Hl) as [Hlo Hhi].
  rewrite sum_total. split.
  - apply Qle_shift_div_l; assumption.
  - apply Qle_shift_div_r; assumption.
Qed.

Lemma snapshot_impacts_bounded (snaps : list (MatchParticipant * Q)) :
  Forall (fun x => 0 <= x <= 10) (map snapshotImpact snaps).
Proof.
  apply Forall_forall. intros x Hx. apply in_map_iff in Hx.
  destruct Hx as (s & <- & _). apply impact_range.
Qed.

Lemma targetSnapshots_length (target : string) (matches : list MatchData) :
  (List.length (targetSnapshots target matches) <= List.length matches)%nat.
Proof.
  induction matches as [|m ms IH]; [apply Nat.le_refl|].
  cbn [targetSnapshots flat_map]. fold (targetSnapshots target ms).
  rewrite length_app.
  destruct (findParticipant target m); simpl; lia.
Qed.

Lemma Forall_take {A : Type} (P : A -> Prop) (n : nat) (l : list A) :
  Forall P l -> Forall P (firstn n l).
Proof.
  intros H. rewrite <- (firstn_skipn n l) in H.
  now apply Forall_app in H.
Qed.

Lemma Forall_drop {A : Type} (P : A -> Prop) (n : nat) (l : list A) :
  Forall P l -> Forall P (skipn n l).
Proof.
  intros H. rewrite <- (firstn_skipn n l) in H.
  now apply Forall_app in H.
Qed.

Lemma trend_bounds (l : list Q) (avg : Q) :
  Forall (fun x => 0 <= x <= 10) l -> 0 <= avg <= 10 ->
  -10 <= Recent.trend l avg <= 10.
Proof.
  intros Hl Ha. unfold Recent.trend, Js.slice. cbv zeta.
  assert (H1 : 0 <= averageOr (firstn (5 - 0) (skipn 0 l)) 0 <= 10).
  { apply averageOr_bounds; [|split; discriminate].
    apply Forall_take. exact Hl. }
  assert (H2 : 0 <= averageOr (firstn (10 - 5) (skipn 5 l)) avg <= 10).
  { apply averageOr_bounds; [|exact Ha].
    apply Forall_take, Forall_drop. exact Hl. }
  split; qlra.
Qed.

Lemma of_matches_impacts (matchesData : list MatchData) (target : string) :
  let a := Analysis.of_matches matchesData target in
  (List.length (Analysis.impactScores a) <= 20)%nat
  /\ Forall (fun x => 0 <= x <= 10) (Analysis.impactScores a)
  /\ Analysis.avgImpact a = averageOr (Analysis.impactScores a) 0
  /\ Analysis.recentTrend a
     = Recent.trend (Analysis.impactScores a) (Analysis.avgImpact a).
Proof.
  cbv zeta. unfold Analysis.of_matches, Analysis.merge.
  cbn [Analysis.impactScores Analysis.avgImpact Analysis.recentTrend].
  set (recent := recentMatches matchesData).
  pose proof (recent_impactScores recent target) as Hi.
  pose proof (snapshot_impacts_bounded (targetSnapshots target recent)) as Hb.
  rewrite <- Hi in Hb.
  split; [|split; [exact Hb|]].
  - rewrite Hi, length_map.
    etransitivity; [apply targetSnapshots_length|].
    unfold recent, recentMatches, Js.slice. apply firstn_le_length.
  - rewrite recent_analysis_finish. split; reflexivity.
Qed.

(** In the combined view of the profile page the impact list has at most
    20 entries, every entry and their average lie between 0 and 10, and the
    trend lies between -10 and 10. *)
Theorem impact_metrics_are_bounded :
  forall (matchesData : list MatchData) (target : string),
    let a := Analysis.of_matches matchesData target in
    (List.length (Analysis.impactScores a) <= 20)%nat
    /\ Forall (fun x => 0 <= x <= 10) (Analysis.impactScores a)
    /\ 0 <= Analysis.avgImpact a <= 10
    /\ -10 <= Analysis.recentTrend a <= 10.
Proof.
  intros matchesData target. cbv zeta.
  destruct (of_matches_impacts matchesData target) as (Hlen & Hb & Ha & Ht).
  cbv zeta in Ha, Ht.
  assert (Havg : 0 <= Analysis.avgImpact
                        (Analysis.of_matches matchesData target) <= 10).
  { rewrite Ha. apply averageOr_bounds; [exact Hb | split; discriminate]. }
  split; [exact Hlen|]. split; [exact Hb|]. split; [exact Havg|].
  rewrite Ht. now apply trend_bounds.
Qed.

(** The impact list of the combined view is the head of the season's
    impact list: the impacts of the first 20 matches, followed in the season
    list by those of the later matches. *)
Theorem recent_impacts_are_a_prefix_of_the_season :
  forall (matchesData : list MatchData) (target : string),
    Season.impactScores (Season.analysis matchesData target)
    = Analysis.impactScores (Analysis.of_matches matchesData target)
      ++ map snapshotImpact (targetSnapshots target (skipn 20 matchesData)).
Proof.
  intros matchesData target.
  unfold Analysis.of_matches, Analysis.merge. cbn [Analysis.impactScores].
  rewrite season_impactScores, recent_impactScores.
  change (recentMatches matchesData) with (firstn 20 matchesData).
  rewrite <- map_app. f_equal.
  unfold targetSnapshots. rewrite <- flat_map_app.
  now rewrite firstn_skipn.
Qed.

(** ** The lane table and the champion table *)

Section StrMapMore.

Context {V : Type}.
Implicit Types (m : StrMap.t V) (k : string) (v : V).

Lemma get_None_keys m k :
  StrMap.get k m = None <-> ~ In k (StrMap.keys m).
Proof.
  induction m as [|[k' v'] m IH]; simpl; [tauto|].
  destruct (String.eqb k k') eqn:E.
  - apply String.eqb_eq in E. subst. split; [discriminate | tauto].
  - apply String.eqb_neq in E. rewrite IH. split; [|tauto].
    intros H [H'|H']; [congruence | tauto].
Qed.

Lemma keys_set_present m k v v' :
  StrMap.get k m = Some v -> StrMap.keys (StrMap.set k v' m) = StrMap.keys m.
Proof.
  induction m as [|[k0 v0] m IH]; simpl; [discriminate|].
  destruct (String.eqb k k0) eqn:E; simpl.
  - apply String.eqb_eq in E. now subst.
  - intros H. f_equal. now apply IH.
Qed.

Lemma set_set m k v v' :
  StrMap.set k v' (StrMap.set k v m) = StrMap.set k v' m.
Proof.
  induction m as [|[k0 v0] m IH]; simpl.
  - now rewrite String.eqb_refl.
  - destruct (String.eqb k k0) eqn:E; simpl; rewrite ?String.eqb_refl, ?E;
      [reflexivity | now rewrite IH].
Qed.

Lemma Forall_set (P : string * V -> Prop) m k v :
  Forall P m -> P (k, v) -> Forall P (StrMap.set k v m).
Proof.
  intros Hm Hk. induction Hm as [|[k0 v0] m H0 Hm IH]; simpl.
  - now constructor.
  - destruct (String.eqb k k0); constructor; assumption.
Qed.

Lemma NoDup_keys_set m k v :
  NoDup (StrMap.keys m) -> NoDup (StrMap.keys (StrMap.set k v m)).
Proof.
  intros Hnd. destruct (StrMap.get k m) as [v0|] eqn:E.
  - now rewrite (keys_set_present m k v0 v E).
  - apply get_None_keys in E. rewrite set_fresh by assumption.
    unfold StrMap.keys in *. rewrite map_app. simpl.
    apply NoDup_app; [assumption | repeat constructor; simpl; tauto |].
    intros x Hx [<-|[]]. contradiction.
Qed.

Lemma sumOver_set_present (f : V -> Q) m k v v' :
  StrMap.get k m = Some v ->
  sumOver f (StrMap.set k v' m) == sumOver f m - f v + f v'.
Proof.
  induction m as [|[k0 v0] m IH]; simpl; [discriminate|].
  destruct (String.eqb k k0) eqn:E; simpl.
  - intros [= ->]. ring.
  - intros H. rewrite IH by assumption. ring.
Qed.

Lemma sumOver_set_fresh (f : V -> Q) m k v' :
  StrMap.get k m = None ->
  sumOver f (StrMap.set k v' m) == sumOver f m + f v'.
Proof.
  induction m as [|[k0 v0] m IH]; simpl; [intros _; ring|].
  destruct (String.eqb k k0) eqn:E; simpl; [discriminate|].
  intros H. rewrite IH by assumption. ring.
Qed.

(** Writing the updated entry of a key, starting from a default when the
    key is new, adds the growth of the entry to a sum over the table. *)
Lemma sumOver_set_getOr (f : V -> Q) m k dflt (g : V -> V) :
  f dflt == 0 ->
  sumOver f (StrMap.set k (g (getOr k m dflt)) m)
  == sumOver f m + (f (g (getOr k m dflt)) - f (getOr k m dflt)).
Proof.
  intros Hd. unfold getOr. destruct (StrMap.get k m) as [v|] eqn:E.
  - rewrite (sumOver_set_present f m k v) by assumption. ring.
  - rewrite sumOver_set_fresh by assumption. rewrite Hd. ring.
Qed.

Lemma get_Forall (P : string * V -> Prop) m k v :
  Forall P m -> StrMap.get k m = Some v -> P (k, v).
Proof.
  intros Hm Hg. apply get_In in Hg. rewrite Forall_forall in Hm. auto.
Qed.

End StrMapMore.

(** The bookkeeping of one match writes one entry: the old entry of the
    key, or a zero entry, after one more game. *)
Lemma countLane_set (participant : MatchParticipant)
    (lanes : StrMap.t LaneStats.t) :
  let lane := normalizePosition (teamPosition participant) in
  countLane participant lanes
  = if String.eqb lane "Unknown" then lanes
    else StrMap.set lane
           (bumpLane participant (getOr lane lanes (LaneStats.mk 0 0)))
           lanes.
Proof.
  cbv zeta. unfold countLane, getOr.
  destruct (String.eqb _ "Unknown"); [reflexivity|].
  destruct (StrMap.get _ lanes) as [st|] eqn:E.
  - rewrite E. reflexivity.
  - rewrite get_set_same, set_set. reflexivity.
Qed.

Lemma countChampion_set (participant : MatchParticipant) (impact : Q)
    (champions : StrMap.t ChampionStats.t) :
  let champ := championName participant in
  Season.countChampion participant impact champions
  = StrMap.set champ
      (bumpChampion participant impact
         (getOr champ champions (ChampionStats.mk champ 0 0 0 0 0 0)))
      champions.
Proof.
  cbv zeta. unfold Season.countChampion, getOr.
  destruct (StrMap.get _ champions) as [c|] eqn:E.
  - rewrite E. reflexivity.
  - rewrite get_set_same, set_set. reflexivity.
Qed.

Lemma normalizePosition_known (pos : string) :
  normalizePosition pos = "Unknown" \/ In (normalizePosition pos) knownLanes.
Proof.
  unfold normalizePosition, knownLanes.
  repeat match goal with
         | |- context [String.eqb ?a ?b] => destruct (String.eqb a b)
         end; simpl; auto 10.
Qed.

Lemma bumpLane_ok (participant : MatchParticipant)
    (lanes : StrMap.t LaneStats.t) (lane : string) :
  Forall laneEntryOk lanes -> In lane knownLanes ->
  laneEntryOk
    (lane, bumpLane participant (getOr lane lanes (LaneStats.mk 0 0))).
Proof.
  intros Hl Hk. unfold laneEntryOk, getOr. cbn [fst snd].
  split; [exact Hk|].
  destruct (StrMap.get lane lanes) as [st|] eqn:E.
  - destruct (get_Forall _ _ _ _ Hl E) as (_ & Hg & Hw0 & Hw).
    cbn [fst snd] in *. unfold bumpLane.
    destruct (win participant); cbn [LaneStats.games LaneStats.wins];
      repeat split; qlra.
  - unfold bumpLane.
    destruct (win participant); cbn [LaneStats.games LaneStats.wins];
      repeat split; discriminate.
Qed.

Lemma laneTable_step (done : list (MatchParticipant * Q))
    (lanes : StrMap.t LaneStats.t) (s : MatchParticipant * Q) :
  laneTableInv done lanes ->
  laneTableInv (done ++ [s]) (countLane (fst s) lanes).
Proof.
  intros (Hnd & Hok & Hsum). unfold laneTableInv.
  rewrite countIf_snoc, countLane_set. unfold knownRole at 2.
  destruct (normalizePosition_known (teamPosition (fst s))) as [E|Hk].
  - rewrite E. cbn [String.eqb Ascii.eqb Bool.eqb negb].
    repeat split; try assumption. rewrite Hsum. ring.
  - destruct (String.eqb (normalizePosition (teamPosition (fst s)))
                "Unknown") eqn:E.
    + apply String.eqb_eq in E. rewrite E in Hk. simpl in Hk.
      exfalso. intuition discriminate.
    + cbn [negb]. split; [now apply NoDup_keys_set|]. split.
      * apply Forall_set; [assumption | now apply bumpLane_ok].
      * rewrite sumOver_set_getOr by reflexivity. rewrite Hsum.
        unfold bumpLane. cbn [LaneStats.games]. ring.
Qed.

Lemma bumpChampion_ok (participant : MatchParticipant) (impact : Q)
    (champions : StrMap.t ChampionStats.t) (champ : string) :
  Forall championEntryOk champions ->
  championEntryOk
    (champ,
     bumpChampion participant impact
       (getOr champ champions (ChampionStats.mk champ 0 0 0 0 0 0))).
Proof.
  intros Hc. unfold championEntryOk, getOr. cbn [fst snd].
  destruct (StrMap.get champ champions) as [c|] eqn:E.
  - destruct (get_Forall _ _ _ _ Hc E) as (Hn & Hg & Hw0 & Hw).
    cbn [fst snd] in *. unfold bumpChampion.
    destruct (win participant);
      cbn [ChampionStats.name ChampionStats.games ChampionStats.wins];
      repeat split; try assumption; qlra.
  - unfold bumpChampion.
    destruct (win participant);
      cbn [ChampionStats.name ChampionStats.games ChampionStats.wins];
      repeat split; try reflexivity; discriminate.
Qed.

Lemma championTable_step (done : list (MatchParticipant * Q))
    (champions : StrMap.t ChampionStats.t) (s : MatchParticipant * Q)
    (impact : Q) :
  championTableInv done champions ->
  championTableInv (done ++ [s])
    (Season.countChampion (fst s) impact champions).
Proof.
  intros (Hnd & Hok & Hg & Hw). unfold championTableInv.
  rewrite countIf_snoc, len_snoc, countChampion_set.
  split; [now apply NoDup_keys_set|]. split.
  - apply Forall_set; [assumption | now apply bumpChampion_ok].
  - rewrite !sumOver_set_getOr by reflexivity. rewrite Hg, Hw.
    unfold bumpChampion, snapshotWon.
    cbn [ChampionStats.games ChampionStats.wins].
    destruct (win (fst s)); split; ring.
Qed.

Lemma tables_fold (snaps : list (MatchParticipant * Q)) :
  let acc := fold_left seasonFound snaps Season.init in
  laneTableInv snaps (Season.a_lanes acc)
  /\ championTableInv snaps (Season.a_champions acc).
Proof.
  cbv zeta.
  apply (fold_left_processed seasonFound
           (fun done acc =>
              laneTableInv done (Season.a_lanes acc)
              /\ championTableInv done (Season.a_champions acc))).
  - split.
    + split; [constructor|]. split; [constructor | reflexivity].
    + split; [constructor|]. split; [constructor|].
      split; reflexivity.
  - intros done acc s [Hl Hc]. unfold seasonFound.
    cbn [Season.a_lanes Season.a_champions]. split.
    + now apply laneTable_step.
    + now apply championTable_step.
Qed.

(** The lane table of a window has one entry per lane played, under the
    five lane names only (never ['Unknown']); every entry has at least one
    game and between 0 and [games] wins; and the games of all lanes add up
    to the number of snapshots with a known role, so to no more than the
    total number of games. *)
Theorem lane_table_is_well_formed :
  forall (matches : list MatchData) (target : string),
    let s := Season.analysis matches target in
    let lanes := Season.lanes s in
    Recent.lanes (Recent.analysis matches target) = lanes
    /\ NoDup (StrMap.keys lanes)
    /\ Forall laneEntryOk lanes
    /\ sumOver LaneStats.games lanes
       == countIf knownRole (targetSnapshots target matches)
    /\ sumOver LaneStats.games lanes <= Season.totalGames s.
Proof.
  intros matches target. cbv zeta.
  rewrite recent_analysis_finish, season_analysis_finish.
  destruct (tables_fold (targetSnapshots target matches))
    as [(Hnd & Hok & Hsum) _].
  destruct (seasonCounts_fold (targetSnapshots target matches))
    as (_ & Hw & Hl & _).
  unfold Season.finish, Recent.finish, forgetChampions.
  cbn [Season.lanes Recent.lanes Recent.a_lanes Season.totalGames].
  repeat split; try assumption.
  rewrite Hsum, Hw, Hl, countIf_split.
  unfold countIf, Js.len. rewrite <- Zle_Qle.
  apply inj_le, filter_length_le.
Qed.

(** The champion table of the season has one entry per champion played,
    filed under the champion's name; every entry has at least one game (so
    a win ratio never divides by zero) and between 0 and [games] wins; the
    games of all champions add up to the total number of games and their
    wins to the wins. *)
Theorem champion_table_is_well_formed :
  forall (matches : list MatchData) (target : string),
    let s := Season.analysis matches target in
    let champions := Season.champions s in
    NoDup (StrMap.keys champions)
    /\ Forall championEntryOk champions
    /\ sumOver ChampionStats.games champions == Season.totalGames s
    /\ sumOver ChampionStats.wins champions == Season.wins s.
Proof.
  intros matches target. cbv zeta.
  rewrite season_analysis_finish.
  destruct (tables_fold (targetSnapshots target matches))
    as [_ (Hnd & Hok & Hg & Hws)].
  destruct (seasonCounts_fold (targetSnapshots target matches))
    as (_ & Hw & Hl & _).
  unfold Season.finish.
  cbn [Season.champions Season.totalGames Season.wins].
  repeat split; try assumption.
  - rewrite Hg, Hw, Hl, countIf_split. reflexivity.
  - rewrite Hws, Hw. reflexivity.
Qed.

(** * Further properties of the scorers *)

(** ** The rank assignment on any array *)

Section StrMapSet.

Context {V : Type}.
Implicit Types (m : StrMap.t V) (k : string) (v : V).

Lemma In_set m k v k' v' :
  In (k', v') (StrMap.set k v m) -> (k', v') = (k, v) \/ In (k', v') m.
Proof.
  induction m as [|[k0 v0] m IH]; simpl.
  - intros [H|[]]. left. now symmetry.
  - destruct (String.eqb k k0); simpl.
    + intros [H|H]; [left; now symmetry | right; now right].
    + intros [H|H]; [right; now left|].
      destruct (IH H) as [E|E]; [now left | right; now right].
Qed.

Lemma keys_set m k v x :
  In x (StrMap.keys (StrMap.set k v m)) <-> x = k \/ In x (StrMap.keys m).
Proof.
  induction m as [|[k0 v0] m IH]; simpl.
  - intuition.
  - destruct (String.eqb k k0) eqn:E; simpl.
    + apply String.eqb_eq in E. subst. intuition.
    + rewrite IH. intuition.
Qed.

End StrMapSet.

(** Where an entry of the result comes from: the map it started from, or
    the element of the array whose index its rank names. *)
Lemma assignRanks_In (l : list Scored) :
  forall (i : nat) (m : StrMap.t PlayerScore) (k : string) (v : PlayerScore),
    In (k, v) (assignRanks i l m) ->
    In (k, v) m
    \/ exists n s, nth_error l n = Some s /\ k = s_puuid s
                   /\ rank v = (i + n + 1)%nat /\ score v = s_score s
                   /\ breakdown v = s_breakdown s.
Proof.
  induction l as [|s l IH]; intros i m k v Hin; simpl in Hin; [now left|].
  destruct (IH _ _ _ _ Hin) as [Hm|(n & s' & Hn & Hk & Hr & Hs & Hb)].
  - apply In_set in Hm. destruct Hm as [[= -> ->]|Hm]; [|now left].
    right. exists 0%nat, s. simpl. repeat split. lia.
  - right. exists (S n), s'. simpl. repeat split; try assumption. lia.
Qed.

Lemma assignRanks_keys (l : list Scored) :
  forall (i : nat) (m : StrMap.t PlayerScore) (x : string),
    In x (StrMap.keys (assignRanks i l m))
    <-> In x (StrMap.keys m) \/ In x (map s_puuid l).
Proof.
  induction l as [|s l IH]; intros i m x; simpl; [tauto|].
  rewrite IH, keys_set. intuition.
Qed.

Lemma assignRanks_NoDup (l : list Scored) :
  forall (i : nat) (m : StrMap.t PlayerScore),
    NoDup (StrMap.keys m) -> NoDup (StrMap.keys (assignRanks i l m)).
Proof.
  induction l as [|s l IH]; intros i m Hnd; simpl; [assumption|].
  apply IH. now apply NoDup_keys_set.
Qed.

Lemma NoDup_map_through {A B C : Type} (f : A -> B) (g : A -> C)
    (l : list A) :
  NoDup (map f l) ->
  (forall x y, In x l -> In y l -> g x = g y -> f x = f y) ->
  NoDup (map g l).
Proof.
  induction l as [|a l IH]; simpl; intros Hnd Hfg; [constructor|].
  inversion Hnd as [|? ? Ha Hnd']; subst. constructor.
  - intros Hin. apply in_map_iff in Hin. destruct Hin as (y & Hy & Hyl).
    apply Ha. rewrite (Hfg a y); [now apply in_map | now left | now right|].
    now symmetry.
  - apply IH; [assumption|]. intros x y Hx Hy. apply Hfg; now right.
Qed.

(** For any array of participants (any length, ids possibly repeated) and
    a positive duration: the map has one entry per distinct id, namely the
    ids of the participants; every rank lies between 1 and the number of
    participants; and no two entries share a rank. *)
Theorem ranks_are_distinct_and_in_range :
  forall (ps : list MatchParticipant) (d : Q)
         (teams : option (list TeamObjectives)),
    0 < d ->
    let result := rankPlayersInMatch ps d teams in
    NoDup (StrMap.keys result)
    /\ (forall id, In id (StrMap.keys result) <-> In id (map puuid ps))
    /\ (forall id v, StrMap.get id result = Some v ->
                     (1 <= rank v <= List.length ps)%nat)
    /\ NoDup (map rank (StrMap.values result)).
Proof.
  intros ps d teams Hd result. subst result.
  rewrite rank_positive by assumption.
  assert (Hnd : NoDup (StrMap.keys
                         (assignRanks 0 (sortedOf ps d) StrMap.empty)))
    by (apply assignRanks_NoDup; constructor).
  assert (Hlen : List.length (sortedOf ps d) = List.length ps).
  { rewrite (Permutation_length (sortedOf_perm ps d)).
    unfold scoredOf. apply length_map. }
  assert (Hfrom : forall k v,
            In (k, v) (assignRanks 0 (sortedOf ps d) StrMap.empty) ->
            exists n s, nth_error (sortedOf ps d) n = Some s
                        /\ k = s_puuid s /\ rank v = (n + 1)%nat).
  { intros k v Hin. apply assignRanks_In in Hin.
    destruct Hin as [[]|(n & s & Hn & Hk & Hr & _)]. eauto. }
  split; [exact Hnd|]. split; [|split].
  - intros id. rewrite assignRanks_keys. simpl.
    split.
    + intros [[]|H]. eapply Permutation_in; [apply sortedOf_puuids|exact H].
    + intros H. right.
      eapply Permutation_in; [symmetry; apply sortedOf_puuids|exact H].
  - intros id v Hg. apply get_In, Hfrom in Hg.
    destruct Hg as (n & s & Hn & _ & Hr).
    assert (n < List.length (sortedOf ps d))%nat
      by (apply nth_error_Some; congruence).
    lia.
  - unfold StrMap.values. rewrite map_map.
    apply (NoDup_map_through fst); [exact Hnd|].
    intros [k1 v1] [k2 v2] H1 H2 Hr. cbn [fst snd] in *.
    apply Hfrom in H1, H2.
    destruct H1 as (n1 & s1 & Hn1 & -> & Hr1).
    destruct H2 as (n2 & s2 & Hn2 & -> & Hr2).
    assert (n1 = n2) by lia. subst n2. congruence.
Qed.

Lemma ranks_are_distinct_and_in_range_witness :
  0 < 1800
  /\ NoDup (map rank
              (StrMap.values
                 (rankPlayersInMatch
                    (Sample.tied "a1" "TOP" 100 :: Sample.tiedMatch)
                    1800 None))).
Proof.
  assert (Hd : 0 < 1800) by (unfold Qlt; simpl; lia).
  split; [exact Hd|].
  exact (proj2 (proj2 (proj2
           (ranks_are_distinct_and_in_range
              (Sample.tied "a1" "TOP" 100 :: Sample.tiedMatch)
              1800 None Hd)))).
Defined.

(** ** Bounds of the category scores *)

(** Names every [Math.min] of the goal and records that it is at most its
    second argument. *)
Ltac bound_mins :=
  repeat match goal with
         | |- context [Js.min ?a ?b] =>
             let m := fresh "m" in
             let H := fresh "Hm" in
             pose proof (min_le_r a b) as H;
             set (m := Js.min a b) in *; clearbody m
         end.

Lemma categoryScores_upper (T : MatchTotals) (d : Q) (p : MatchParticipant) :
  0 < d -> 0 <= deaths p ->
  forall k, Spec.category (categoryScores T d p) k <= categoryBound k.
Proof.
  intros Hd Hdeaths k.
  assert (Hpen : 0 <= Js.min (deaths p / (d / 60) * 2.5) 7).
  { apply min_nonneg; [|discriminate].
    apply Qmult_le_0_compat; [|discriminate].
    apply div_nonneg; [assumption|]. apply div_pos; [assumption|reflexivity]. }
  pose proof (impact_range p d) as [_ Hi].
  destruct k; cbn [Spec.category categoryScores categoryBound combat damage
                   objectives economy vision utility clutch impact
                   winContribution]; try exact Hi.
  - apply Q.max_lub; [|discriminate].
    revert Hpen. generalize (Js.min (deaths p / (d / 60) * 2.5) 7).
    intros pen Hpen. bound_mins. qlra.
  - bound_mins. qlra.
  - bound_mins. qlra.
  - bound_mins. qlra.
  - bound_mins. qlra.
  - bound_mins. qlra.
  - apply min_le_r.
  - apply min_le_r.
Qed.

Lemma rank_entry_from (ps : list MatchParticipant) (d : Q)
    (teams : option (list TeamObjectives)) (id : string) (v : PlayerScore) :
  0 < d -> StrMap.get id (rankPlayersInMatch ps d teams) = Some v ->
  exists q, In q ps /\ puuid q = id
            /\ score v = s_score (scoreParticipant (matchTotals ps) d q)
            /\ breakdown v = categoryScores (matchTotals ps) d q.
Proof.
  intros Hd Hg. rewrite rank_positive in Hg by assumption.
  apply get_In, assignRanks_In in Hg.
  destruct Hg as [[]|(n & s & Hn & Hk & _ & Hs & Hb)].
  apply nth_error_In in Hn.
  apply (Permutation_in _ (sortedOf_perm ps d)) in Hn.
  unfold scoredOf in Hn. apply in_map_iff in Hn.
  destruct Hn as (q & <- & Hq). exists q. repeat split; try assumption.
  now symmetry.
Qed.

(** In a match of positive duration with non-negative counters every
    category score of every entry lies between 0 and the sum of the caps of
    its terms: 32 for combat, 18 for damage, 22 for objectives, 10 for
    economy, 8 for vision, 12 for utility, 12 for clutch, 10 for impact and
    10 for win contribution.  The bounds 32 and 22 are reached: combat and
    objectives can exceed the 25 and 20 that [categoryMax] uses to
    normalise. *)
Theorem category_scores_are_bounded :
  (forall (ps : list MatchParticipant) (d : Q)
          (teams : option (list TeamObjectives)) (id : string)
          (v : PlayerScore),
      0 < d -> Forall nonneg_counters ps ->
      StrMap.get id (rankPlayersInMatch ps d teams) = Some v ->
      forall k, 0 <= Spec.category (breakdown v) k <= categoryBound k)
  /\ (exists v,
         StrMap.get "ace" (rankPlayersInMatch [Sample.flawless] 1800 None)
         = Some v
         /\ combat (breakdown v) == 32 /\ objectives (breakdown v) == 22).
Proof.
  split.
  - intros ps d teams id v Hd Hnn Hg k.
    destruct (rank_entry_from ps d teams id v Hd Hg)
      as (q & Hq & _ & _ & ->).
    rewrite Forall_forall in Hnn. specialize (Hnn q Hq). split.
    + apply breakdown_nonneg;
        [ assumption | assumption | apply totalOf_pos .. | apply max_one_pos ].
    + apply categoryScores_upper; [assumption|].
      unfold nonneg_counters, counters in Hnn.
      rewrite Forall_forall in Hnn. apply Hnn. simpl. auto.
  - eexists. split; [vm_compute; reflexivity|].
    split; vm_compute; reflexivity.
Qed.

Lemma category_scores_are_bounded_witness :
  0 < 1800 /\ Forall nonneg_counters [Sample.flawless]
  /\ exists v,
       StrMap.get "ace" (rankPlayersInMatch [Sample.flawless] 1800 None)
       = Some v
       /\ forall k, 0 <= Spec.category (breakdown v) k <= categoryBound k.
Proof.
  assert (Hd : 0 < 1800) by (unfold Qlt; simpl; lia).
  assert (Hnn : Forall nonneg_counters [Sample.flawless]).
  { constructor; [|constructor]. apply nonneg_counters_iff. reflexivity. }
  destruct (StrMap.get "ace" (rankPlayersInMatch [Sample.flawless] 1800 None))
    as [v|] eqn:E.
  - split; [exact Hd|]. split; [exact Hnn|]. exists v. split; [reflexivity|].
    exact (proj1 category_scores_are_bounded
             [Sample.flawless] 1800 None "ace" v Hd Hnn E).
  - exfalso. vm_compute in E. discriminate E.
Defined.

(** ** How the impact score reacts to the result and to deaths *)

Lemma clamp_mono (x y : Q) :
  x <= y -> Js.min (Js.max x 0) 10 <= Js.min (Js.max y 0) 10.
Proof.
  intros H. apply Q.min_le_compat_r, Q.max_le_compat_r. exact H.
Qed.

(** With everything else equal, a win never lowers the impact score. *)
Theorem win_never_lowers_impact :
  forall (p : MatchParticipant) (d died : Q),
    calculateMatchImpact (withWinDeaths p false died) d
    <= calculateMatchImpact (withWinDeaths p true died) d.
Proof.
  intros p d died. unfold calculateMatchImpact, withWinDeaths.
  cbn [kills deaths assists win totalMinionsKilled neutralMinionsKilled
       visionScore totalDamageDealtToChampions goldEarned turretKills
       inhibitorKills dragonKills baronKills damageDealtToObjectives].
  destruct (Js.leb (d / 60) 0); [discriminate|].
  cbv zeta. unfold Js.cond.
  match goal with
  | |- Js.min (Js.max (?b + 0 - ?pen) 0) 10 <= _ =>
      set (base := b); set (penalty := pen)
  end.
  apply clamp_mono. qlra.
Qed.

Lemma div_antitone (k a b : Q) : 0 <= k -> 0 < a -> a <= b -> k / b <= k / a.
Proof.
  intros Hk Ha Hab. unfold Qdiv.
  rewrite (Qmult_comm k (/ b)), (Qmult_comm k (/ a)).
  apply Qmult_le_compat_r; [|exact Hk].
  apply Qle_shift_inv_l; [exact Ha|].
  rewrite Qmult_comm. change (a * / b) with (a / b).
  apply Qle_shift_div_r; qlra.
Qed.

Lemma nat_is_zero (n : nat) :
  Js.is_zero (inject_Z (Z.of_nat n)) = match n with O => true | S _ => false end.
Proof.
  destruct n as [|n]; [reflexivity|].
  unfold Js.is_zero. apply not_true_is_false. intro H.
  apply Qeq_bool_iff in H. unfold Qeq in H. simpl in H. lia.
Qed.

Lemma nat_ge_one (n : nat) : 1 <= inject_Z (Z.of_nat (S n)).
Proof.
  change 1 with (inject_Z 1). rewrite <- Zle_Qle. lia.
Qed.

Lemma nat_le (n m : nat) :
  (n <= m)%nat -> inject_Z (Z.of_nat n) <= inject_Z (Z.of_nat m).
Proof. intros H. rewrite <- Zle_Qle. lia. Qed.

(** With everything else equal and kills plus assists not negative, more
    deaths (in whole numbers) never raise the impact score. *)
Theorem more_deaths_never_raise_impact :
  forall (p : MatchParticipant) (d : Q) (won : bool) (n m : nat),
    0 <= kills p + assists p -> (n <= m)%nat ->
    calculateMatchImpact
      (withWinDeaths p won (inject_Z (Z.of_nat m))) d
    <= calculateMatchImpact
         (withWinDeaths p won (inject_Z (Z.of_nat n))) d.
Proof.
  intros p d won n m Hka Hnm. unfold calculateMatchImpact, withWinDeaths.
  cbn [kills deaths assists win totalMinionsKilled neutralMinionsKilled
       visionScore totalDamageDealtToChampions goldEarned turretKills
       inhibitorKills dragonKills baronKills damageDealtToObjectives].
  destruct (Js.leb (d / 60) 0) eqn:Emin; [discriminate|].
  apply leb_false in Emin. cbv zeta.
  rewrite !nat_is_zero.
  assert (Hkda :
            Js.min ((if match m with O => true | S _ => false end
                     then kills p + assists p
                     else (kills p + assists p) / inject_Z (Z.of_nat m))
                    / 3) 2.5
            <= Js.min ((if match n with O => true | S _ => false end
                        then kills p + assists p
                        else (kills p + assists p)
                             / inject_Z (Z.of_nat n)) / 3) 2.5).
  { apply Q.min_le_compat_r. apply Qmult_le_compat_r; [|discriminate].
    destruct n as [|n], m as [|m]; try lia.
    - apply Qle_refl.
    - pose proof (nat_ge_one m).
      apply Qle_shift_div_r; [qlra|].
      setoid_replace (kills p + assists p)
        with ((kills p + assists p) * 1) at 1 by ring.
      rewrite !(Qmult_comm (kills p + assists p)).
      apply Qmult_le_compat_r; assumption.
    - pose proof (nat_ge_one n).
      apply div_antitone; [assumption | qlra | now apply nat_le]. }
  assert (Hpen :
            Js.min (inject_Z (Z.of_nat n) / (d / 60) * 0.8) 2
            <= Js.min (inject_Z (Z.of_nat m) / (d / 60) * 0.8) 2).
  { apply Q.min_le_compat_r. apply Qmult_le_compat_r; [|discriminate].
    apply Qmult_le_compat_r; [now apply nat_le|].
    apply Qinv_le_0_compat. qlra. }
  apply clamp_mono. revert Hkda Hpen.
  bound_mins. intros. qlra.
Qed.

Lemma more_deaths_never_raise_impact_witness :
  0 <= kills Sample.carry + assists Sample.carry /\ (2 <= 5)%nat
  /\ calculateMatchImpact (withWinDeaths Sample.carry true 5) 1800
     <= calculateMatchImpact (withWinDeaths Sample.carry true 2) 1800.
Proof.
  assert (H1 : 0 <= kills Sample.carry + assists Sample.carry)
    by discriminate.
  assert (H2 : (2 <= 5)%nat) by lia.
  split; [exact H1|]. split; [exact H2|].
  exact (more_deaths_never_raise_impact Sample.carry 1800 true 2 5 H1 H2).
Defined.

(** * Properties of the rest of the profile page *)

(** ** The plural of "gra" *)

(** [pluralGry] returns one of the three forms; the singular "gra" for 1
    and for nothing else (not for 21 or 101); "gier" for zero and for
    negative numbers; and from 2 on the form only depends on the last two
    digits. *)
Theorem pluralGry_forms :
  forall n : Z,
    (pluralGry n = "gra" \/ pluralGry n = "gry" \/ pluralGry n = "gier")
    /\ (pluralGry n = "gra" <-> n = 1%Z)
    /\ ((n <= 0)%Z -> pluralGry n = "gier")
    /\ ((2 <= n)%Z -> pluralGry (n + 100) = pluralGry n).
Proof.
  intros n. split; [|split; [|split]].
  - unfold pluralGry.
    destruct (Z.eqb n 1); [now left|]. cbv zeta.
    destruct (_ && _); [now right; right|].
    destruct (_ && _); [now right; left | now right; right].
  - unfold pluralGry. destruct (Z.eqb n 1) eqn:E.
    + apply Z.eqb_eq in E. tauto.
    + apply Z.eqb_neq in E. cbv zeta.
      split; [|tauto].
      destruct (_ && _); [discriminate|].
      destruct (_ && _); discriminate.
  - intros Hn. unfold pluralGry.
    destruct (Z.eqb n 1) eqn:E; [apply Z.eqb_eq in E; lia|]. cbv zeta.
    pose proof (Z.rem_nonpos n 10 ltac:(lia) Hn).
    pose proof (Z.rem_nonpos n 100 ltac:(lia) Hn).
    destruct (Z.leb 11 (Z.rem n 100)) eqn:E1; [apply Z.leb_le in E1; lia|].
    destruct (Z.leb 2 (Z.rem n 10)) eqn:E2; [apply Z.leb_le in E2; lia|].
    reflexivity.
  - intros Hn. unfold pluralGry.
    destruct (Z.eqb n 1) eqn:E; [apply Z.eqb_eq in E; lia|].
    destruct (Z.eqb (n + 100) 1) eqn:E'; [apply Z.eqb_eq in E'; lia|].
    cbv zeta.
    rewrite !Z.rem_mod_nonneg by lia.
    replace ((n + 100) mod 100)%Z with (n mod 100)%Z
      by (symmetry; apply (Z_mod_plus_full n 1 100)).
    replace ((n + 100) mod 10)%Z with (n mod 10)%Z
      by (symmetry; apply (Z_mod_plus_full n 10 10)).
    reflexivity.
Qed.

Lemma pluralGry_forms_witness :
  (2 <= 22)%Z /\ pluralGry 122 = pluralGry 22 /\ pluralGry 0 = "gier".
Proof.
  assert (H : (2 <= 22)%Z) by lia.
  split; [exact H|]. split.
  - exact (proj2 (proj2 (proj2 (pluralGry_forms 22))) H).
  - apply (proj1 (proj2 (proj2 (pluralGry_forms 0)))). lia.
Defined.

(** ** The rank card *)

Lemma find_none_all {A : Type} (f : A -> bool) (l : list A) :
  (forall x, In x l -> f x = false) -> find f l = None.
Proof.
  induction l as [|a l IH]; intros H; simpl; [reflexivity|].
  rewrite (H a) by now left. apply IH. intros x Hx. apply H. now right.
Qed.

(** What [find] returns is the first element that passes the test. *)
Lemma find_first {E : Type} (test : E -> bool) :
  forall (entries : list E) (hit : E),
    find test entries = Some hit <->
    exists earlier later,
      entries = earlier ++ hit :: later
      /\ Forall (fun e => test e = false) earlier
      /\ test hit = true.
Proof.
  intros entries hit. induction entries as [|e entries IH]; cbn [find].
  - split; [discriminate|].
    intros (earlier & later & H & _). destruct earlier; discriminate H.
  - destruct (test e) eqn:Ee.
    + split.
      * intros [= ->]. exists [], entries. repeat split; [constructor | exact Ee].
      * intros (earlier & later & H & Hno & Hhit).
        destruct earlier as [|e' earlier]; cbn [app] in H.
        -- now injection H as -> _.
        -- injection H as -> _. inversion Hno as [|? ? He' _]; subst.
           congruence.
    + rewrite IH. split.
      * intros (earlier & later & -> & Hno & Hhit).
        exists (e :: earlier), later.
        repeat split; [constructor; assumption | exact Hhit].
      * intros (earlier & later & H & Hno & Hhit).
        destruct earlier as [|e' earlier]; cbn [app] in H.
        -- injection H as -> _. congruence.
        -- injection H as -> ->. inversion Hno; subst.
           exists earlier, later. repeat split; assumption.
Qed.

(** The rank card of a player without a solo-queue entry is the unranked
    card with zeros.  Otherwise it shows the first solo-queue entry of
    the list, whatever stands before it being of another queue: tier,
    rank, league points, wins and losses are copied from that entry, and
    the win rate is a whole percentage, 0 without games and between 0
    and 100 when wins and losses are not negative. *)
Theorem rank_display_of_solo_entry :
  forall (leagues : list LeagueEntry.t),
    let card := getRankDisplay (soloRank leagues) in
    ((forall l, In l leagues ->
                LeagueEntry.queueType l <> "RANKED_SOLO_5x5") ->
     card = RankDisplay.mk "Unranked" "" 0 0 0 0)
    /\ (forall entry,
           soloRank leagues = Some entry <->
           exists earlier later,
             leagues = earlier ++ entry :: later
             /\ Forall (fun l => LeagueEntry.queueType l
                                 <> "RANKED_SOLO_5x5") earlier
             /\ LeagueEntry.queueType entry = "RANKED_SOLO_5x5")
    /\ (forall entry,
           soloRank leagues = Some entry ->
           In entry leagues
           /\ LeagueEntry.queueType entry = "RANKED_SOLO_5x5"
           /\ RankDisplay.tier card = LeagueEntry.tier entry
           /\ RankDisplay.rank card = LeagueEntry.rank entry
           /\ RankDisplay.lp card = LeagueEntry.leaguePoints entry
           /\ RankDisplay.wins card = LeagueEntry.wins entry
           /\ RankDisplay.losses card = LeagueEntry.losses entry
           /\ (exists z, RankDisplay.winrate card = inject_Z z)
           /\ (LeagueEntry.wins entry + LeagueEntry.losses entry <= 0 ->
               RankDisplay.winrate card = 0)
           /\ (0 <= LeagueEntry.wins entry ->
               0 <= LeagueEntry.losses entry ->
               0 <= RankDisplay.winrate card <= 100)).
Proof.
  intros leagues card. subst card. split; [|split].
  - intros Hno.
    assert (E : soloRank leagues = None).
    { unfold soloRank. apply find_none_all. intros l Hl.
      apply String.eqb_neq. now apply Hno. }
    now rewrite E.
  - intros entry. unfold soloRank. rewrite find_first.
    split; intros (earlier & later & Hsplit & Hno & Hhit);
      exists earlier, later; (split; [exact Hsplit|]); split.
    + revert Hno. apply Forall_impl. intros l. apply String.eqb_neq.
    + now apply String.eqb_eq.
    + revert Hno. apply Forall_impl. intros l. apply String.eqb_neq.
    + now apply String.eqb_eq.
  - intros entry E. rewrite E.
    unfold soloRank in E. apply find_some in E. destruct E as [Hin Hq].
    apply String.eqb_eq in Hq.
    do 7 (split; [assumption || reflexivity|]).
    cbn [getRankDisplay RankDisplay.winrate].
    destruct (Js.ltb 0 (LeagueEntry.wins entry + LeagueEntry.losses entry))
      eqn:Et.
    + apply ltb_true in Et. split; [|split].
      * unfold Js.round. eexists. reflexivity.
      * intros Hle. exfalso. qlra.
      * intros Hw Hl. now apply round_percent_bounds.
    + split; [|split].
      * exists 0%Z. reflexivity.
      * reflexivity.
      * intros _ _. split; discriminate.
Qed.

(** ** Sorting with any comparator that is an order *)

Section SortByOrder.

Context {A : Type} (cmp : A -> A -> Q).

Hypothesis cmp_trans :
  forall x y z, cmp x y <= 0 -> cmp y z <= 0 -> cmp x z <= 0.
Hypothesis cmp_total : forall x y, 0 < cmp x y -> cmp y x <= 0.

Let before (a b : A) : Prop := cmp a b <= 0.

Lemma insert_ordered (x : A) (l : list A) :
  StronglySorted before l -> StronglySorted before (insert cmp x l).
Proof.
  induction 1 as [|y l Hs IH Hall]; simpl.
  - repeat constructor.
  - destruct (Js.leb (cmp x y) 0) eqn:E.
    + apply leb_true in E.
      constructor; [now constructor|].
      constructor; [exact E|].
      eapply Forall_impl; [|exact Hall].
      intros a Ha. unfold before in *. now apply (cmp_trans x y a).
    + apply leb_false in E.
      constructor; [exact IH|].
      eapply Permutation_Forall; [symmetry; apply insert_perm|].
      constructor; [now apply cmp_total | exact Hall].
Qed.

Lemma sort_ordered (l : list A) : StronglySorted before (sort cmp l).
Proof.
  induction l as [|x l IH]; simpl; [constructor | now apply insert_ordered].
Qed.

(** The first element of the sorted array comes before every element. *)
Lemma sort_head_first (l : list A) (x : A) (rest : list A) :
  sort cmp l = x :: rest -> In x l /\ forall y, In y l -> cmp x y <= 0.
Proof.
  intros E. pose proof (sort_perm cmp l) as P.
  pose proof (sort_ordered l) as S. rewrite E in P, S.
  split; [apply (Permutation_in _ P); now left|].
  intros y Hy. apply (Permutation_in _ (Permutation_sym P)) in Hy.
  inversion S as [|? ? _ Hall]; subst.
  destruct Hy as [<-|Hy].
  - destruct (Qlt_le_dec 0 (cmp x x)) as [H|H]; [now apply cmp_total | exact H].
  - rewrite Forall_forall in Hall. now apply Hall.
Qed.

End SortByOrder.

(** ** Lanes *)

Lemma byWinrateThenGames_le (a b : LaneRow.t) :
  byWinrateThenGames a b <= 0 <-> laneNotWorse a b.
Proof.
  unfold byWinrateThenGames, laneNotWorse.
  destruct (Qeq_bool (LaneRow.winrate b) (LaneRow.winrate a)) eqn:E; simpl.
  - apply Qeq_bool_iff in E. split.
    + intros H. right. split; [exact E | qlra].
    + intros [H|[_ H]]; qlra.
  - apply Qeq_bool_neq in E. split.
    + intros H. left. apply Qle_lteq in H. destruct H as [H|H]; [qlra|].
      exfalso. apply E. qlra.
    + intros [H|[H _]]; [qlra | contradiction].
Qed.

Lemma byWinrateThenGames_trans (x y z : LaneRow.t) :
  byWinrateThenGames x y <= 0 -> byWinrateThenGames y z <= 0 ->
  byWinrateThenGames x z <= 0.
Proof.
  rewrite !byWinrateThenGames_le. unfold laneNotWorse.
  intros [H1|[H1 H1']] [H2|[H2 H2']].
  - left. qlra.
  - left. qlra.
  - left. qlra.
  - right. split; qlra.
Qed.

Lemma byWinrateThenGames_total (x y : LaneRow.t) :
  0 < byWinrateThenGames x y -> byWinrateThenGames y x <= 0.
Proof.
  intros H. apply byWinrateThenGames_le.
  destruct (Qlt_le_dec 0 (byWinrateThenGames y x)) as [H'|H'].
  - exfalso. revert H H'. unfold byWinrateThenGames.
    destruct (Qeq_bool (LaneRow.winrate y) (LaneRow.winrate x)) eqn:E1;
      destruct (Qeq_bool (LaneRow.winrate x) (LaneRow.winrate y)) eqn:E2;
      simpl; intros; try qlra.
    + apply Qeq_bool_iff in E1. apply Qeq_bool_neq in E2.
      apply E2. qlra.
    + apply Qeq_bool_iff in E2. apply Qeq_bool_neq in E1.
      apply E1. qlra.
  - now apply byWinrateThenGames_le.
Qed.

(** [bestLane] is empty when no lane has 5 games; otherwise it names a lane
    with at least 5 games that no other such lane beats: none has a higher
    win rate, and none with the same win rate has more games. *)
Theorem best_lane_is_the_best_of_five_games :
  forall (rows : list LaneRow.t),
    ((forall r, In r rows -> LaneRow.games r < 5) -> bestLane rows = "")
    /\ (forall r0, In r0 rows -> 5 <= LaneRow.games r0 ->
        exists r,
          In r rows /\ bestLane rows = LaneRow.name r
          /\ 5 <= LaneRow.games r
          /\ forall r', In r' rows -> 5 <= LaneRow.games r' ->
                        laneNotWorse r r').
Proof.
  intros rows. unfold bestLane.
  set (validLanes := filter (fun lane => Js.leb 5 (LaneRow.games lane)) rows).
  assert (Hin : forall r, In r validLanes
                          <-> In r rows /\ 5 <= LaneRow.games r).
  { intros r. unfold validLanes. rewrite filter_In, leb_true. reflexivity. }
  split.
  - intros Hno. destruct validLanes as [|r l] eqn:E; [reflexivity|].
    exfalso. assert (Hr : In r (r :: l)) by now left.
    apply Hin in Hr. destruct Hr as [Hr Hg]. specialize (Hno r Hr). qlra.
  - intros r0 Hr0 Hg0.
    assert (H0 : In r0 validLanes) by (apply Hin; auto).
    destruct validLanes as [|r1 l] eqn:E; [contradiction|].
    rewrite <- E in *.
    destruct (sort byWinrateThenGames validLanes) as [|first rest] eqn:Es.
    { exfalso. eapply sort_nonempty; [|exact Es]. rewrite E. discriminate. }
    destruct (sort_head_first byWinrateThenGames byWinrateThenGames_trans
                byWinrateThenGames_total validLanes first rest Es)
      as [Hf Hmin].
    apply Hin in Hf. destruct Hf as [Hf Hg].
    exists first. repeat split; try assumption.
    intros r' Hr' Hg'. apply byWinrateThenGames_le, Hmin, Hin. auto.
Qed.

Lemma getOr_set_same {V : Type} (m : StrMap.t V) (k : string) (v dflt : V) :
  getOr k (StrMap.set k v m) dflt = v.
Proof. unfold getOr. now rewrite get_set_same. Qed.

Lemma getOr_set_other {V : Type} (m : StrMap.t V) (k k' : string)
    (v dflt : V) :
  k' <> k -> getOr k' (StrMap.set k v m) dflt = getOr k' m dflt.
Proof. intros H. unfold getOr. now rewrite get_set_other. Qed.

Lemma laneCount_step (lane : string) (done : list (MatchParticipant * Q))
    (lanes : StrMap.t LaneStats.t) (s : MatchParticipant * Q) :
  lane <> "Unknown" ->
  laneCountInv lane done lanes ->
  laneCountInv lane (done ++ [s]) (countLane (fst s) lanes).
Proof.
  intros Hlane [Hg Hw]. unfold laneCountInv.
  rewrite !countIf_snoc, countLane_set.
  change (wonOnLane lane s) with (onLane lane s && win (fst s)).
  change (onLane lane s)
    with (String.eqb (normalizePosition (teamPosition (fst s))) lane).
  set (mine := normalizePosition (teamPosition (fst s))).
  destruct (String.eqb mine "Unknown") eqn:Eu.
  - apply String.eqb_eq in Eu.
    assert (E : String.eqb mine lane = false)
      by (apply String.eqb_neq; congruence).
    rewrite E. cbn [andb]. rewrite Hg, Hw. split; ring.
  - destruct (String.eqb mine lane) eqn:E.
    + apply String.eqb_eq in E. subst lane.
      rewrite getOr_set_same. unfold bumpLane.
      cbn [LaneStats.games LaneStats.wins andb].
      rewrite <- Hg, <- Hw. destruct (win (fst s)); split; ring.
    + apply String.eqb_neq in E.
      rewrite getOr_set_other by congruence.
      cbn [andb]. rewrite Hg, Hw. split; ring.
Qed.

Lemma laneCount_fold (lane : string) (snaps : list (MatchParticipant * Q)) :
  lane <> "Unknown" ->
  laneCountInv lane snaps
    (Season.a_lanes (fold_left seasonFound snaps Season.init)).
Proof.
  intros Hlane.
  apply (fold_left_processed seasonFound
           (fun done acc => laneCountInv lane done (Season.a_lanes acc))).
  - split; reflexivity.
  - intros done acc s H. unfold seasonFound. cbn [Season.a_lanes].
    now apply laneCount_step.
Qed.

Lemma countIf_mono {A : Type} (f g : A -> bool) (l : list A) :
  (forall a, f a = true -> g a = true) -> countIf f l <= countIf g l.
Proof.
  intros Hfg. induction l as [|a l IH] using rev_ind; [apply Qle_refl|].
  rewrite !countIf_snoc. destruct (f a) eqn:E.
  - rewrite (Hfg a E). qlra.
  - destruct (g a); qlra.
Qed.

(** The lane rows of the profile page: always the five lanes in the order
    Top, Jng, Mid, Adc, Sup; the games of a row are the number of the
    target player's snapshots on that lane (0 for a lane not played); and
    its win rate is a whole percentage between 0 and 100. *)
Theorem lane_rows_count_snapshots :
  forall (matchesData : list MatchData) (target : string),
    let rows := lanesData (Analysis.of_matches matchesData target) in
    map LaneRow.name rows = allLanes
    /\ Forall
         (fun r =>
            LaneRow.games r
            == countIf (onLane (LaneRow.name r))
                 (targetSnapshots target matchesData)
            /\ 0 <= LaneRow.winrate r <= 100)
         rows.
Proof.
  intros matchesData target rows. subst rows. split; [reflexivity|].
  unfold lanesData, Analysis.of_matches, Analysis.merge.
  cbn [Analysis.lanes]. rewrite season_analysis_finish.
  unfold Season.finish. cbn [Season.lanes].
  set (snaps := targetSnapshots target matchesData).
  apply Forall_forall. intros r Hr. apply in_map_iff in Hr.
  destruct Hr as (name & <- & Hname). cbn [LaneRow.name LaneRow.games
    LaneRow.winrate].
  assert (Hk : name <> "Unknown")
    by (intro E; subst; simpl in Hname; intuition discriminate).
  destruct (laneCount_fold name snaps Hk) as [Hg Hw].
  unfold getOr in Hg, Hw.
  set (stats := match StrMap.get name _ with
                | Some st => st | None => LaneStats.mk 0 0 end) in *.
  split; [exact Hg|].
  destruct (Js.ltb 0 (LaneStats.games stats)) eqn:E; [|split; discriminate].
  apply ltb_true in E.
  pose proof (countIf_nonneg (wonOnLane name) snaps) as H0.
  pose proof (countIf_mono (wonOnLane name) (onLane name) snaps) as H1.
  assert (Hle : LaneStats.wins stats <= LaneStats.games stats).
  { rewrite Hg, Hw. apply H1. intros a Ha. unfold wonOnLane in Ha.
    now apply andb_true_iff in Ha. }
  rewrite <- Hw in H0.
  apply round_ratio_bounds; [split; assumption | exact E].
Qed.

(** ** The most played champion *)

Lemma most_played_fold (l : list ChampionStats.t) :
  forall best r,
    fold_left
      (fun best current =>
         if Js.ltb (ChampionStats.games best) (ChampionStats.games current)
         then current else best) l best = r ->
    (r = best
     /\ Forall (fun c => ChampionStats.games c <= ChampionStats.games best) l)
    \/ exists l1 l2,
         l = l1 ++ r :: l2
         /\ ChampionStats.games best < ChampionStats.games r
         /\ Forall (fun c => ChampionStats.games c < ChampionStats.games r) l1
         /\ Forall (fun c => ChampionStats.games c <= ChampionStats.games r)
              l2.
Proof.
  induction l as [|c l IH]; intros best r Hr; simpl in Hr.
  - left. split; [now symmetry | constructor].
  - destruct (Js.ltb (ChampionStats.games best) (ChampionStats.games c))
      eqn:E.
    + apply ltb_true in E. right.
      destruct (IH c r Hr) as [[-> Hl]|(l1 & l2 & Hl & Hlt & H1 & H2)].
      * exists [], l. simpl.
        split; [reflexivity|]. split; [assumption|].
        split; [constructor | assumption].
      * exists (c :: l1), l2. simpl.
        split; [now f_equal|]. split; [qlra|].
        split; [constructor; assumption | assumption].
    + apply ltb_false in E.
      destruct (IH best r Hr) as [[-> Hl]|(l1 & l2 & Hl & Hlt & H1 & H2)].
      * left. split; [reflexivity|]. constructor; assumption.
      * right. exists (c :: l1), l2. simpl.
        split; [now f_equal|]. split; [assumption|].
        split; [constructor; [qlra | assumption] | assumption].
Qed.

(** [mostPlayedChamp] is [null] exactly for an empty champion table;
    otherwise it is the first champion of the table, in table order, with
    the largest number of games. *)
Theorem most_played_champion_is_first_maximum :
  forall (a : Analysis.t),
    let values := StrMap.values (Analysis.champions a) in
    (mostPlayedChamp a = None <-> values = [])
    /\ forall c,
        mostPlayedChamp a = Some c ->
        exists l1 l2,
          values = l1 ++ c :: l2
          /\ Forall (fun c' => ChampionStats.games c'
                               < ChampionStats.games c) l1
          /\ Forall (fun c' => ChampionStats.games c'
                               <= ChampionStats.games c) l2.
Proof.
  intros a values. unfold mostPlayedChamp. fold values.
  destruct values as [|first rest].
  - split; [tauto | discriminate].
  - split; [split; discriminate|].
    intros c [= Hc]. cbn [fold_left] in Hc.
    assert (E : Js.ltb (ChampionStats.games first)
                       (ChampionStats.games first) = false)
      by (apply ltb_false; apply Qle_refl).
    rewrite E in Hc.
    destruct (most_played_fold rest first c Hc)
      as [[-> Hl]|(l1 & l2 & Hr & Hlt & H1 & H2)].
    + exists [], rest. simpl.
      split; [reflexivity|]. split; [constructor | assumption].
    + exists (first :: l1), l2. simpl.
      split; [now f_equal|].
      split; [constructor; assumption | assumption].
Qed.

(** ** The match list and its filter *)

Lemma passesFilter_found (matchFilter : MatchFilter) (target : string)
    (m : MatchData) (p : MatchParticipant) :
  findParticipant target m = Some p ->
  passesFilter matchFilter target m = keptBy matchFilter (p, gameDuration m).
Proof.
  intros E. unfold passesFilter. rewrite E. destruct matchFilter; reflexivity.
Qed.

Lemma cards_snapshots (matchFilter : MatchFilter) (target : string)
    (recent : list MatchData) :
  map cardSnapshot (matchCards matchFilter target recent)
  = filter (keptBy matchFilter) (targetSnapshots target recent).
Proof.
  unfold matchCards.
  induction recent as [|m ms IH]; [reflexivity|].
  cbn [filter targetSnapshots flat_map]. fold (targetSnapshots target ms).
  rewrite filter_app, <- IH.
  destruct (findParticipant target m) as [p|] eqn:E.
  - rewrite (passesFilter_found matchFilter target m p E).
    cbn [filter].
    destruct (keptBy matchFilter (p, gameDuration m)).
    + cbn [flat_map]. rewrite E. reflexivity.
    + reflexivity.
  - cbn [filter app].
    destruct (passesFilter matchFilter target m); [|reflexivity].
    cbn [flat_map]. rewrite E. reflexivity.
Qed.

Lemma len_map {A B : Type} (f : A -> B) (l : list A) :
  Js.len (map f l) = Js.len l.
Proof. unfold Js.len. now rewrite length_map. Qed.

(** The tabs of the match list agree with the counters of the recent
    window: the wins tab shows as many cards as the window has wins, all of
    them won; the losses tab as many as it has losses, all of them lost; and
    the tab for everything shows wins plus losses cards.  Every card shows
    the snapshot of the target player in its match. *)
Theorem match_list_tabs_agree_with_counters :
  forall (recent : list MatchData) (target : string),
    let r := Recent.analysis recent target in
    Js.len (matchCards FilterWins target recent) == Recent.wins r
    /\ Js.len (matchCards FilterLosses target recent) == Recent.losses r
    /\ Js.len (matchCards FilterAll target recent)
       == Recent.wins r + Recent.losses r
    /\ Forall (fun c => win (snd c) = true)
         (matchCards FilterWins target recent)
    /\ Forall (fun c => win (snd c) = false)
         (matchCards FilterLosses target recent)
    /\ forall f, Forall (fun c => findParticipant target (fst c)
                                  = Some (snd c))
                   (matchCards f target recent).
Proof.
  intros recent target. cbv zeta.
  rewrite recent_analysis_finish.
  destruct (seasonCounts_fold (targetSnapshots target recent))
    as (_ & Hw & Hl & _).
  unfold Recent.finish, forgetChampions.
  cbn [Recent.wins Recent.losses Recent.a_wins Recent.a_losses].
  rewrite Hw, Hl.
  rewrite <- !(len_map cardSnapshot), !cards_snapshots.
  split; [reflexivity|]. split; [reflexivity|]. split.
  { rewrite countIf_split.
    rewrite forallb_filter_id; [reflexivity|].
    now apply forallb_forall. }
  assert (Hkept : forall f c, In c (matchCards f target recent) ->
                              keptBy f (cardSnapshot c) = true).
  { intros f c Hc. apply (in_map cardSnapshot) in Hc.
    rewrite cards_snapshots in Hc. now apply filter_In in Hc. }
  split; [|split].
  - apply Forall_forall. intros c Hc. exact (Hkept FilterWins c Hc).
  - apply Forall_forall. intros c Hc.
    apply negb_true_iff. exact (Hkept FilterLosses c Hc).
  - intros f. apply Forall_forall. intros [m p] Hc.
    unfold matchCards in Hc. apply in_flat_map in Hc.
    destruct Hc as (m' & _ & Hc). cbn [fst snd].
    destruct (findParticipant target m') as [p'|] eqn:E; [|contradiction].
    destruct Hc as [[= <- <-]|[]]. exact E.
Qed.

(** ** The impact histogram and gauge *)

Lemma fold_max_compat (l : list Q) (a b : Q) :
  a == b -> fold_left Js.max l a == fold_left Js.max l b.
Proof.
  revert a b. induction l as [|x l IH]; intros a b E; simpl; [exact E|].
  apply IH. unfold Js.max. now apply Q.max_compat.
Qed.

Lemma fold_max_bound (l : list Q) (c : Q) :
  Forall (fun x => x <= c) l -> fold_left Js.max l c == c.
Proof.
  induction 1 as [|x l Hx _ IH]; simpl; [reflexivity|].
  rewrite (fold_max_compat l (Js.max c x) c); [exact IH|].
  unfold Js.max. now apply Q.max_l.
Qed.

Lemma lit_segments (k n : nat) :
  (k <= n)%nat ->
  map (fun i => Js.ltb (inject_Z (Z.of_nat i)) (inject_Z (Z.of_nat k)))
      (seq 0 n)
  = repeat true k ++ repeat false (n - k).
Proof.
  intros Hk.
  assert (H : forall m start,
             map (fun i => Js.ltb (inject_Z (Z.of_nat i))
                                  (inject_Z (Z.of_nat k))) (seq start m)
             = repeat true (Nat.min m (k - start))
               ++ repeat false (m - (k - start))).
  { induction m as [|m IH]; intros start; [reflexivity|].
    cbn [seq map]. rewrite IH.
    destruct (Js.ltb (inject_Z (Z.of_nat start)) (inject_Z (Z.of_nat k)))
      eqn:E.
    - apply ltb_true in E. rewrite <- Zlt_Qlt in E.
      replace (k - start)%nat with (S (k - S start)) by lia.
      cbn [Nat.min Nat.sub repeat app]. reflexivity.
    - apply ltb_false in E. rewrite <- Zle_Qle in E.
      replace (k - start)%nat with 0%nat by lia.
      replace (k - S start)%nat with 0%nat by lia.
      rewrite !Nat.min_0_r, !Nat.sub_0_r. reflexivity. }
  rewrite H, Nat.sub_0_r. now rewrite Nat.min_r by lia.
Qed.

(** The histogram of the profile page has between 1 and 20 bars (five
    empty bars when there is no impact score), the impact scores of the
    combined view from the oldest to the most recent; its scale is always
    10 and no bar leaves it.  The gauge fills a whole number of its 15
    segments, from the left. *)
Theorem histogram_and_gauge_are_in_range :
  forall (matchesData : list MatchData) (target : string),
    let a := Analysis.of_matches matchesData target in
    (1 <= List.length (histogramBars a) <= 20)%nat
    /\ histogramData a = rev (Analysis.impactScores a)
    /\ histogramMax a == 10
    /\ Forall (fun x => 0 <= x <= histogramMax a) (histogramBars a)
    /\ exists k,
         (k <= 15)%nat
         /\ impactFill a = inject_Z (Z.of_nat k)
         /\ impactSegments a = repeat true k ++ repeat false (15 - k).
Proof.
  intros matchesData target. cbv zeta.
  destruct (of_matches_impacts matchesData target) as (Hlen & Hb & Ha & _).
  cbv zeta in Ha. revert Hlen Hb Ha.
  generalize (Analysis.of_matches matchesData target) as a.
  intros a Hlen Hb Ha.
  assert (Hdata : histogramData a = rev (Analysis.impactScores a)).
  { unfold histogramData, Js.slice. cbn [Nat.sub skipn].
    now rewrite firstn_all2 by lia. }
  assert (Hbars : Forall (fun x => 0 <= x <= 10) (histogramBars a)).
  { unfold histogramBars.
    destruct (0 <? List.length (histogramData a))%nat.
    - rewrite Hdata. apply Forall_rev. exact Hb.
    - repeat constructor; discriminate. }
  assert (Hmax : histogramMax a == 10).
  { unfold histogramMax. apply fold_max_bound.
    eapply Forall_impl; [|exact Hbars]. intros x Hx. apply Hx. }
  split; [|split; [exact Hdata|split; [exact Hmax|split]]].
  - unfold histogramBars.
    destruct (0 <? List.length (histogramData a))%nat eqn:E.
    + apply Nat.ltb_lt in E. split; [lia|].
      rewrite Hdata, length_rev. exact Hlen.
    + simpl. lia.
  - eapply Forall_impl; [|exact Hbars]. intros x Hx. rewrite Hmax. exact Hx.
  - assert (Havg : 0 <= Analysis.avgImpact a <= 10)
      by (rewrite Ha; apply averageOr_bounds;
          [exact Hb | split; discriminate]).
    unfold impactSegments, impactFill, impactSegmentCount.
    change (inject_Z (Z.of_nat 15)) with 15.
    set (x := Js.min (Analysis.avgImpact a) 10 / 10 * 15 + (1 # 2)).
    assert (Hmin : 0 <= Js.min (Analysis.avgImpact a) 10 <= 10)
      by (split; [apply min_nonneg; [apply Havg | discriminate]
                 | apply min_le_r]).
    assert (Hlo : (Qfloor 0 <= Qfloor x)%Z).
    { apply Qfloor_resp_le. unfold x.
      assert (0 <= Js.min (Analysis.avgImpact a) 10 / 10)
        by (apply div_nonneg; [apply Hmin | reflexivity]).
      qlra. }
    assert (Hhi : (Qfloor x <= Qfloor (31 # 2))%Z).
    { apply Qfloor_resp_le. unfold x.
      assert (Js.min (Analysis.avgImpact a) 10 / 10 <= 1)
        by (apply Qle_shift_div_r; [reflexivity | qlra]).
      qlra. }
    change (Qfloor 0) with 0%Z in Hlo.
    change (Qfloor (31 # 2)) with 15%Z in Hhi.
    unfold Js.round. fold x.
    remember (Qfloor x) as z eqn:Ez. clear Ez.
    destruct (Z_of_nat_complete z Hlo) as [k ->].
    exists k. split; [lia|]. split; [reflexivity|].
    apply lit_segments. lia.
Qed.

(** * Properties of the feedback rules *)

(** ** The two items that are shown *)

Lemma sorted_app_order {A : Type} (R : A -> A -> Prop) (l1 l2 : list A) :
  StronglySorted R (l1 ++ l2) ->
  forall x y, In x l1 -> In y l2 -> R x y.
Proof.
  induction l1 as [|a l1 IH]; simpl; intros Hs x y Hx Hy; [contradiction|].
  inversion Hs as [|? ? Hs' Hall]; subst.
  destruct Hx as [<-|Hx].
  - rewrite Forall_forall in Hall. apply Hall, in_or_app. now right.
  - now apply IH.
Qed.

Lemma sorted_prefix {A : Type} (R : A -> A -> Prop) (l1 l2 : list A) :
  StronglySorted R (l1 ++ l2) -> StronglySorted R l1.
Proof.
  induction l1 as [|a l1 IH]; simpl; intros Hs; [constructor|].
  inversion Hs as [|? ? Hs' Hall]; subst. constructor; [now apply IH|].
  apply Forall_app in Hall. tauto.
Qed.

(** Of a pool of feedback items the page shows one or two: the fallback
    item alone when the pool is empty, and otherwise the top two of the
    pool by priority (the only item of a pool of one), in descending
    order; nothing that is left out has a higher priority than an item
    that is shown. *)
Theorem feedback_shows_the_top_two :
  forall (pool : list FeedbackItem) (fallback : FeedbackItem),
    let shown := topTwo pool fallback in
    (1 <= List.length shown <= 2)%nat
    /\ List.length shown = Nat.max 1 (Nat.min 2 (List.length pool))
    /\ StronglySorted (fun x y => priority y <= priority x) shown
    /\ (pool = [] -> shown = [fallback])
    /\ (pool <> [] ->
        exists rest,
          Permutation pool (shown ++ rest)
          /\ forall x y, In x shown -> In y rest ->
                         priority y <= priority x).
Proof.
  intros pool fallback. cbv zeta. unfold topTwo, Js.slice.
  cbn [Nat.sub skipn].
  set (sorted := sort (fun a b => priority b - priority a) pool).
  pose proof (sort_perm (fun a b => priority b - priority a) pool) as Hperm.
  pose proof (sort_sorted priority pool) as Hsorted.
  fold sorted in Hperm, Hsorted.
  pose proof (Permutation_length Hperm) as Hlen.
  pose proof (firstn_skipn 2 sorted) as Hsplit.
  pose proof (length_firstn 2 sorted) as Hfirst.
  destruct (firstn 2 sorted) as [|x best] eqn:E.
  - cbn [List.length] in Hfirst.
    assert (Hnil : pool = []).
    { destruct pool; [reflexivity|]. cbn [List.length] in Hlen. lia. }
    subst pool. cbn [List.length].
    split; [lia|]. split; [reflexivity|].
    split; [repeat constructor|]. split; [reflexivity | congruence].
  - rewrite <- E in *. rewrite <- Hsplit in Hperm, Hsorted.
    assert (Hpos : (1 <= List.length (firstn 2 sorted))%nat)
      by (rewrite E; cbn [List.length]; lia).
    split; [lia|]. split; [lia|].
    split; [now apply sorted_prefix in Hsorted|].
    split.
    + intros ->. cbn [List.length] in Hlen. lia.
    + intros _. exists (skipn 2 sorted).
      split; [now symmetry|].
      intros a b Ha Hb.
      exact (sorted_app_order _ _ _ Hsorted a b Ha Hb).
Qed.

Lemma topTwo_In (pool : list FeedbackItem) (fallback x : FeedbackItem) :
  In x (topTwo pool fallback) ->
  In x pool \/ (pool = [] /\ x = fallback).
Proof.
  unfold topTwo, Js.slice. cbn [Nat.sub skipn].
  set (sorted := sort (fun a b => priority b - priority a) pool).
  pose proof (sort_perm (fun a b => priority b - priority a) pool) as Hperm.
  fold sorted in Hperm.
  pose proof (firstn_skipn 2 sorted) as Hsplit.
  destruct (firstn 2 sorted) as [|y best] eqn:E.
  - intros [<-|[]]. right. split; [|reflexivity].
    destruct pool as [|p pool]; [reflexivity|].
    apply Permutation_length in Hperm. rewrite <- Hsplit in Hperm.
    pose proof (length_skipn 2 sorted) as Hskip.
    assert (Hlen : (List.length sorted <= 2)%nat).
    { destruct sorted as [|s1 [|s2 sorted']]; cbn [List.length]; try lia.
      discriminate E. }
    cbn [app List.length] in Hperm. lia.
  - intros Hx. left. apply (Permutation_in _ Hperm).
    rewrite <- Hsplit. apply in_or_app. now left.
Qed.

(** ** What a rule that fired says about the analysis *)

Ltac bool_facts :=
  repeat match goal with
  | H : (_ && _)%bool = true |- _ =>
      apply andb_true_iff in H; destruct H
  | H : sqrt_lt _ _ = true |- _ => unfold sqrt_lt in H
  | H : sqrt_gt _ _ = true |- _ => unfold sqrt_gt in H
  | H : Js.leb _ _ = true |- _ => apply leb_true in H
  | H : Js.leb _ _ = false |- _ => apply leb_false in H
  | H : Js.ltb _ _ = true |- _ => apply ltb_true in H
  | H : Js.ltb _ _ = false |- _ => apply ltb_false in H
  end.

Ltac rule_fired H :=
  repeat match type of H with
  | In _ (if ?c then _ else _) => destruct c eqn:?
  end;
  cbn [In] in H;
  first [ contradiction
        | destruct H as [<-|[]] ].

Ltac fact_holds :=
  bool_facts;
  first [ assumption | qlra | split; qlra
        | left; qlra | right; left; qlra | right; right; qlra ].

Lemma strength_rule (a : Analysis.t) (x : FeedbackItem) :
  In x (allStrengths a) -> strengthFact a (topic (text x)).
Proof.
  unfold allStrengths. rewrite !in_app_iff.
  intros [H|[H|[H|[H|[H|[H|[H|[H|[H|H]]]]]]]]].
  - unfold strengthsImpact in H. rule_fired H;
      cbn [text topic strengthFact]; fact_holds.
  - unfold strengthsWinrate in H. rule_fired H;
      cbn [text topic strengthFact]; fact_holds.
  - unfold strengthsKda in H. rule_fired H;
      cbn [text topic strengthFact]; fact_holds.
  - unfold strengthsDeaths in H. rule_fired H;
      cbn [text topic strengthFact]; fact_holds.
  - unfold strengthsTrend in H. rule_fired H;
      cbn [text topic strengthFact]; fact_holds.
  - unfold strengthsFights in H. rule_fired H;
      cbn [text topic strengthFact]; fact_holds.
  - unfold strengthsAssists in H. rule_fired H;
      cbn [text topic strengthFact]; fact_holds.
  - unfold strengthsKills in H. rule_fired H;
      cbn [text topic strengthFact]; fact_holds.
  - unfold strengthsStability in H. rule_fired H;
      cbn [text topic strengthFact]; fact_holds.
  - unfold strengthsBestChamp in H. rule_fired H;
      cbn [text topic strengthFact]; fact_holds.
Qed.

Lemma improvement_rule (a : Analysis.t) (x : FeedbackItem) :
  In x (allImprovements a) -> improvementFact a (topic (text x)).
Proof.
  unfold allImprovements. rewrite !in_app_iff.
  intros [H|[H|[H|[H|[H|[H|H]]]]]].
  - unfold improvementsImpact in H. rule_fired H;
      cbn [text topic improvementFact]; fact_holds.
  - unfold improvementsWinrate in H. rule_fired H;
      cbn [text topic improvementFact]; fact_holds.
  - unfold improvementsDeaths in H. rule_fired H;
      cbn [text topic improvementFact]; fact_holds.
  - unfold improvementsKda in H. rule_fired H;
      cbn [text topic improvementFact]; fact_holds.
  - unfold improvementsTrend in H. rule_fired H;
      cbn [text topic improvementFact]; fact_holds.
  - unfold improvementsStability in H. rule_fired H;
      cbn [text topic improvementFact]; fact_holds.
  - unfold improvementsActivity in H. rule_fired H;
      cbn [text topic improvementFact]; fact_holds.
Qed.

Lemma facts_exclude (a : Analysis.t) (t : Topic) :
  strengthFact a t -> improvementFact a t -> False.
Proof.
  destruct t; cbn [strengthFact improvementFact]; intros Hs Hi;
    try contradiction; try qlra.
  unfold killParticipation in Hs. qlra.
Qed.

(** A metric is never praised and criticised at once: no strength and no
    improvement that the rules push speak about the same topic, and of
    the items shown only the two fallback texts can stand side by side
    with the same topic. *)
Theorem feedback_never_contradicts_itself :
  forall (a : Analysis.t),
    (forall x y, In x (allStrengths a) -> In y (allImprovements a) ->
                 topic (text x) <> topic (text y))
    /\ (forall x y, In x (strengths a) -> In y (improvements a) ->
                    topic (text x) = topic (text y) ->
                    allStrengths a = [] /\ allImprovements a = []
                    /\ text x = PlayMore /\ text y = KeepGoing).
Proof.
  intros a.
  assert (Hpool : forall x y, In x (allStrengths a) ->
                              In y (allImprovements a) ->
                              topic (text x) <> topic (text y)).
  { intros x y Hx Hy Heq.
    apply strength_rule in Hx. apply improvement_rule in Hy.
    rewrite Heq in Hx. exact (facts_exclude _ _ Hx Hy). }
  split; [exact Hpool|].
  intros x y Hx Hy Heq.
  apply topTwo_In in Hx. apply topTwo_In in Hy.
  destruct Hx as [Hx|[Hsx ->]], Hy as [Hy|[Hsy ->]].
  - destruct (Hpool x y Hx Hy Heq).
  - apply strength_rule in Hx. rewrite Heq in Hx. destruct Hx.
  - apply improvement_rule in Hy. rewrite <- Heq in Hy. destruct Hy.
  - repeat (split; [assumption || reflexivity|]). reflexivity.
Qed.

Lemma feedback_shows_the_top_two_witness :
  topTwo [] (mkItem PlayMore 0) = [mkItem PlayMore 0]
  /\ exists rest,
       Permutation (allStrengths Sample.steady)
         (strengths Sample.steady ++ rest)
       /\ forall x y,
            In x (strengths Sample.steady) ->
            In y rest -> priority y <= priority x.
Proof.
  split.
  - exact (proj1 (proj2 (proj2 (proj2
             (feedback_shows_the_top_two [] (mkItem PlayMore 0)))))
           eq_refl).
  - assert (Hne : allStrengths Sample.steady
                  <> []).
    { assert (Hb : match allStrengths
                           Sample.steady with
                   | [] => false
                   | _ :: _ => true
                   end = true) by (vm_compute; reflexivity).
      intros Hnil. rewrite Hnil in Hb. discriminate Hb. }
    exact (proj2 (proj2 (proj2 (proj2
             (feedback_shows_the_top_two
                (allStrengths Sample.steady)
                (mkItem PlayMore 0)))))
           Hne).
Defined.

Lemma feedback_never_contradicts_itself_witness :
  topic WinratePhenomenal <> topic ImpactAverage
  /\ allStrengths Sample.quiet = [] /\ allImprovements Sample.quiet = [].
Proof.
  split.
  - assert (Hx : In (mkItem WinratePhenomenal 10)
                    (allStrengths Sample.steady))
      by (vm_compute; auto 12).
    assert (Hy : In (mkItem ImpactAverage 4)
                    (allImprovements Sample.steady))
      by (vm_compute; auto 12).
    exact (proj1 (feedback_never_contradicts_itself
                    Sample.steady)
             _ _ Hx Hy).
  - assert (Hx : In (mkItem PlayMore 0) (strengths Sample.quiet))
      by (left; reflexivity).
    assert (Hy : In (mkItem KeepGoing 0) (improvements Sample.quiet))
      by (left; reflexivity).
    destruct (proj2 (feedback_never_contradicts_itself Sample.quiet)
                _ _ Hx Hy eq_refl) as [Hs [Hi _]].
    exact (conj Hs Hi).
Defined.

(** ** The stability rules and the stability label *)

Lemma sqrt_gt_iff (x t : R) :
  (0 <= t)%R -> ((t < sqrt x)%R <-> (t * t < x)%R).
Proof.
  intros Ht. split; intros H.
  - apply sqrt_lt_0_alt. now rewrite sqrt_square.
  - rewrite <- (sqrt_square t Ht) at 1.
    apply sqrt_lt_1_alt. split; [|assumption].
    apply Rmult_le_pos; assumption.
Qed.

(** The tests of the rule table on the variance are the tests of the
    source on its square root. *)
Lemma sqrt_lt_sound (v t : Q) :
  0 < t -> (sqrt_lt v t = true <-> (sqrt (Q2R v) < Q2R t)%R).
Proof.
  intros Ht. unfold sqrt_lt. rewrite ltb_true.
  symmetry. now apply sqrt_Q2R_lt.
Qed.

Lemma sqrt_gt_sound (v t : Q) :
  0 <= t -> (sqrt_gt v t = true <-> (Q2R t < sqrt (Q2R v))%R).
Proof.
  intros Ht. unfold sqrt_gt. rewrite ltb_true.
  apply Qle_Rle in Ht. rewrite RMicromega.Q2R_0 in Ht.
  rewrite sqrt_gt_iff by assumption. rewrite <- Q2R_mult.
  split; [apply Qlt_Rlt | apply Rlt_Qlt].
Qed.

Lemma strengthsStability_label (a : Analysis.t) :
  strengthsStability a =
  match getStability_exec a with
  | Wysoka => [mkItem VeryConsistent 7]
  | Srednia =>
      if Js.ltb (varianceOf (Analysis.impactScores a)
                            (Analysis.avgImpact a)) (1.5 * 1.5)
      then [mkItem StableForm 4] else []
  | Niska | MaloDanych => []
  end.
Proof.
  unfold strengthsStability, getStability_exec, feedbackVariance,
    enoughSamples, sqrt_lt.
  rewrite Nat.ltb_antisym.
  destruct (5 <=? List.length (Analysis.impactScores a))%nat;
    cbn [negb]; rewrite ?andb_true_r, ?andb_false_r; [|reflexivity].
  generalize (varianceOf (Analysis.impactScores a) (Analysis.avgImpact a)).
  intros v.
  destruct (Js.ltb v (1 * 1)) eqn:E1, (Js.ltb v 1) eqn:E1',
           (Js.ltb v 4) eqn:E4, (Js.ltb v (1.5 * 1.5)) eqn:E2;
    try reflexivity; bool_facts; exfalso; qlra.
Qed.

Lemma improvementsStability_label (a : Analysis.t) :
  improvementsStability a =
  match getStability_exec a with
  | Niska =>
      if Js.ltb (2.5 * 2.5) (varianceOf (Analysis.impactScores a)
                                        (Analysis.avgImpact a))
      then [mkItem FormSwings 6]
      else if Js.ltb (2 * 2) (varianceOf (Analysis.impactScores a)
                                         (Analysis.avgImpact a))
      then [mkItem FormUnstable 4] else []
  | Wysoka | Srednia | MaloDanych => []
  end.
Proof.
  unfold improvementsStability, getStability_exec, feedbackVariance,
    enoughSamples, sqrt_gt.
  rewrite Nat.ltb_antisym.
  destruct (5 <=? List.length (Analysis.impactScores a))%nat;
    cbn [negb]; rewrite ?andb_true_r, ?andb_false_r; [|reflexivity].
  generalize (varianceOf (Analysis.impactScores a) (Analysis.avgImpact a)).
  intros v.
  destruct (Js.ltb (2.5 * 2.5) v) eqn:E1, (Js.ltb v 1) eqn:E1',
           (Js.ltb v 4) eqn:E4, (Js.ltb (2 * 2) v) eqn:E2;
    try reflexivity; bool_facts; exfalso; qlra.
Qed.

Lemma stability_strength_iff (a : Analysis.t) (x : FeedbackItem) :
  topic (text x) = TStability ->
  (In x (allStrengths a) <-> In x (strengthsStability a)).
Proof.
  intros Ht. split.
  - unfold allStrengths. rewrite !in_app_iff.
    intros [H|[H|[H|[H|[H|[H|[H|[H|[H|H]]]]]]]]]; try exact H.
    + unfold strengthsImpact in H. rule_fired H; discriminate Ht.
    + unfold strengthsWinrate in H. rule_fired H; discriminate Ht.
    + unfold strengthsKda in H. rule_fired H; discriminate Ht.
    + unfold strengthsDeaths in H. rule_fired H; discriminate Ht.
    + unfold strengthsTrend in H. rule_fired H; discriminate Ht.
    + unfold strengthsFights in H. rule_fired H; discriminate Ht.
    + unfold strengthsAssists in H. rule_fired H; discriminate Ht.
    + unfold strengthsKills in H. rule_fired H; discriminate Ht.
    + unfold strengthsBestChamp in H. rule_fired H; discriminate Ht.
  - intros H. unfold allStrengths. rewrite !in_app_iff. tauto.
Qed.

Lemma stability_improvement_iff (a : Analysis.t) (x : FeedbackItem) :
  topic (text x) = TStability ->
  (In x (allImprovements a) <-> In x (improvementsStability a)).
Proof.
  intros Ht. split.
  - unfold allImprovements. rewrite !in_app_iff.
    intros [H|[H|[H|[H|[H|[H|H]]]]]]; try exact H.
    + unfold improvementsImpact in H. rule_fired H; discriminate Ht.
    + unfold improvementsWinrate in H. rule_fired H; discriminate Ht.
    + unfold improvementsDeaths in H. rule_fired H; discriminate Ht.
    + unfold improvementsKda in H. rule_fired H; discriminate Ht.
    + unfold improvementsTrend in H. rule_fired H; discriminate Ht.
    + unfold improvementsActivity in H. rule_fired H; discriminate Ht.
  - intros H. unfold allImprovements. rewrite !in_app_iff. tauto.
Qed.

(** The feedback and the stability label agree, though each computes the
    deviation on its own: "very consistent" is a strength exactly when
    the label is "Wysoka"; "stable form" is one only under the label
    "Srednia"; a stability improvement is pushed only under the label
    "Niska"; and under "Malo danych" no rule speaks about stability. *)
Theorem stability_feedback_agrees_with_label :
  forall (a : Analysis.t),
    (In (mkItem VeryConsistent 7) (allStrengths a)
     <-> getStability a = Wysoka)
    /\ (In (mkItem StableForm 4) (allStrengths a) ->
        getStability a = Srednia)
    /\ (forall x, In x (allImprovements a) ->
                  topic (text x) = TStability ->
                  getStability a = Niska)
    /\ (getStability a = MaloDanych ->
        forall x, In x (allStrengths a) \/ In x (allImprovements a) ->
                  topic (text x) <> TStability).
Proof.
  intros a. rewrite getStability_exec_agrees.
  pose proof (strengthsStability_label a) as Hs.
  pose proof (improvementsStability_label a) as Hi.
  split; [|split; [|split]].
  - rewrite (stability_strength_iff a (mkItem VeryConsistent 7) eq_refl), Hs.
    destruct (getStability_exec a); cbn [In].
    + split; [intros [] | intros H; discriminate H].
    + split; [intros _; reflexivity | intros _; left; reflexivity].
    + split; [|intros H; discriminate H].
      destruct (Js.ltb _ _); cbn [In]; intros H;
        [destruct H as [H|[]]; discriminate H | destruct H].
    + split; [intros [] | intros H; discriminate H].
  - rewrite (stability_strength_iff a (mkItem StableForm 4) eq_refl), Hs.
    destruct (getStability_exec a); cbn [In];
      try contradiction; try reflexivity.
    intros [H|[]]; discriminate H.
  - intros x Hx Ht. rewrite (stability_improvement_iff a x Ht), Hi in Hx.
    destruct (getStability_exec a); cbn [In] in Hx;
      try contradiction; reflexivity.
  - intros Hm x [Hx|Hx] Ht.
    + rewrite (stability_strength_iff a x Ht), Hs, Hm in Hx. exact Hx.
    + rewrite (stability_improvement_iff a x Ht), Hi, Hm in Hx. exact Hx.
Qed.

Lemma stability_feedback_agrees_with_label_witness :
  getStability Sample.steady = Wysoka
  /\ forall x, In x (allStrengths Sample.quiet)
               \/ In x (allImprovements Sample.quiet) ->
               topic (text x) <> TStability.
Proof.
  split.
  - assert (Hx : In (mkItem VeryConsistent 7)
                    (allStrengths Sample.steady))
      by (vm_compute; auto 12).
    exact (proj1 (proj1 (stability_feedback_agrees_with_label
                           Sample.steady))
             Hx).
  - assert (Hm : getStability Sample.quiet = MaloDanych) by reflexivity.
    exact (proj2 (proj2 (proj2
             (stability_feedback_agrees_with_label Sample.quiet))) Hm).
Defined.

(** * The page properties on sample data *)

Lemma rank_display_of_solo_entry_witness :
  getRankDisplay (soloRank [Sample.flexEntry])
  = RankDisplay.mk "Unranked" "" 0 0 0 0
  /\ soloRank Sample.leagues = Some Sample.soloEntry
  /\ RankDisplay.rank (getRankDisplay (soloRank Sample.leagues)) = "IV"
  /\ 0 <= RankDisplay.winrate (getRankDisplay (soloRank Sample.leagues))
     <= 100.
Proof.
  split.
  - apply (proj1 (rank_display_of_solo_entry [Sample.flexEntry])).
    intros l [<-|[]] H. discriminate H.
  - assert (Hfirst : soloRank Sample.leagues = Some Sample.soloEntry).
    { apply (proj1 (proj2 (rank_display_of_solo_entry Sample.leagues))).
      exists [Sample.flexEntry], []. split; [reflexivity|].
      split; [|reflexivity].
      constructor; [|constructor]. intros H. discriminate H. }
    split; [exact Hfirst|].
    destruct (proj2 (proj2 (rank_display_of_solo_entry Sample.leagues))
                Sample.soloEntry Hfirst)
      as (_ & _ & _ & Hrank & _ & _ & _ & _ & _ & Hwr).
    split; [exact Hrank|].
    apply Hwr; cbn [LeagueEntry.wins LeagueEntry.losses Sample.soloEntry];
      qlra.
Defined.

Lemma best_lane_is_the_best_of_five_games_witness :
  bestLane [Sample.supRow] = ""
  /\ exists r,
       In r Sample.laneRows /\ bestLane Sample.laneRows = LaneRow.name r
       /\ 5 <= LaneRow.games r
       /\ forall r', In r' Sample.laneRows -> 5 <= LaneRow.games r' ->
                     laneNotWorse r r'.
Proof.
  split.
  - apply (proj1 (best_lane_is_the_best_of_five_games [Sample.supRow])).
    intros r [<-|[]]. cbn [LaneRow.games Sample.supRow]. qlra.
  - apply (proj2 (best_lane_is_the_best_of_five_games Sample.laneRows)
             Sample.topRow).
    + left. reflexivity.
    + cbn [LaneRow.games Sample.topRow]. qlra.
Defined.

Lemma most_played_champion_is_first_maximum_witness :
  exists l1 l2,
    StrMap.values (Analysis.champions Sample.threeChampions)
    = l1 ++ Sample.garenStats :: l2
    /\ Forall (fun c' => ChampionStats.games c'
                         < ChampionStats.games Sample.garenStats) l1
    /\ Forall (fun c' => ChampionStats.games c'
                         <= ChampionStats.games Sample.garenStats) l2.
Proof.
  assert (H : mostPlayedChamp Sample.threeChampions
              = Some Sample.garenStats) by reflexivity.
  exact (proj2 (most_played_champion_is_first_maximum
                  Sample.threeChampions) Sample.garenStats H).
Defined.

(** * Properties of the champion carousel *)

Lemma champions_ok (matchesData : list MatchData) (target : string) :
  let champions :=
    Analysis.champions (Analysis.of_matches matchesData target) in
  NoDup (StrMap.keys champions) /\ Forall championEntryOk champions.
Proof.
  cbv zeta. unfold Analysis.of_matches, Analysis.merge.
  cbn [Analysis.champions]. rewrite season_analysis_finish.
  destruct (tables_fold (targetSnapshots target matchesData))
    as [_ (Hnd & Hok & _)].
  unfold Season.finish. cbn [Season.champions]. split; assumption.
Qed.

Lemma values_ok (champions : StrMap.t ChampionStats.t) :
  NoDup (StrMap.keys champions) -> Forall championEntryOk champions ->
  Forall (championOk champions) (StrMap.values champions).
Proof.
  intros Hnd Hok. apply Forall_forall. intros c Hc.
  unfold StrMap.values in Hc. apply in_map_iff in Hc.
  destruct Hc as [[k v] [<- Hin]].
  rewrite Forall_forall in Hok. destruct (Hok _ Hin) as (Hn & Hg & Hw).
  cbn [fst snd] in *. unfold championOk. rewrite Hn.
  split; [now apply In_get|]. split; assumption.
Qed.

Lemma values_names (champions : StrMap.t ChampionStats.t) :
  Forall championEntryOk champions ->
  map ChampionStats.name (StrMap.values champions) = StrMap.keys champions.
Proof.
  induction 1 as [|[k v] l (Hn & _) _ IH]; [reflexivity|].
  cbn [StrMap.values StrMap.keys map fst snd] in *.
  unfold StrMap.values, StrMap.keys in IH. now rewrite IH, Hn.
Qed.

Lemma NoDup_map_filter {K V : Type} (key : V -> K) (keep : V -> bool) :
  forall kept : list V,
    NoDup (map key kept) -> NoDup (map key (filter keep kept)).
Proof.
  intros kept. induction kept as [|v kept IH]; cbn [map filter]; intros H;
    [constructor|].
  inversion H as [|? ? Hnot Hnd]; subst.
  destruct (keep v); [|now apply IH].
  cbn [map]. constructor; [|now apply IH].
  intros Hin. apply Hnot. apply in_map_iff in Hin.
  destruct Hin as [x [Hx Hf]]. apply filter_In in Hf.
  apply in_map_iff. exists x. tauto.
Qed.

Lemma NoDup_take {A : Type} (n : nat) (l : list A) :
  NoDup l -> NoDup (firstn n l).
Proof.
  intros H. rewrite <- (firstn_skipn n l) in H.
  now apply NoDup_app_remove_r in H.
Qed.

Lemma sorted_map {A B : Type} (f : A -> B) (R : A -> A -> Prop)
    (R' : B -> B -> Prop) (l : list A) :
  (forall x y, R x y -> R' (f x) (f y)) ->
  StronglySorted R l -> StronglySorted R' (map f l).
Proof.
  intros Hf. induction 1 as [|a l _ IH Hall]; cbn [map]; constructor.
  - exact IH.
  - apply Forall_map. revert Hall. apply Forall_impl. intros y. apply Hf.
Qed.

Lemma sorted_take {A : Type} (R : A -> A -> Prop) (n : nat) (l : list A) :
  StronglySorted R l -> StronglySorted R (firstn n l).
Proof.
  intros H. rewrite <- (firstn_skipn n l) in H.
  now apply sorted_prefix in H.
Qed.

Lemma round_mono (a b : Q) : a <= b -> Js.round a <= Js.round b.
Proof.
  intros H. unfold Js.round. rewrite <- Zle_Qle.
  apply Qfloor_resp_le. qlra.
Qed.

Lemma length_filter_le {A : Type} (p : A -> bool) (l : list A) :
  (List.length (filter p l) <= List.length l)%nat.
Proof.
  induction l as [|a l IH]; cbn [filter List.length]; [lia|].
  destruct (p a); cbn [List.length]; lia.
Qed.

Lemma slice_take {A : Type} (n : nat) (l : list A) :
  Js.slice 0 n l = firstn n l.
Proof. unfold Js.slice. now rewrite Nat.sub_0_r. Qed.

Lemma length_take_le {A : Type} (n : nat) (l : list A) :
  (List.length (firstn n l) <= n)%nat.
Proof. rewrite length_firstn. lia. Qed.

Lemma Forall_filter {A : Type} (P : A -> Prop) (p : A -> bool)
    (l : list A) :
  Forall P l -> Forall (fun x => P x /\ p x = true) (filter p l).
Proof.
  intros H. apply Forall_forall. intros x Hx. apply filter_In in Hx.
  rewrite Forall_forall in H. split; [apply H|]; tauto.
Qed.

Lemma maxCarouselIndex_bounds (cards : list ChampionCard.t) :
  (List.length cards <= 10)%nat -> 0 <= maxCarouselIndex cards <= 6.
Proof.
  intros H. unfold maxCarouselIndex, visibleChampions, Js.max.
  assert (Hlen : Js.len cards <= 10).
  { unfold Js.len. change 10 with (inject_Z 10). rewrite <- Zle_Qle. lia. }
  split; [apply Q.le_max_l|].
  apply Q.max_lub; qlra.
Qed.

(** The cards of the season, for a list of champions of the table that is
    in the order of the mode. *)
Lemma season_cards (a : Analysis.t) (mode : ChampMode)
    (key : ChampionStats.t -> Q) (l : list ChampionStats.t) :
  Forall (fun c => championOk (Analysis.champions a) c
                   /\ cardMinGames mode <= ChampionStats.games c) l ->
  NoDup (map ChampionStats.name l) ->
  StronglySorted (fun x y => key y <= key x) l ->
  (forall x y, key y <= key x ->
               cardOrder mode (seasonCard x) (seasonCard y)) ->
  let cards := map seasonCard (Js.slice 0 10 l) in
  (List.length cards <= 10)%nat
  /\ Forall (fun c => cardMinGames mode <= ChampionCard.games c
                      /\ 0 <= ChampionCard.winrate c <= 100
                      /\ cardOfTable a c) cards
  /\ NoDup (map ChampionCard.name cards)
  /\ StronglySorted (cardOrder mode) cards.
Proof.
  intros Hok Hnd Hs Hkey. cbv zeta. rewrite slice_take.
  split; [rewrite length_map; apply length_take_le|].
  split; [|split].
  - apply Forall_map. apply (Forall_take _ 10) in Hok.
    revert Hok. apply Forall_impl.
    intros c [(Hget & Hg & Hw) Hmin].
    cbn [seasonCard ChampionCard.games ChampionCard.winrate
         ChampionCard.name].
    split; [exact Hmin|].
    split; [apply round_ratio_bounds; [exact Hw | qlra]|].
    exists c. split; [exact Hget | reflexivity].
  - rewrite map_map. cbn [seasonCard ChampionCard.name].
    rewrite <- firstn_map. now apply NoDup_take.
  - apply (sorted_map seasonCard (fun x y => key y <= key x));
      [exact Hkey|].
    now apply sorted_take.
Qed.

(** The carousel shows at most ten cards, so that its index stays between
    0 and 6; every card has a number of games that is not negative and a
    win rate between 0 and 100.  By win rate and by games, each card
    shows a champion of the table under its own name, no champion twice,
    with at least 2, respectively 1, games, and the cards are in
    descending order of the displayed win rate, respectively of the
    games.  By mastery, no card is named "Unknown". *)
Theorem carousel_cards_are_ranked_and_in_range :
  forall (matchesData : list MatchData) (target : string)
         (mode : ChampMode) (masteries : list ChampionMastery.t)
         (championIdMap : IdMap),
    let a := Analysis.of_matches matchesData target in
    let cards := topChampions mode a masteries championIdMap in
    (List.length cards <= 10)%nat
    /\ 0 <= maxCarouselIndex cards <= 6
    /\ Forall (fun c => cardMinGames mode <= ChampionCard.games c
                        /\ 0 <= ChampionCard.winrate c <= 100) cards
    /\ StronglySorted (cardOrder mode) cards
    /\ match mode with
       | ByWinrate | ByGames =>
           Forall (cardOfTable a) cards
           /\ NoDup (map ChampionCard.name cards)
       | ByMastery =>
           Forall (fun c => ChampionCard.name c <> "Unknown") cards
       end.
Proof.
  intros matchesData target mode masteries championIdMap a cards.
  destruct (champions_ok matchesData target) as [Hnd Hok].
  fold a in Hnd, Hok.
  pose proof (values_ok _ Hnd Hok) as Hvals.
  pose proof (values_names _ Hok) as Hnames.
  rewrite <- Hnames in Hnd.
  assert (Hlen : (List.length cards <= 10)%nat
                 -> (List.length cards <= 10)%nat
                    /\ 0 <= maxCarouselIndex cards <= 6)
    by (intros H; split; [exact H | now apply maxCarouselIndex_bounds]).
  destruct mode.
  - (* by win rate *)
    set (champList := filter (fun c => Js.leb 1 (ChampionStats.games c))
                        (StrMap.values (Analysis.champions a))).
    set (played := filter (fun c => Js.leb 2 (ChampionStats.games c))
                     champList).
    set (sorted := sort (fun x y => champWinRatio y - champWinRatio x)
                     played).
    assert (Hperm : Permutation sorted played) by apply sort_perm.
    destruct (season_cards a ByWinrate champWinRatio sorted)
      as (H1 & H2 & H3 & H4).
    + apply (Permutation_Forall (Permutation_sym Hperm)).
      unfold played, champList.
      apply Forall_filter with (p := fun c => Js.leb 1 (ChampionStats.games c))
        in Hvals.
      apply Forall_filter with (p := fun c => Js.leb 2 (ChampionStats.games c))
        in Hvals.
      revert Hvals. apply Forall_impl. intros c [[Hc _] H2].
      split; [exact Hc | now apply leb_true in H2].
    + apply (Permutation_NoDup (Permutation_map _ (Permutation_sym Hperm))).
      unfold played, champList. now do 2 apply NoDup_map_filter.
    + apply (sort_sorted champWinRatio).
    + intros x y Hxy. cbn [cardOrder seasonCard ChampionCard.winrate].
      apply round_mono. unfold champWinRatio in Hxy.
      apply Qmult_le_compat_r; [exact Hxy | qlra].
    + change (map seasonCard (Js.slice 0 10 sorted)) with cards in *.
      destruct (Hlen H1) as [Ha Hb].
      split; [exact Ha|]. split; [exact Hb|].
      split; [revert H2; apply Forall_impl; tauto|].
      split; [exact H4|].
      split; [revert H2; apply Forall_impl; tauto | exact H3].
  - (* by games *)
    set (champList := filter (fun c => Js.leb 1 (ChampionStats.games c))
                        (StrMap.values (Analysis.champions a))).
    set (sorted := sort (fun x y => ChampionStats.games y
                                    - ChampionStats.games x) champList).
    assert (Hperm : Permutation sorted champList) by apply sort_perm.
    destruct (season_cards a ByGames ChampionStats.games sorted)
      as (H1 & H2 & H3 & H4).
    + apply (Permutation_Forall (Permutation_sym Hperm)).
      unfold champList.
      apply Forall_filter with (p := fun c => Js.leb 1 (ChampionStats.games c))
        in Hvals.
      revert Hvals. apply Forall_impl. intros c [Hc H1].
      split; [exact Hc | now apply leb_true in H1].
    + apply (Permutation_NoDup (Permutation_map _ (Permutation_sym Hperm))).
      unfold champList. now apply NoDup_map_filter.
    + apply (sort_sorted ChampionStats.games).
    + intros x y Hxy. exact Hxy.
    + change (map seasonCard (Js.slice 0 10 sorted)) with cards in *.
      destruct (Hlen H1) as [Ha Hb].
      split; [exact Ha|]. split; [exact Hb|].
      split; [revert H2; apply Forall_impl; tauto|].
      split; [exact H4|].
      split; [revert H2; apply Forall_impl; tauto | exact H3].
  - (* by mastery *)
    assert (Hcards :
      cards = [] \/
      cards = filter (fun c => negb (String.eqb (ChampionCard.name c)
                                                "Unknown"))
                (map (masteryCard a championIdMap)
                     (firstn 10 masteries))).
    { unfold cards, topChampions. rewrite slice_take.
      destruct championIdMap; [now left|].
      destruct masteries; [now left | now right]. }
    assert (Hsorted : forall l, StronglySorted (cardOrder ByMastery) l).
    { induction l as [|x l IH]; constructor; [exact IH|].
      apply Forall_forall. intros y _. exact I. }
    destruct Hcards as [-> | ->].
    + destruct (Hlen (Nat.le_0_l 10)) as [Ha Hb].
      split; [exact Ha|]. split; [exact Hb|].
      split; [constructor|]. split; [constructor | constructor].
    + match goal with |- (?len <= 10)%nat /\ _ =>
        assert (Hl : (len <= 10)%nat)
      end.
      { etransitivity; [apply length_filter_le|].
        rewrite length_map. apply length_take_le. }
      destruct (Hlen Hl) as [Ha Hb].
      split; [exact Ha|]. split; [exact Hb|].
      split; [|split; [apply Hsorted|]].
      * apply Forall_forall. intros c Hc. apply filter_In in Hc.
        destruct Hc as [Hc _]. apply in_map_iff in Hc.
        destruct Hc as [m [<- _]]. unfold masteryCard.
        destruct (StrMap.get _ _) as [c|] eqn:E.
        -- apply get_In in E.
           rewrite Forall_forall in Hok.
           destruct (Hok _ E) as (_ & Hg & Hw). cbn [fst snd] in Hg, Hw.
           cbn [ChampionCard.games ChampionCard.winrate cardMinGames].
           split.
           ++ unfold Js.or. destruct (Js.is_zero _); qlra.
           ++ apply round_ratio_bounds; [exact Hw | qlra].
        -- cbn [ChampionCard.games ChampionCard.winrate cardMinGames].
           split; [qlra|]. split; qlra.
      * apply Forall_forall. intros c Hc. apply filter_In in Hc.
        destruct Hc as [_ Hc]. apply negb_true_iff in Hc.
        now apply String.eqb_neq in Hc.
Qed.

(** * Properties of a match card *)

Lemma card_found (matchFilter : MatchFilter) (target : string)
    (recent : list MatchData) (m : MatchData) (p : MatchParticipant) :
  In (m, p) (matchCards matchFilter target recent) ->
  In m recent /\ findParticipant target m = Some p.
Proof.
  unfold matchCards. intros H. apply in_flat_map in H.
  destruct H as [m' [Hm Hc]]. apply filter_In in Hm.
  destruct (findParticipant target m') as [p'|] eqn:E; [|destruct Hc].
  destruct Hc as [[= -> ->]|[]]. tauto.
Qed.

Lemma filter_split {A : Type} (f : A -> bool) (l : list A) :
  Permutation (filter f l ++ filter (fun x => negb (f x)) l) l.
Proof.
  induction l as [|a l IH]; [reflexivity|]. cbn [filter].
  destruct (f a); cbn [negb app].
  - now constructor.
  - rewrite <- Permutation_middle. now constructor.
Qed.

Lemma top_of_sorted (ps : list MatchParticipant) (d : Q) (s : Scored) :
  nth_error (sortedOf ps d) 0 = Some s ->
  forall q, In q ps ->
            s_score (scoreParticipant (matchTotals ps) d q) <= s_score s.
Proof.
  intros Hs q Hq.
  assert (Hin : In (scoreParticipant (matchTotals ps) d q) (sortedOf ps d)).
  { apply (Permutation_in _ (Permutation_sym (sortedOf_perm ps d))).
    unfold scoredOf. now apply in_map. }
  apply In_nth_error in Hin. destruct Hin as [j Hj].
  apply (sorted_nth s_score (sortedOf ps d) 0 j);
    [apply (sort_sorted s_score) | lia | exact Hs | exact Hj].
Qed.

(** A card of the match list shows the snapshot of the target player in
    its match.  The two team rows split the participants of the match,
    with the target player in the first.  When the match has a positive
    duration the badge shows the player's rank, a number from 1 to the
    number of participants, and it reads MVP only if no participant has
    a higher score; otherwise there is no rank, and the badge falls back
    to class 10 without MVP. *)
Theorem match_card_badge_and_teams :
  forall (matchFilter : MatchFilter) (target : string)
         (recent : list MatchData) (teams : option (list TeamObjectives))
         (m : MatchData) (p : MatchParticipant),
    In (m, p) (matchCards matchFilter target recent) ->
    let ps := participants m in
    let badge := myRank teams m p in
    In p ps /\ puuid p = target
    /\ In p (myTeam m p)
    /\ Permutation (myTeam m p ++ enemyTeam m p) ps
    /\ (forall q, In q (myTeam m p) -> ~ In q (enemyTeam m p))
    /\ (0 < gameDuration m ->
        exists v,
          badge = Some v
          /\ (1 <= rank v <= List.length ps)%nat
          /\ rankClass badge = rank v
          /\ (isMvp badge = true ->
              forall q, In q ps ->
                s_score (scoreParticipant (matchTotals ps)
                           (gameDuration m) q)
                <= score v))
    /\ (gameDuration m <= 0 ->
        badge = None /\ rankClass badge = 10%nat /\ isMvp badge = false).
Proof.
  intros matchFilter target recent teams m p Hcard ps badge.
  apply card_found in Hcard. destruct Hcard as [_ Hfind].
  unfold findParticipant in Hfind. apply find_some in Hfind.
  destruct Hfind as [Hin Hid]. apply String.eqb_eq in Hid. fold ps in Hin.
  split; [exact Hin|]. split; [exact Hid|].
  split; [|split; [|split; [|split]]].
  - unfold myTeam. apply filter_In. split; [exact Hin | apply Z.eqb_refl].
  - unfold myTeam, enemyTeam. apply filter_split.
  - unfold myTeam, enemyTeam. intros q Hq Hq'.
    apply filter_In in Hq. apply filter_In in Hq'.
    destruct Hq as [_ Hq], Hq' as [_ Hq']. rewrite Hq in Hq'.
    discriminate Hq'.
  - intros Hd.
    destruct (rank_entry ps (gameDuration m) teams p Hd Hin)
      as (v & _ & Hget & _).
    exists v. unfold badge, myRank. fold ps. rewrite Hget.
    split; [reflexivity|].
    rewrite rank_positive in Hget by assumption.
    apply get_In, assignRanks_In in Hget.
    destruct Hget as [[]|(n & s & Hn & _ & Hr & Hs & _)].
    cbn [Nat.add] in Hr.
    assert (Hlen : List.length (sortedOf ps (gameDuration m))
                   = List.length ps).
    { rewrite (Permutation_length (sortedOf_perm ps (gameDuration m))).
      unfold scoredOf. apply length_map. }
    assert (Hlt : (n < List.length (sortedOf ps (gameDuration m)))%nat)
      by (apply nth_error_Some; congruence).
    split; [lia|]. split.
    + cbn [rankClass]. rewrite Hr.
      replace (n + 1)%nat with (S n) by lia. reflexivity.
    + cbn [isMvp]. intros Hmvp. apply Nat.eqb_eq in Hmvp.
      assert (n = 0%nat) by lia. subst n.
      intros q Hq. rewrite Hs. now apply top_of_sorted.
  - intros Hd.
    assert (E : badge = None).
    { unfold badge, myRank, rankPlayersInMatch.
      assert (El : Js.leb (gameDuration m / 60) 0 = true)
        by (apply leb_true; now apply minutes_nonpos).
      rewrite El. reflexivity. }
    rewrite E. repeat split.
Qed.

Lemma match_card_badge_and_teams_witness :
  let p := Sample.player "x" "Zed" "TOP" 100 true 5 1 3 180 20 15000 12000 in
  In p (myTeam Sample.strangersMatch p)
  /\ exists v,
       myRank None Sample.strangersMatch p = Some v
       /\ (1 <= rank v <= 2)%nat.
Proof.
  intros p.
  assert (Hcard : In (Sample.strangersMatch, p)
                     (matchCards FilterAll "x" [Sample.strangersMatch]))
    by (left; reflexivity).
  assert (Hd : 0 < gameDuration Sample.strangersMatch) by reflexivity.
  destruct (match_card_badge_and_teams FilterAll "x"
              [Sample.strangersMatch] None Sample.strangersMatch p Hcard)
    as (_ & _ & Hteam & _ & _ & Hrank & _).
  split; [exact Hteam|].
  destruct (Hrank Hd) as (v & Hv & Hr & _).
  exists v. split; [exact Hv | exact Hr].
Defined.
